(** * Verification of the image-generation worker (src/worker.js)

    The file [src/worker.js] holds two variants of one Cloudflare Worker
    request handler.  The first (lines 1-126) resolves image dimensions with
    [pickDims] and selects the backend model through [MODEL_WHITELIST]; the
    second (lines 127-247) resolves them with [parseDim] (clamp, then align to
    a multiple of 8) and checks the bearer token before the method and path.

    The development is a shallow embedding: every JavaScript function of the
    source is a Rocq function of the same name (suffix [1] or [2] where both
    variants define one), over a model of the JavaScript values the handler
    can receive from a JSON body.  A function that converts such a value to
    a number returns a [result], since the conversion of an object can raise
    a TypeError. *)

From Stdlib Require Import ZArith QArith Qcanon Qround Qabs List Bool Ascii String
  DecimalString Lia Lqa.
From Stdlib Require PrimFloat FloatOps SpecFloat Qpower.
Import ListNotations.

Set Implicit Arguments.

(** ** JavaScript numbers

    A JavaScript number is an IEEE 754 binary64 value.  Finite values are
    kept as canonical rationals ([Qc]), so that comparison is comparison of
    rationals; every arithmetic result is rounded to the nearest binary64
    value, ties to even, by [to_double].  The type is larger than binary64
    (a [Fin] may hold any rational): theorems quantified over [number] hold
    in particular for every binary64 value. *)
Module JSNumber.

Local Open Scope Q_scope.

Inductive number : Type :=
| NaN
| Inf (neg : bool)
| NegZero
| Fin (q : Qc).

Definition of_Z (z : Z) : number := Fin (Q2Qc (inject_Z z)).

Definition zero (neg : bool) : number := if neg then NegZero else of_Z 0.

(** Sign and magnitude of a number that is not NaN. *)
Inductive shape : Type :=
| SNaN
| SInf (neg : bool)
| SFin (neg : bool) (mag : Q).

Definition Qltb (p q : Q) : bool := negb (Qle_bool q p).

Definition shape_of (n : number) : shape :=
  match n with
  | NaN => SNaN
  | Inf s => SInf s
  | NegZero => SFin true 0
  | Fin q => SFin (Qltb q 0) (Qabs q)
  end.

(** [ilog2 q] is the integer [e] with [2^e <= q < 2^(e+1)], for [q > 0]. *)
Definition ilog2 (q : Q) : Z :=
  let e0 := (Z.log2 (Qnum q) - Z.log2 (Zpos (Qden q)))%Z in
  if Qle_bool (2 ^ e0) q then e0 else (e0 - 1)%Z.

Definition round_half_even (q : Q) : Z :=
  let f := Qfloor q in
  match Qcompare (q - inject_Z f) (1 # 2) with
  | Lt => f
  | Gt => (f + 1)%Z
  | Eq => if Z.even f then f else (f + 1)%Z
  end.

(** Rounding of the real number [(-1)^neg * mag] ([mag >= 0]) to binary64:
    53 bits of precision, least exponent -1074, overflow to infinity at
    2^1024, underflow to a signed zero. *)
Definition to_double (neg : bool) (mag : Q) : number :=
  if Qle_bool mag 0 then zero neg
  else
    let e := Z.max (ilog2 mag - 52) (-1074) in
    let m := round_half_even (mag / 2 ^ e) in
    let v := inject_Z m * 2 ^ e in
    if Qle_bool (2 ^ 1024) v then Inf neg
    else if (m =? 0)%Z then zero neg
    else Fin (Q2Qc (if neg then - v else v)).

(** [x * y] *)
Definition mul (x y : number) : number :=
  match shape_of x, shape_of y with
  | SNaN, _ | _, SNaN => NaN
  | SInf a, SInf b => Inf (xorb a b)
  | SInf a, SFin b m | SFin b m, SInf a =>
      if Qeq_bool m 0 then NaN else Inf (xorb a b)
  | SFin a m, SFin b m' => to_double (xorb a b) (m * m')
  end.

(** [x / y] *)
Definition div (x y : number) : number :=
  match shape_of x, shape_of y with
  | SNaN, _ | _, SNaN => NaN
  | SInf _, SInf _ => NaN
  | SInf a, SFin b _ => Inf (xorb a b)
  | SFin a _, SInf b => zero (xorb a b)
  | SFin a m, SFin b m' =>
      if Qeq_bool m' 0
      then (if Qeq_bool m 0 then NaN else Inf (xorb a b))
      else to_double (xorb a b) (m / m')
  end.

(** Numeric comparison; [None] when an operand is NaN.  The two zeros are
    equal. *)
Definition cmp (x y : number) : option comparison :=
  match x, y with
  | NaN, _ | _, NaN => None
  | Inf a, Inf b =>
      Some (match a, b with
            | false, true => Gt
            | true, false => Lt
            | _, _ => Eq
            end)
  | Inf a, _ => Some (if a then Lt else Gt)
  | _, Inf b => Some (if b then Gt else Lt)
  | NegZero, NegZero => Some Eq
  | NegZero, Fin q => Some (Qccompare 0%Qc q)
  | Fin p, NegZero => Some (Qccompare p 0%Qc)
  | Fin p, Fin q => Some (Qccompare p q)
  end.

(** [x > y], [x >= y], [x <= y] *)
Definition gt (x y : number) : bool :=
  match cmp x y with Some Gt => true | _ => false end.
Definition ge (x y : number) : bool :=
  match cmp x y with Some Gt | Some Eq => true | _ => false end.
Definition le (x y : number) : bool :=
  match cmp x y with Some Lt | Some Eq => true | _ => false end.

Definition is_neg_zero (n : number) : bool :=
  match n with NegZero => true | _ => false end.

(** [Math.max(x, y)] and [Math.min(x, y)] on numbers: NaN when an operand is
    NaN, and +0 is larger than -0. *)
Definition max (x y : number) : number :=
  match cmp x y with
  | None => NaN
  | Some Gt => x
  | Some Lt => y
  | Some Eq => if is_neg_zero x then y else x
  end.

Definition min (x y : number) : number :=
  match cmp x y with
  | None => NaN
  | Some Lt => x
  | Some Gt => y
  | Some Eq => if is_neg_zero x then x else y
  end.

(** [Math.round(x)]: the nearest integer, ties towards +infinity; -0 for
    [-0.5 <= x < 0]. *)
Definition round (x : number) : number :=
  match x with
  | Fin q =>
      let z := Qfloor (q + (1 # 2)) in
      if (z =? 0)%Z && Qltb q 0 then NegZero else of_Z z
  | _ => x
  end.

(** [Number.isFinite(x)] and [Number.isInteger(x)] for a number [x]. *)
Definition isFinite (x : number) : bool :=
  match x with
  | NaN | Inf _ => false
  | NegZero | Fin _ => true
  end.

Definition isInteger (x : number) : bool :=
  match x with
  | NaN | Inf _ => false
  | NegZero => true
  | Fin q => Qeq_bool (inject_Z (Qfloor q)) q
  end.

(** ToBoolean of a number: false for +0, -0 and NaN. *)
Definition truthy (x : number) : bool :=
  match x with
  | NaN | NegZero => false
  | Inf _ => true
  | Fin q => negb (Qeq_bool q 0)
  end.

(** Decidable equality of numbers, on the canonical representation. *)
Definition eqb (x y : number) : bool :=
  match x, y with
  | NaN, NaN => true
  | Inf a, Inf b => Bool.eqb a b
  | NegZero, NegZero => true
  | Fin p, Fin q => Qeq_bool p q
  | _, _ => false
  end.

End JSNumber.

(** ** The number model against the machine's binary64

    The primitive floats of Rocq are binary64 values computed by the
    machine.  [of_float] reads one as a [number]; the lemmas of
    [Binary64Facts] below check that [JSNumber.div] and [JSNumber.mul] give
    what the machine gives on a set of sample values that covers normal and
    subnormal numbers, overflow, underflow, zeros, infinities and NaN. *)
Module Binary64.

Import PrimFloat.
Import JSNumber.
Local Open Scope string_scope.

Definition of_spec_float (f : SpecFloat.spec_float) : number :=
  match f with
  | SpecFloat.S754_zero s => zero s
  | SpecFloat.S754_infinity s => Inf s
  | SpecFloat.S754_nan => NaN
  | SpecFloat.S754_finite s m e =>
      Fin (Q2Qc ((if s then - (1) else 1) * inject_Z (Zpos m) * 2 ^ e)%Q)
  end.

Definition of_float (f : PrimFloat.float) : number :=
  of_spec_float (FloatOps.Prim2SF f).

Definition samples : list PrimFloat.float :=
  [ 16; 9; 1920; 1024; 3000; 3; 8; 0.5; 0x1.c71c71c71c71cp+0; 0x1p-1074;
    0x1p-1022; 0x1.fffffffffffffp+1023; 0x1.8p+600; 0x1.2p-700; 0; -0;
    -7.25; PrimFloat.infinity; PrimFloat.neg_infinity; PrimFloat.nan ]%float.

Definition sample_pairs : list (PrimFloat.float * PrimFloat.float) :=
  flat_map (fun a => map (fun b => (a, b)) samples) samples.

Definition div_agrees (p : PrimFloat.float * PrimFloat.float) : bool :=
  eqb (of_float (PrimFloat.div (fst p) (snd p)))
      (div (of_float (fst p)) (of_float (snd p))).

Definition mul_agrees (p : PrimFloat.float * PrimFloat.float) : bool :=
  eqb (of_float (PrimFloat.mul (fst p) (snd p)))
      (mul (of_float (fst p)) (of_float (snd p))).

(** Numeric strings and the binary64 value that [Number] gives them. *)
Definition literals : list (string * PrimFloat.float) :=
  [ ("16", 16); ("9", 9); (" 12 ", 12); ("", 0); ("-0", -0); ("+7", 7);
    ("1.5", 1.5); (".5e1", 5); ("5.", 5); ("1e3", 1000); ("1E-1", 0x1.999999999999ap-4);
    ("0.1", 0x1.999999999999ap-4); ("1.777", 0x1.c6e978d4fdf3bp+0);
    ("0x1F", 31); ("0b101", 5); ("0o17", 15); ("00012", 12);
    ("9007199254740993", 9007199254740992);
    ("1.7976931348623157e308", 0x1.fffffffffffffp+1023);
    ("4.9e-324", 0x1p-1074); ("2e-324", 0); ("-1e-400", -0);
    ("1e400", PrimFloat.infinity); ("Infinity", PrimFloat.infinity);
    ("-Infinity", PrimFloat.neg_infinity);
    ("abc", PrimFloat.nan); (".", PrimFloat.nan); ("1e", PrimFloat.nan);
    ("1 2", PrimFloat.nan); ("1,2", PrimFloat.nan); ("-0x10", PrimFloat.nan);
    ("0x", PrimFloat.nan); ("16:9", PrimFloat.nan) ]%float.

End Binary64.

(** ** JavaScript strings

    A string is a sequence of UTF-16 code units. *)
Module JSString.

Local Open Scope N_scope.

Definition jsstring : Type := list N.

(** The code units of a literal of the source. *)
Definition lit (s : string) : jsstring :=
  map N_of_ascii (list_ascii_of_string s).

Definition str_eqb (s t : jsstring) : bool :=
  if list_eq_dec N.eq_dec s t then true else false.

(** WhiteSpace and LineTerminator code points, which [trim] strips and
    which may surround a numeric literal. *)
Definition is_white (c : N) : bool :=
  existsb (N.eqb c)
    [9; 10; 11; 12; 13; 32; 160; 5760; 8192; 8193; 8194; 8195; 8196; 8197;
     8198; 8199; 8200; 8201; 8202; 8232; 8233; 8239; 8287; 12288; 65279].

Fixpoint trim_start (s : jsstring) : jsstring :=
  match s with
  | [] => []
  | c :: s' => if is_white c then trim_start s' else s
  end.

Definition trim_end (s : jsstring) : jsstring := rev (trim_start (rev s)).

(** [s.trim()] *)
Definition trim (s : jsstring) : jsstring := trim_end (trim_start s).

Fixpoint starts_with (p s : jsstring) : bool :=
  match p, s with
  | [], _ => true
  | _ :: _, [] => false
  | a :: p', b :: s' => (a =? b) && starts_with p' s'
  end.

(** [s.includes(p)] *)
Fixpoint includes (p s : jsstring) : bool :=
  starts_with p s ||
  match s with
  | [] => false
  | _ :: s' => includes p s'
  end.

(** [s.split(re)] for a regular expression [re] that matches exactly the
    single code units satisfying [d] (here the class [[:/]]). *)
Fixpoint split (d : N -> bool) (s : jsstring) : list jsstring :=
  match s with
  | [] => [[]]
  | c :: s' =>
      if d c then [] :: split d s'
      else match split d s' with
           | p :: ps => (c :: p) :: ps
           | [] => [[c]]
           end
  end.

(** [s.length] *)
Definition length (s : jsstring) : Z := Z.of_nat (List.length s).

End JSString.

(** ** String to number conversion ([Number(s)] for a string [s])

    The StringNumericLiteral grammar of ECMA-262: optional white space around
    a signed decimal literal (with [Infinity], fraction and exponent) or an
    unsigned binary, octal or hexadecimal integer; the empty string is +0 and
    anything else is NaN.  The mathematical value is rounded by
    [JSNumber.to_double]. *)
Module StringToNumber.

Import JSNumber JSString.
Local Open Scope Z_scope.

Definition digit_of (base : Z) (c : N) : option Z :=
  let c := Z.of_N c in
  let v :=
    if (48 <=? c) && (c <=? 57) then c - 48
    else if (97 <=? c) && (c <=? 102) then c - 87
    else if (65 <=? c) && (c <=? 70) then c - 55
    else 99 in
  if v <? base then Some v else None.

(** The longest prefix of digits of [s]: its value on top of [acc], the
    number of digits read, and what is left. *)
Fixpoint digits (base : Z) (s : jsstring) (acc : Z) (n : Z) : Z * Z * jsstring :=
  match s with
  | [] => (acc, n, [])
  | c :: s' =>
      match digit_of base c with
      | Some d => digits base s' (acc * base + d) (n + 1)
      | None => (acc, n, s)
      end
  end.

(** ExponentPart, or nothing: the exponent, when what is left of the literal
    is well formed. *)
Definition exponent_part (s : jsstring) : option Z :=
  match s with
  | [] => Some 0
  | c :: s' =>
      if (c =? 101)%N || (c =? 69)%N then  (* e, E *)
        let '(neg, s'') :=
          match s' with
          | 43%N :: t => (false, t)   (* + *)
          | 45%N :: t => (true, t)    (* - *)
          | _ => (false, s')
          end in
        match digits 10 s'' 0 0 with
        | (e, n, []) => if 0 <? n then Some (if neg then - e else e) else None
        | _ => None
        end
      else None
  end.

(** StrUnsignedDecimalLiteral, without [Infinity]: the mathematical value. *)
Definition unsigned_decimal (s : jsstring) : option Q :=
  let '(ip, ni, r1) := digits 10 s 0 0 in
  let '(fp, nf, r2) :=
    match r1 with
    | 46%N :: t => digits 10 t ip 0   (* . *)
    | _ => (ip, 0, r1)
    end in
  if 0 <? ni + nf then
    match exponent_part r2 with
    | Some e => Some (inject_Z fp * 10 ^ (e - nf))%Q
    | None => None
    end
  else None.

Definition signed_decimal (neg : bool) (s : jsstring) : number :=
  if str_eqb s (lit "Infinity") then Inf neg
  else match unsigned_decimal s with
       | Some q => to_double neg q
       | None => NaN
       end.

Definition non_decimal (base : Z) (s : jsstring) : number :=
  match digits base s 0 0 with
  | (v, n, []) => if 0 <? n then to_double false (inject_Z v) else NaN
  | _ => NaN
  end.

Definition numeric_literal (s : jsstring) : number :=
  match s with
  | [] => of_Z 0
  | 43%N :: t => signed_decimal false t
  | 45%N :: t => signed_decimal true t
  | 48%N :: c :: t =>
      if (c =? 120)%N || (c =? 88)%N then non_decimal 16 t        (* 0x *)
      else if (c =? 111)%N || (c =? 79)%N then non_decimal 8 t    (* 0o *)
      else if (c =? 98)%N || (c =? 66)%N then non_decimal 2 t     (* 0b *)
      else signed_decimal false s
  | _ => signed_decimal false s
  end.

Definition string_to_number (s : jsstring) : number :=
  numeric_literal (trim s).

End StringToNumber.

(** ** JavaScript values

    The values a parsed JSON body and its fields can take, and [undefined]
    for an absent field. *)
Module JSValue.

Import JSNumber JSString StringToNumber.

#[warnings="-register-all"]
Inductive value : Type :=
| Undefined
| Null
| Bool (b : bool)
| Num (n : number)
| Str (s : jsstring)
| Arr (elems : list value)
| Obj (fields : list (jsstring * value)).

(** The outcome of an operation that may raise a TypeError. *)
Inductive result (A : Type) : Type :=
| Ok (a : A)
| TypeError.

Arguments Ok {A} a.
Arguments TypeError {A}.

Definition bind {A B : Type} (r : result A) (k : A -> result B) : result B :=
  match r with
  | Ok a => k a
  | TypeError => TypeError
  end.

Notation "x <- r ;; k" := (bind r (fun x => k))
  (at level 61, r at next level, right associativity).

Fixpoint has_key (k : jsstring) (fields : list (jsstring * value)) : bool :=
  match fields with
  | [] => false
  | (k', _) :: rest => str_eqb k k' || has_key k rest
  end.

(** ToPrimitive raises a TypeError on [v].  A parsed JSON object has no
    callable property of its own, so an object with an own property
    "toString" hides [Object.prototype.toString] by a value that cannot be
    called, while [valueOf] (own or inherited) does not give a primitive:
    nothing converts it.  An array converts by joining the string forms of
    its elements, and raises when one of them does. *)
Fixpoint unconvertible (v : value) : bool :=
  match v with
  | Obj fields => has_key (lit "toString") fields
  | Arr elems => existsb unconvertible elems
  | _ => false
  end.

(** The number that ToNumber returns, for a value that it converts.  An
    array converts through its string form, the join of its elements with
    commas: the empty array is the empty string, an array of two or more
    elements has a comma and is not numeric, and a one-element array has the
    string form of its element ([null] and [undefined] render as the empty
    string, a number renders as a literal that reads back as itself, -0 as
    "0").  A plain object renders as "[object Object]". *)
Fixpoint to_number (v : value) : number :=
  match v with
  | Undefined => NaN
  | Null => of_Z 0
  | Bool b => of_Z (if b then 1 else 0)
  | Num n => n
  | Str s => string_to_number s
  | Arr [] => of_Z 0
  | Arr [x] =>
      match x with
      | Undefined | Null => of_Z 0
      | Bool _ | Obj _ => NaN
      | Num n => if is_neg_zero n then of_Z 0 else n
      | Str s => string_to_number s
      | Arr _ => to_number x
      end
  | Arr _ => NaN
  | Obj _ => NaN
  end.

(** ToNumber: [Number(v)], and the conversion of an operand of [/], [*],
    [Math.max] and [Math.min]. *)
Definition ToNumber (v : value) : result number :=
  if unconvertible v then TypeError else Ok (to_number v).

(** ToBoolean *)
Definition to_boolean (v : value) : bool :=
  match v with
  | Undefined | Null => false
  | Bool b => b
  | Num n => truthy n
  | Str s => match s with [] => false | _ => true end
  | Arr _ | Obj _ => true
  end.

(** [typeof v] *)
Definition typeof (v : value) : jsstring :=
  match v with
  | Undefined => lit "undefined"
  | Null | Arr _ | Obj _ => lit "object"
  | Bool _ => lit "boolean"
  | Num _ => lit "number"
  | Str _ => lit "string"
  end.

(** [a || b] on values *)
Definition or_else (a b : value) : value := if to_boolean a then a else b.

(** The property [k] of an object given by the list of its own properties
    (the first binding of a key is the property), [undefined] when it has
    none. *)
Fixpoint assoc (k : jsstring) (fields : list (jsstring * value)) : value :=
  match fields with
  | [] => Undefined
  | (k', v) :: rest => if str_eqb k k' then v else assoc k rest
  end.

(** [v.k] for one of the request field names [k] (prompt, model, width,
    height, aspectRatio, longEdge) and a value [v] that is neither [null] nor
    [undefined]: an own property of an object, and [undefined] otherwise
    (no primitive wrapper, array or [Object.prototype] has a property of
    these names). *)
Definition get (v : value) (k : jsstring) : value :=
  match v with
  | Obj fields => assoc k fields
  | _ => Undefined
  end.

(** [v?.k] *)
Definition get_opt (v : value) (k : jsstring) : value :=
  match v with
  | Undefined | Null => Undefined
  | _ => get v k
  end.

End JSValue.

(** [Number.isFinite(v)] and [Number.isInteger(v)] do not convert their
    argument: they are false for anything that is not a number. *)
Module JSBuiltin.

Import JSNumber JSString JSValue.

Definition Number_isFinite (v : value) : bool :=
  match v with
  | Num n => isFinite n
  | _ => false
  end.

Definition Number_isInteger (v : value) : bool :=
  match v with
  | Num n => isInteger n
  | _ => false
  end.

(** [arr[i]] for an array of numbers: [undefined] past the end. *)
Definition index (arr : list number) (i : nat) : value :=
  match nth_error arr i with
  | Some n => Num n
  | None => Undefined
  end.

(** The character class [[:/]] of the split expression. *)
Definition is_delim (c : N) : bool := (c =? 58)%N || (c =? 47)%N.

End JSBuiltin.

(** ** Dimension resolution, first variant (lines 3-57) *)

(** A resolved pair of dimensions, [{ width, height }]. *)
Record dims : Type := { width : JSNumber.number; height : JSNumber.number }.

(** The sizing fields of a request body, [{ width, height, aspectRatio,
    longEdge }]; an absent field is [Undefined]. *)
Record sizing : Type := {
  s_width : JSValue.value;
  s_height : JSValue.value;
  s_aspectRatio : JSValue.value;
  s_longEdge : JSValue.value
}.

Module Variant1.

Import JSNumber JSString StringToNumber JSValue JSBuiltin.

Definition DEFAULT_W : number := of_Z 1024.
Definition DEFAULT_H : number := of_Z 1024.
Definition MIN_DIM : number := of_Z 256.
Definition MAX_DIM : number := of_Z 2048.

(** [clamp(n, lo, hi)]: [Math.min(hi, Math.max(lo, n))]; [Math.max] converts
    [n] to a number. *)
Definition clamp (n : value) (lo hi : number) : result number :=
  x <- ToNumber n ;;
  Ok (min hi (max lo x)).

(** [parseAspectRatio(ar)]; [None] is [null]. *)
Definition parseAspectRatio1 (ar : value) : option number :=
  match ar with
  | Str ar =>
      let s := trim ar in
      match s with
      | [] => None
      | _ =>
          if includes (lit ":") s || includes (lit "/") s then
            let parts := map string_to_number (split is_delim s) in
            let a := index parts 0 in
            let b := index parts 1 in
            if Number_isFinite a && Number_isFinite b
               && gt (to_number a) (of_Z 0) && gt (to_number b) (of_Z 0)
            then Some (div (to_number a) (to_number b))
            else None
          else
            let n := string_to_number s in
            if isFinite n && gt n (of_Z 0) then Some n else None
      end
  | _ => None
  end.

(** The default of the destructured parameter, [longEdge = 1024]: it
    applies to [undefined] only. *)
Definition longEdge_param (v : value) : value :=
  match v with
  | Undefined => Num (of_Z 1024)
  | _ => v
  end.

(** [parseAspectRatio(aspectRatio) || 1] *)
Definition ratio1 (aspectRatio : value) : number :=
  match parseAspectRatio1 aspectRatio with
  | Some r => if truthy r then r else of_Z 1
  | None => of_Z 1
  end.

(** Lines 37-51 of [pickDims]: the values of [w] and [h] once the precedence
    rules have run, before the fallback and the clamp of lines 53-54.  The
    division and the product convert [longEdge] to a number. *)
Definition derive1 (w h : number) (ar : number) (longEdge : value)
  : result (value * value) :=
  if isInteger w && gt w (of_Z 0) then
    Ok (Num w, Num (round (div w ar)))
  else if isInteger h && gt h (of_Z 0) then
    Ok (Num (round (mul h ar)), Num h)
  else if truthy ar then
    if ge ar (of_Z 1) then
      n <- ToNumber longEdge ;;
      Ok (longEdge, Num (round (div n ar)))
    else
      n <- ToNumber longEdge ;;
      Ok (Num (round (mul n ar)), longEdge)
  else Ok (Num w, Num h).

(** Lines 53-54: [clamp(v || DEFAULT, MIN_DIM, MAX_DIM)]. *)
Definition finalize1 (v : value) (dflt : number) : result number :=
  clamp (or_else v (Num dflt)) MIN_DIM MAX_DIM.

(** [pickDims({ width, height, aspectRatio, longEdge = 1024 })] (lines 24-57) *)
Definition pickDims (a : sizing) : result dims :=
  let longEdge := longEdge_param (s_longEdge a) in
  w <- ToNumber (s_width a) ;;
  h <- ToNumber (s_height a) ;;
  if isInteger w && isInteger h && gt w (of_Z 0) && gt h (of_Z 0) then
    cw <- clamp (Num w) MIN_DIM MAX_DIM ;;
    ch <- clamp (Num h) MIN_DIM MAX_DIM ;;
    Ok {| width := cw; height := ch |}
  else
    let ar := ratio1 (s_aspectRatio a) in
    d <- derive1 w h ar longEdge ;;
    cw <- finalize1 (fst d) DEFAULT_W ;;
    ch <- finalize1 (snd d) DEFAULT_H ;;
    Ok {| width := cw; height := ch |}.

End Variant1.

(** ** Dimension resolution, second variant (lines 164-184 and 226-247) *)
Module Variant2.

Import JSNumber JSString StringToNumber JSValue JSBuiltin.

(** Lines 230-233 of [parseDim], on the number [n] read from its
    argument; [None] is [null]. *)
Definition dim_of_number (min_ max_ align n : number) : option number :=
  if negb (isFinite n) || le n (of_Z 0) then None
  else
    let rounded := round n in
    let clamped := min max_ (max min_ rounded) in
    Some (max align (mul (round (div clamped align)) align)).

(** [parseDim(v, { min, max, align })] *)
Definition parseDim_with (min_ max_ align : number) (v : value)
  : result (option number) :=
  match v with
  | Undefined | Null => Ok None
  | _ =>
      n <- match v with
           | Str s => Ok (string_to_number (trim s))
           | _ => ToNumber v
           end ;;
      Ok (dim_of_number min_ max_ align n)
  end.

(** [parseDim(v)], with the defaults [min = 256], [max = 2048],
    [align = 8] of the options parameter; every call of the source uses
    them. *)
Definition parseDim (v : value) : result (option number) :=
  parseDim_with (of_Z 256) (of_Z 2048) (of_Z 8) v.

Definition parseAspectRatio2 (ar : value) : option number :=
  match ar with
  | Str ar =>
      let s := trim ar in
      match s with
      | [] => None
      | _ =>
          if includes (lit ":") s || includes (lit "/") s then
            let parts := map string_to_number (split is_delim s) in
            let a := index parts 0 in
            let b := index parts 1 in
            if Number_isFinite a && Number_isFinite b
               && gt (to_number a) (of_Z 0) && gt (to_number b) (of_Z 0)
            then Some (div (to_number a) (to_number b))
            else None
          else
            let n := string_to_number s in
            if isFinite n && gt n (of_Z 0) then Some n else None
      end
  | _ => None
  end.

(** ToBoolean and ToNumber of the result of [parseDim] ([null] or a
    number). *)
Definition truthy_dim (d : option number) : bool :=
  match d with
  | Some n => truthy n
  | None => false
  end.

Definition number_of_dim (d : option number) : number :=
  match d with
  | Some n => n
  | None => of_Z 0
  end.

(** [parseAspectRatio(body?.aspectRatio) ?? 1] *)
Definition ratio2 (aspectRatio : value) : number :=
  match parseAspectRatio2 aspectRatio with
  | Some r => r
  | None => of_Z 1
  end.

(** [parseDim(body?.longEdge) ?? 1024] *)
Definition longEdge_of (v : value) : result number :=
  d <- parseDim v ;;
  Ok (match d with
      | Some n => n
      | None => of_Z 1024
      end).

(** Lines 171-180: [w] and [h] after the priority rules. *)
Definition derive2 (w h : option number) (ar longEdge : number)
  : result (option number * option number) :=
  if truthy_dim w && truthy_dim h then Ok (w, h)
  else if truthy_dim w && negb (truthy_dim h) then
    h' <- parseDim (Num (round (div (number_of_dim w) ar))) ;;
    Ok (w, h')
  else if negb (truthy_dim w) && truthy_dim h then
    w' <- parseDim (Num (round (mul (number_of_dim h) ar))) ;;
    Ok (w', h)
  else if ge ar (of_Z 1) then
    w' <- parseDim (Num longEdge) ;;
    h' <- parseDim (Num (round (div longEdge ar))) ;;
    Ok (w', h')
  else
    h' <- parseDim (Num longEdge) ;;
    w' <- parseDim (Num (round (mul longEdge ar))) ;;
    Ok (w', h').

(** Lines 183-184: [d || 1024]. *)
Definition finalize2 (d : option number) : number :=
  if truthy_dim d then number_of_dim d else of_Z 1024.

(** The dimension block of [fetch] (lines 165-184), on the sizing fields
    read from the body with [body?.width] and so on. *)
Definition resolveDims (a : sizing) : result dims :=
  w <- parseDim (s_width a) ;;
  h <- parseDim (s_height a) ;;
  let ar := ratio2 (s_aspectRatio a) in
  longEdge <- longEdge_of (s_longEdge a) ;;
  d <- derive2 w h ar longEdge ;;
  Ok {| width := finalize2 (fst d); height := finalize2 (snd d) |}.

End Variant2.

(** ** The resolvers without the conversion errors

    What the functions above return when no conversion raises: the same
    code with [to_number] in place of [ToNumber].  The lemmas of
    [Conversion] below relate the two. *)
Module Value.

Import JSNumber JSString StringToNumber JSValue JSBuiltin.

Definition clamp_v (n : value) (lo hi : number) : number :=
  min hi (max lo (to_number n)).

Definition derive1_v (w h : number) (ar : number) (longEdge : value)
  : value * value :=
  if isInteger w && gt w (of_Z 0) then
    (Num w, Num (round (div w ar)))
  else if isInteger h && gt h (of_Z 0) then
    (Num (round (mul h ar)), Num h)
  else if truthy ar then
    if ge ar (of_Z 1) then
      (longEdge, Num (round (div (to_number longEdge) ar)))
    else
      (Num (round (mul (to_number longEdge) ar)), longEdge)
  else (Num w, Num h).

Definition finalize1_v (v : value) (dflt : number) : number :=
  clamp_v (or_else v (Num dflt)) Variant1.MIN_DIM Variant1.MAX_DIM.

Definition pickDims_v (a : sizing) : dims :=
  let longEdge := Variant1.longEdge_param (s_longEdge a) in
  let w := to_number (s_width a) in
  let h := to_number (s_height a) in
  if isInteger w && isInteger h && gt w (of_Z 0) && gt h (of_Z 0) then
    {| width := clamp_v (Num w) Variant1.MIN_DIM Variant1.MAX_DIM;
       height := clamp_v (Num h) Variant1.MIN_DIM Variant1.MAX_DIM |}
  else
    let ar := Variant1.ratio1 (s_aspectRatio a) in
    let d := derive1_v w h ar longEdge in
    {| width := finalize1_v (fst d) Variant1.DEFAULT_W;
       height := finalize1_v (snd d) Variant1.DEFAULT_H |}.

(** The conversion of [pickDims] raises: that of width or height, or that
    of longEdge where the long-edge branch is taken. *)
Definition pickDims_raises (a : sizing) : bool :=
  unconvertible (s_width a) || unconvertible (s_height a)
  || (let w := to_number (s_width a) in
      let h := to_number (s_height a) in
      negb (isInteger w && gt w (of_Z 0))
      && negb (isInteger h && gt h (of_Z 0))
      && unconvertible (s_longEdge a)).

Definition parseDim_v (v : value) : option number :=
  match v with
  | Undefined | Null => None
  | _ => Variant2.dim_of_number (of_Z 256) (of_Z 2048) (of_Z 8) (to_number v)
  end.

Definition longEdge_v (v : value) : number :=
  match parseDim_v v with
  | Some n => n
  | None => of_Z 1024
  end.

Definition derive2_v (w h : option number) (ar longEdge : number)
  : option number * option number :=
  if Variant2.truthy_dim w && Variant2.truthy_dim h then (w, h)
  else if Variant2.truthy_dim w && negb (Variant2.truthy_dim h) then
    (w, parseDim_v (Num (round (div (Variant2.number_of_dim w) ar))))
  else if negb (Variant2.truthy_dim w) && Variant2.truthy_dim h then
    (parseDim_v (Num (round (mul (Variant2.number_of_dim h) ar))), h)
  else if ge ar (of_Z 1) then
    (parseDim_v (Num longEdge), parseDim_v (Num (round (div longEdge ar))))
  else
    (parseDim_v (Num (round (mul longEdge ar))), parseDim_v (Num longEdge)).

Definition resolveDims_v (a : sizing) : dims :=
  let d := derive2_v (parseDim_v (s_width a)) (parseDim_v (s_height a))
             (Variant2.ratio2 (s_aspectRatio a)) (longEdge_v (s_longEdge a)) in
  {| width := Variant2.finalize2 (fst d); height := Variant2.finalize2 (snd d) |}.

(** A conversion of the dimension block raises: [parseDim] converts width,
    height and longEdge, whatever branch follows. *)
Definition resolveDims_raises (a : sizing) : bool :=
  unconvertible (s_width a) || unconvertible (s_height a)
  || unconvertible (s_longEdge a).

End Value.

(** ** The request handler *)
Module Http.

Import JSNumber JSString JSValue.

(** What the handler reads of a request: [request.method], the path of
    [request.url], [request.headers.get] of the two headers ([None] is
    [null]) and the outcome of [request.json()] ([None] when it throws). *)
Record request : Type := {
  method : jsstring;
  pathname : jsstring;
  authorization : option jsstring;
  content_type : option jsstring;
  json_body : option value
}.

(** The arguments of one call [env.AI.run(model, { prompt, width, height })]. *)
Record ai_call : Type := {
  call_model : value;
  call_prompt : jsstring;
  call_width : number;
  call_height : number
}.

(** The bytes of a generated image. *)
Definition image : Type := list N.

(** The environment: the configured secret and the backend binding
    ([None] when the call throws). *)
Record env : Type := {
  API_KEY : jsstring;
  AI_run : ai_call -> option image
}.

(** Helpers and constants that the first variant keeps from an earlier
    version which is not in the repository ([parseBearer], [safeEqual],
    [SECURITY_HEADERS]), and two built-ins whose tables are outside it:
    [String.prototype.toLowerCase] and the conversion of a number to a
    string in a template literal. *)
Record helpers : Type := {
  toLowerCase : jsstring -> jsstring;
  number_toString : number -> jsstring;
  parseBearer : jsstring -> value;
  safeEqual : value -> jsstring -> bool;
  SECURITY_HEADERS : list (jsstring * jsstring)
}.

Inductive body : Type :=
| NoBody
| JsonError (message : jsstring)
| Image (bytes : image).

Definition headers : Type := list (jsstring * jsstring).

Record response : Type := {
  status : Z;
  resp_headers : headers;
  resp_body : body
}.

(** [h.get(name)] and [h.set(name, v)] *)
Fixpoint header_get (h : headers) (name : jsstring) : option jsstring :=
  match h with
  | [] => None
  | (k, v) :: rest => if str_eqb k name then Some v else header_get rest name
  end.

Fixpoint header_set (h : headers) (name v : jsstring) : headers :=
  match h with
  | [] => [(name, v)]
  | (k, v') :: rest =>
      if str_eqb k name then (k, v) :: rest
      else (k, v') :: header_set rest name v
  end.

(** An object literal with a spread, [{ ...base, ...extra }]. *)
Definition spread (base extra : headers) : headers :=
  fold_left (fun h kv => header_set h (fst kv) (snd kv)) extra base.

(** [json({ error: message }, status, extraHeaders)] (lines 209-214) *)
Definition json (message : jsstring) (status : Z) (extraHeaders : headers)
  : response :=
  {| status := status;
     resp_headers :=
       spread [(lit "Content-Type", lit "application/json")] extraHeaders;
     resp_body := JsonError message |}.

(** [cors(response)] (lines 217-224) *)
Definition cors (r : response) : response :=
  let h := resp_headers r in
  let h := header_set h (lit "Access-Control-Allow-Origin") (lit "*") in
  let h := header_set h (lit "Access-Control-Allow-Methods") (lit "POST, OPTIONS") in
  let h := header_set h (lit "Access-Control-Allow-Headers")
             (lit "Authorization, Content-Type") in
  let h := header_set h (lit "Access-Control-Max-Age") (lit "600") in
  {| status := status r; resp_headers := h; resp_body := resp_body r |}.

(** [new Set([...]).has(v)]: only a string is equal to a member. *)
Definition set_has (members : list jsstring) (v : value) : bool :=
  match v with
  | Str s => existsb (str_eqb s) members
  | _ => false
  end.

Definition MODEL_WHITELIST : list jsstring :=
  [ lit "@cf/stabilityai/stable-diffusion-xl-base-1.0";
    lit "@cf/blackforestlabs/ux-1-schnell";
    lit "@cf/bytedance/stable-diffusion-xl-lightning";
    lit "@cf/lykon/dreamshaper-8-lcm";
    lit "@cf/runwayml/stable-diffusion-v1-5-img2img";
    lit "@cf/runwayml/stable-diffusion-v1-5-inpainting" ].

Definition DEFAULT_MODEL : jsstring :=
  lit "@cf/stabilityai/stable-diffusion-xl-base-1.0".

(** [`inline; filename="image-${w}x${h}.png"`] *)
Definition content_disposition (H : helpers) (w h : number) : jsstring :=
  lit "inline; filename=" ++ [34%N] ++ lit "image-" ++ number_toString H w
    ++ lit "x" ++ number_toString H h ++ lit ".png" ++ [34%N].

(** ['Bearer realm="service"'] *)
Definition bearer_challenge : jsstring :=
  lit "Bearer realm=" ++ [34%N] ++ lit "service" ++ [34%N].

Definition is_json_type (H : helpers) (ctype : option jsstring) : bool :=
  let ctype := match ctype with Some c => c | None => [] end in
  includes (lit "application/json") (toLowerCase H ctype).

Definition sizing_of (get : jsstring -> value) : sizing :=
  {| s_width := get (lit "width");
     s_height := get (lit "height");
     s_aspectRatio := get (lit "aspectRatio");
     s_longEdge := get (lit "longEdge") |}.

(** The result of a handler: its response and the backend calls it made. *)
Definition outcome : Type := response * list ai_call.

(** *** First variant (lines 59-126) *)

(** Lines 105-124: the backend call and the response built from it. *)
Definition generate1 (H : helpers) (e : env) (c : ai_call) : outcome :=
  match AI_run e c with
  | Some result =>
      (cors {| status := 200;
               resp_headers :=
                 spread [ (lit "Content-Type", lit "image/png");
                          (lit "Cache-Control", lit "no-store");
                          (lit "Content-Disposition",
                            content_disposition H (call_width c) (call_height c)) ]
                        (SECURITY_HEADERS H);
               resp_body := Image result |}, [c])
  | None => (cors (json (lit "Failed to generate image") 500 []), [c])
  end.

(** [fetch] of the first variant.  [pickDims] is called outside any [try]:
    a TypeError of a conversion leaves the handler as an exception. *)
Definition fetch1 (H : helpers) (e : env) (request : request) : result outcome :=
  if str_eqb (method request) (lit "OPTIONS") then
    Ok (cors {| status := 204; resp_headers := []; resp_body := NoBody |}, [])
  else if negb (str_eqb (pathname request) (lit "/"))
          || negb (str_eqb (method request) (lit "POST")) then
    Ok (cors (json (lit "Method not allowed") 405
                [(lit "Allow", lit "POST, OPTIONS")]), [])
  else
    let authHeader :=
      match authorization request with Some a => a | None => [] end in
    let token := parseBearer H authHeader in
    if negb (to_boolean token) || negb (safeEqual H token (API_KEY e)) then
      Ok (cors (json (lit "Unauthorized") 401
                  [(lit "WWW-Authenticate", bearer_challenge)]), [])
    else if negb (is_json_type H (content_type request)) then
      Ok (cors (json (lit "Unsupported Media Type, expected application/json")
                  415 []), [])
    else
      match json_body request with
      | None => Ok (cors (json (lit "Invalid JSON body") 400 []), [])
      | Some body =>
          let fields := or_else body (Obj []) in
          let model := get fields (lit "model") in
          match get fields (lit "prompt") with
          | Str prompt =>
              let prompt := trim prompt in
              match prompt with
              | [] =>
                  Ok (cors (json (lit "Prompt is required (non-empty string)")
                              400 []), [])
              | _ =>
                  if (800 <? JSString.length prompt)%Z then
                    Ok (cors (json (lit "Prompt too long (max 800 chars)")
                                413 []), [])
                  else
                    let selectedModel :=
                      if set_has MODEL_WHITELIST model then model
                      else Str DEFAULT_MODEL in
                    dims <- Variant1.pickDims (sizing_of (get fields)) ;;
                    Ok (generate1 H e
                          {| call_model := selectedModel;
                             call_prompt := prompt;
                             call_width := width dims;
                             call_height := height dims |})
              end
          | _ =>
              Ok (cors (json (lit "Prompt is required (non-empty string)")
                          400 []), [])
          end
      end.

(** *** Second variant (lines 127-205) *)

(** The body of the [try] block (lines 149-199): [None] when it throws (the
    JSON parser, [.trim] on a prompt that is not a string, a conversion of
    the dimension block, the backend), together with the backend calls made
    until then. *)
Definition try_block2 (e : env) (H : helpers) (request : request)
  : option response * list ai_call :=
  if negb (is_json_type H (content_type request)) then
    (Some (cors (json (lit "Unsupported Media Type, expected application/json")
                   415 [])), [])
  else
    match json_body request with
    | None => (None, [])
    | Some body =>
        match or_else (get_opt body (lit "prompt")) (Str []) with
        | Str prompt =>
            let prompt := trim prompt in
            match prompt with
            | [] => (Some (cors (json (lit "Prompt is required") 400 [])), [])
            | _ =>
                let model :=
                  if str_eqb (typeof (get_opt body (lit "model"))) (lit "string")
                  then get_opt body (lit "model")
                  else Str DEFAULT_MODEL in
                match Variant2.resolveDims (sizing_of (get_opt body)) with
                | TypeError => (None, [])
                | Ok d =>
                    let c := {| call_model := model;
                                call_prompt := prompt;
                                call_width := width d;
                                call_height := height d |} in
                    match AI_run e c with
                    | Some result =>
                        (Some (cors
                           {| status := 200;
                              resp_headers :=
                                [ (lit "Content-Type", lit "image/png");
                                  (lit "Content-Disposition",
                                    content_disposition H (width d) (height d));
                                  (lit "Cache-Control", lit "no-store") ];
                              resp_body := Image result |}), [c])
                    | None => (None, [c])
                    end
                end
            end
        | _ => (None, [])   (* [.trim] is not a function: TypeError *)
        end
    end.

Definition fetch2 (H : helpers) (e : env) (request : request) : outcome :=
  if str_eqb (method request) (lit "OPTIONS") then
    (cors {| status := 204; resp_headers := []; resp_body := NoBody |}, [])
  else if negb (match authorization request with
                | Some auth => str_eqb auth (lit "Bearer " ++ API_KEY e)
                | None => false
                end) then
    (cors (json (lit "Unauthorized") 401 []), [])
  else if negb (str_eqb (method request) (lit "POST"))
          || negb (str_eqb (pathname request) (lit "/")) then
    (cors (json (lit "Not allowed") 405 [(lit "Allow", lit "POST, OPTIONS")]), [])
  else
    match try_block2 e H request with
    | (Some r, calls) => (r, calls)
    | (None, calls) => (cors (json (lit "Failed to generate image") 500 []), calls)
    end.

End Http.

(** ** The words of the specification

    Clamping and alignment on integers, and the long-edge rule, as the
    specification states them; the theorems below compare the code with
    them. *)
Module Spec.

Import JSNumber JSString StringToNumber JSValue JSBuiltin.
Local Open Scope Z_scope.

(** [clamp(z, 256, 2048)] on integers. *)
Definition clampZ (z : Z) : Z := Z.min 2048 (Z.max 256 z).

(** The nearest multiple of 8, ties upwards. *)
Definition align8Z (z : Z) : Z := 8 * ((z + 4) / 8).

(** A dimension as the specification wants it: an integer of [256, 2048]. *)
Definition valid_dim (n : number) : Prop :=
  exists z : Z, n = of_Z z /\ 256 <= z <= 2048.

(** A dimension of the alignment variant: moreover a multiple of 8. *)
Definition aligned_dim (n : number) : Prop :=
  exists z : Z, n = of_Z z /\ 256 <= z <= 2048 /\ (8 | z).

(** "A finite number greater than 0". *)
Definition positive_finite (n : number) : bool :=
  isFinite n && gt n (of_Z 0).

(** "An integer greater than 0". *)
Definition positive_integer (n : number) : bool :=
  isInteger n && gt n (of_Z 0).

(** A string without [:] and [/]. *)
Definition no_delim (s : jsstring) : bool :=
  forallb (fun c => negb (is_delim c)) s.

(** The long-edge rule: "if ratio >= 1 then width = longEdge and height =
    round(longEdge / ratio), else height = longEdge and width =
    round(longEdge * ratio)". *)
Definition longEdge_rule (longEdge ratio : number) : number * number :=
  if ge ratio (of_Z 1)
  then (longEdge, round (div longEdge ratio))
  else (round (mul longEdge ratio), longEdge).

(** The request's longEdge, 1024 when absent. *)
Definition longEdge_or_default (v : value) : number :=
  match v with
  | Undefined => of_Z 1024
  | _ => to_number v
  end.

(** The dimensions that the long-edge rule gives for a request, each
    normalised by [norm] (clamping, and alignment where the variant
    aligns). *)
Definition longEdge_dims (norm : number -> number) (ratio : number)
    (a : sizing) : dims :=
  let '(w, h) := longEdge_rule (longEdge_or_default (s_longEdge a)) ratio in
  {| width := norm w; height := norm h |}.

(** A request body with the given sizing fields only. *)
Definition sized (w h aspectRatio longEdge : value) : sizing :=
  {| s_width := w; s_height := h;
     s_aspectRatio := aspectRatio; s_longEdge := longEdge |}.

(** [Number] of a sample literal is the binary64 value listed with it. *)
Definition literal_agrees (p : string * PrimFloat.float) : bool :=
  eqb (string_to_number (lit (fst p))) (Binary64.of_float (snd p)).

(** The integers from [lo], [n] of them. *)
Definition Zrange (lo : Z) (n : nat) : list Z :=
  map (fun i => lo + Z.of_nat i) (seq 0 n).

(** The alignment step of [parseDim], [Math.max(8, Math.round(c / 8) * 8)],
    agrees with [align8Z] at the integer [c]. *)
Definition align_agrees (c : Z) : bool :=
  eqb (max (of_Z 8) (mul (round (div (of_Z c) (of_Z 8))) (of_Z 8)))
      (of_Z (align8Z c)).

End Spec.

(** ** Requests that pass the access gate, and sample instances *)
Module Gate.

Import JSNumber JSString JSValue Http.

(** An authenticated POST to "/" with a JSON content type and a body that
    parses to [b], for the first variant ... *)
Definition ready1 (H : helpers) (e : env) (r : request) (b : value) : Prop :=
  method r = lit "POST" /\ pathname r = lit "/" /\
  to_boolean (parseBearer H (match authorization r with
                             | Some a => a
                             | None => []
                             end)) = true /\
  safeEqual H (parseBearer H (match authorization r with
                              | Some a => a
                              | None => []
                              end)) (API_KEY e) = true /\
  is_json_type H (content_type r) = true /\
  json_body r = Some b.

(** ... and for the second. *)
Definition ready2 (H : helpers) (e : env) (r : request) (b : value) : Prop :=
  method r = lit "POST" /\ pathname r = lit "/" /\
  authorization r = Some (lit "Bearer " ++ API_KEY e) /\
  is_json_type H (content_type r) = true /\
  json_body r = Some b.

(** The model that the first variant selects. *)
Definition selected1 (model : value) : value :=
  if set_has MODEL_WHITELIST model then model else Str DEFAULT_MODEL.

(** The model that the second variant selects. *)
Definition selected2 (model : value) : value :=
  match model with
  | Str _ => model
  | _ => Str DEFAULT_MODEL
  end.

(** An instance of the helpers, to run the handlers on concrete requests:
    lower-casing of the ASCII letters, decimal rendering of a natural
    number, a bearer parser that strips the prefix "Bearer ", plain string
    comparison, and no security header. *)
Definition sample_helpers : helpers :=
  {| toLowerCase :=
       map (fun c => if (65 <=? c)%N && (c <=? 90)%N then (c + 32)%N else c);
     number_toString :=
       fun n =>
         match n with
         | Fin q => lit (NilZero.string_of_uint (N.to_uint (Z.to_N (Qfloor q))))
         | _ => lit "NaN"
         end;
     parseBearer :=
       fun h => if starts_with (lit "Bearer ") h then Str (skipn 7 h) else Null;
     safeEqual :=
       fun token key =>
         match token with
         | Str t => str_eqb t key
         | _ => false
         end;
     SECURITY_HEADERS := [] |}.

(** An environment whose secret is "secret" and whose backend returns an
    image of three bytes. *)
Definition sample_env : env :=
  {| API_KEY := lit "secret"; AI_run := fun _ => Some [137; 80; 78]%N |}.

(** An authenticated JSON POST to "/" with the given parsed body. *)
Definition sample_post (b : value) : request :=
  {| method := lit "POST";
     pathname := lit "/";
     authorization := Some (lit "Bearer secret");
     content_type := Some (lit "application/json");
     json_body := Some b |}.

End Gate.

(** ** Contracts of the answers and of the backend calls

    The predicates in which the properties of the handlers and of the
    resolvers are stated. *)
Module Contract.

Import JSNumber JSString JSValue Http Gate.
Local Open Scope Z_scope.

(** The four headers that [cors] sets (lines 219-222). *)
Definition CORS_HEADERS : headers :=
  [ (lit "Access-Control-Allow-Origin", lit "*");
    (lit "Access-Control-Allow-Methods", lit "POST, OPTIONS");
    (lit "Access-Control-Allow-Headers", lit "Authorization, Content-Type");
    (lit "Access-Control-Max-Age", lit "600") ].

(** A response that carries them. *)
Definition has_cors (r : response) : Prop :=
  forall k v, In (k, v) CORS_HEADERS -> header_get (resp_headers r) k = Some v.

(** The value that an object literal gives the key [k]: that of its last
    binding. *)
Definition last_binding (h : headers) (k : jsstring) : option jsstring :=
  header_get (rev h) k.

(** An error answer: the status [s], a body [{ error: message }] and the
    JSON content type. *)
Definition json_error (s : Z) (r : response) : Prop :=
  status r = s /\
  (exists message, resp_body r = JsonError message) /\
  header_get (resp_headers r) (lit "Content-Type") = Some (lit "application/json").



(** An integer, an infinity or -0: what [Math.round] returns for an
    argument that is not NaN. *)
Definition integral (n : number) : Prop :=
  n = NegZero \/ (exists b, n = Inf b) \/ exists z, n = of_Z z.

(** NaN, or a rational of [256, 2048]: what [clamp(v, 256, 2048)] returns. *)
Definition clamped (n : number) : Prop :=
  n = NaN \/
  exists q : Qc, n = Fin q /\ (inject_Z 256 <= q)%Q /\ (q <= inject_Z 2048)%Q.

(** +0, +Infinity or a positive rational. *)
Definition nonnegative (n : number) : Prop :=
  n = of_Z 0 \/ n = Inf false \/ exists q : Qc, n = Fin q /\ (0 < q)%Q.

(** [request.method === "OPTIONS"] *)
Definition is_options (r : request) : bool :=
  str_eqb (method r) (lit "OPTIONS").

(** A POST of "/". *)
Definition is_post_root (r : request) : bool :=
  str_eqb (method r) (lit "POST") && str_eqb (pathname r) (lit "/").

(** The bearer check of the first variant passes (lines 68-70). *)
Definition bearer_ok1 (H : helpers) (e : env) (r : request) : bool :=
  let token :=
    parseBearer H (match authorization r with Some a => a | None => [] end) in
  to_boolean token && safeEqual H token (API_KEY e).

(** The bearer check of the second variant passes (lines 138-139). *)
Definition bearer_ok2 (e : env) (r : request) : bool :=
  match authorization r with
  | Some auth => str_eqb auth (lit "Bearer " ++ API_KEY e)
  | None => false
  end.

(** A request that passes every check before the body is read. *)
Definition accepted1 (H : helpers) (e : env) (r : request) : bool :=
  negb (is_options r) && is_post_root r && bearer_ok1 H e r
  && is_json_type H (content_type r).

(** The same for the second variant, whose bearer check comes before the
    method and the path. *)
Definition accepted2 (H : helpers) (e : env) (r : request) : bool :=
  negb (is_options r) && bearer_ok2 e r && is_post_root r
  && is_json_type H (content_type r).

(** The prompt of the first variant once trimmed (lines 83-84): [None]
    when the body has no string prompt. *)
Definition prompt_of1 (b : value) : option jsstring :=
  match get (or_else b (Obj [])) (lit "prompt") with
  | Str s => Some (trim s)
  | _ => None
  end.

(** [(body?.prompt || "").trim()] (line 156): [None] when [.trim] is not a
    function. *)
Definition prompt_of2 (b : value) : option jsstring :=
  match or_else (get_opt b (lit "prompt")) (Str []) with
  | Str s => Some (trim s)
  | _ => None
  end.

(** The backend call that each variant makes for a body and a prompt. *)
Definition call_of1 (b : value) (prompt : jsstring) (d : dims) : ai_call :=
  {| call_model := selected1 (get (or_else b (Obj [])) (lit "model"));
     call_prompt := prompt;
     call_width := width d;
     call_height := height d |}.

(** The same for the second variant. *)
Definition call_of2 (b : value) (prompt : jsstring) (d : dims) : ai_call :=
  {| call_model := selected2 (get_opt b (lit "model"));
     call_prompt := prompt;
     call_width := width d;
     call_height := height d |}.

(** The kinds of answer: the preflight answer, a JSON error that is given
    before any backend call, the JSON error 500, and the image. *)
Definition answer_kind (e : env) (o : outcome) : Prop :=
  (status (fst o) = 204 /\ resp_body (fst o) = NoBody /\ snd o = []) \/
  ((exists s, In s [400; 401; 405; 413; 415] /\ json_error s (fst o)) /\
   snd o = []) \/
  (json_error 500 (fst o) /\
   (snd o = [] \/ exists c, snd o = [c] /\ AI_run e c = None)) \/
  (status (fst o) = 200 /\
   exists c img,
     snd o = [c] /\ AI_run e c = Some img /\ resp_body (fst o) = Image img).

End Contract.

(** * Properties *)

(** ** Numbers *)
Module NumberFacts.

Import JSNumber.
Local Open Scope Z_scope.

Lemma eqb_eq (x y : number) : eqb x y = true -> x = y.
Proof.
  destruct x as [| a | | p], y as [| b | | q]; simpl; try discriminate; auto.
  - intros E. apply eqb_prop in E. now subst.
  - intros E. apply Qeq_bool_iff in E. apply Qc_is_canon in E. now subst.
Qed.

Lemma this_of_Z (z : Z) : this (Q2Qc (inject_Z z)) = inject_Z z.
Proof.
  change (this (Q2Qc (inject_Z z))) with (Qred (inject_Z z)).
  apply Qred_identity. simpl. apply Z.gcd_1_r.
Qed.

Lemma of_Z_inj (a b : Z) : of_Z a = of_Z b -> a = b.
Proof.
  intros E.
  assert (E' : this (Q2Qc (inject_Z a)) = this (Q2Qc (inject_Z b)))
    by (unfold of_Z in E; congruence).
  rewrite !this_of_Z in E'. now injection E'.
Qed.

Lemma Qccompare_of_Z (a b : Z) :
  Qccompare (Q2Qc (inject_Z a)) (Q2Qc (inject_Z b)) = (a ?= b).
Proof.
  unfold Qccompare. rewrite !this_of_Z.
  unfold Qcompare, inject_Z. simpl. now rewrite !Z.mul_1_r.
Qed.

Lemma cmp_of_Z (a b : Z) : cmp (of_Z a) (of_Z b) = Some (a ?= b).
Proof. unfold cmp, of_Z. now rewrite Qccompare_of_Z. Qed.

Lemma gt_of_Z (a b : Z) : gt (of_Z a) (of_Z b) = (b <? a).
Proof.
  unfold gt. rewrite cmp_of_Z. rewrite Z.ltb_compare, (Z.compare_antisym a b).
  now destruct (a ?= b).
Qed.

Lemma ge_of_Z (a b : Z) : ge (of_Z a) (of_Z b) = (b <=? a).
Proof.
  unfold ge. rewrite cmp_of_Z. rewrite Z.leb_compare, (Z.compare_antisym a b).
  now destruct (a ?= b).
Qed.

Lemma le_of_Z (a b : Z) : le (of_Z a) (of_Z b) = (a <=? b).
Proof.
  unfold le. rewrite cmp_of_Z. rewrite Z.leb_compare.
  now destruct (a ?= b).
Qed.

Lemma max_of_Z (a b : Z) : max (of_Z a) (of_Z b) = of_Z (Z.max a b).
Proof.
  unfold max. rewrite cmp_of_Z. unfold Z.max.
  now destruct (a ?= b).
Qed.

Lemma min_of_Z (a b : Z) : min (of_Z a) (of_Z b) = of_Z (Z.min a b).
Proof.
  unfold min. rewrite cmp_of_Z. unfold Z.min.
  destruct (a ?= b) eqn:E; simpl; try reflexivity.
  apply Z.compare_eq in E. now subst.
Qed.

Lemma isFinite_of_Z (z : Z) : isFinite (of_Z z) = true.
Proof. reflexivity. Qed.

Lemma truthy_of_Z (z : Z) : truthy (of_Z z) = negb (z =? 0).
Proof.
  unfold truthy, of_Z. rewrite this_of_Z. f_equal.
  unfold Qeq_bool, inject_Z. simpl. now rewrite Z.mul_1_r.
Qed.

Lemma Qfloor_unique (q : Q) (z : Z) :
  (inject_Z z <= q)%Q -> (q < inject_Z (z + 1))%Q -> Qfloor q = z.
Proof.
  intros Hlo Hhi.
  pose proof (Qfloor_le q) as H1. pose proof (Qlt_floor q) as H2.
  assert (A : (inject_Z (Qfloor q) < inject_Z (z + 1))%Q)
    by (eapply Qle_lt_trans; eassumption).
  assert (B : (inject_Z z < inject_Z (Qfloor q + 1))%Q)
    by (eapply Qle_lt_trans; eassumption).
  rewrite <- Zlt_Qlt in A, B. lia.
Qed.

Lemma Qltb_false_nonneg (q : Q) : (0 <= q)%Q -> Qltb q 0 = false.
Proof.
  intros H. unfold Qltb. apply negb_false_iff. now apply Qle_bool_iff.
Qed.

Lemma round_of_Z (z : Z) : round (of_Z z) = of_Z z.
Proof.
  unfold round, of_Z at 1. rewrite this_of_Z.
  assert (F : Qfloor (inject_Z z + (1 # 2)) = z).
  { apply Qfloor_unique.
    - rewrite <- (Qplus_0_r (inject_Z z)) at 1. apply Qplus_le_r. discriminate.
    - rewrite inject_Z_plus. apply Qplus_lt_r. reflexivity. }
  rewrite F. destruct (Z.eqb_spec z 0) as [->|]; simpl; auto.
Qed.

Lemma cmp_Fin_0 (q : Qc) : cmp (Fin q) (of_Z 0) = Some (Qcompare q 0).
Proof. reflexivity. Qed.

(** A finite number that is not [<= 0] is a positive rational. *)
Lemma finite_positive (n : number) :
  isFinite n = true -> le n (of_Z 0) = false ->
  exists q : Qc, n = Fin q /\ (0 < q)%Q.
Proof.
  destruct n as [| s | | q]; simpl; try discriminate.
  intros _ H. exists q. split; [reflexivity|].
  unfold le in H. rewrite cmp_Fin_0 in H.
  destruct (Qcompare q 0) eqn:E; try discriminate.
  now rewrite <- Qgt_alt in E.
Qed.

Lemma gt_0_positive (q : Qc) : gt (Fin q) (of_Z 0) = true <-> (0 < q)%Q.
Proof.
  unfold gt. rewrite cmp_Fin_0. rewrite Qgt_alt.
  destruct (Qcompare q 0); split; congruence.
Qed.

(** [Math.round] of a positive number is a natural number. *)
Lemma round_positive (q : Qc) :
  (0 < q)%Q ->
  round (Fin q) = of_Z (Qfloor (q + (1 # 2))) /\ 0 <= Qfloor (q + (1 # 2)).
Proof.
  intros H. unfold round.
  rewrite Qltb_false_nonneg by now apply Qlt_le_weak.
  rewrite andb_false_r. split; [reflexivity|].
  change 0 with (Qfloor (inject_Z 0)).
  apply Qfloor_resp_le. change (inject_Z 0) with 0%Q. lra.
Qed.

(** A number that [Number.isInteger] accepts and that is [> 0] is a
    positive integer. *)
Lemma positive_integer_of_Z (n : number) :
  Spec.positive_integer n = true -> exists z : Z, n = of_Z z /\ 0 < z.
Proof.
  unfold Spec.positive_integer. intros H. apply andb_prop in H as [I G].
  destruct n as [| s | | q]; simpl in I; try discriminate.
  apply Qeq_bool_iff in I. exists (Qfloor q). split.
  - unfold of_Z. f_equal. apply Qc_is_canon.
    change (this (Q2Qc (inject_Z (Qfloor q)))) with (Qred (inject_Z (Qfloor q))).
    rewrite Qred_correct. now symmetry.
  - apply gt_0_positive in G. rewrite <- I in G.
    change 0%Q with (inject_Z 0) in G. now rewrite <- Zlt_Qlt in G.
Qed.

Lemma isInteger_of_Z (z : Z) : isInteger (of_Z z) = true.
Proof.
  unfold isInteger, of_Z. rewrite this_of_Z, Qfloor_Z. apply Qeq_bool_refl.
Qed.

Lemma positive_integer_of_Z_iff (z : Z) :
  Spec.positive_integer (of_Z z) = (0 <? z).
Proof. unfold Spec.positive_integer. now rewrite isInteger_of_Z, gt_of_Z. Qed.

Lemma In_Zrange (lo : Z) (n : nat) (z : Z) :
  lo <= z < lo + Z.of_nat n -> In z (Spec.Zrange lo n).
Proof.
  intros H. unfold Spec.Zrange. apply in_map_iff.
  exists (Z.to_nat (z - lo)). split; [lia|]. apply in_seq. lia.
Qed.

Lemma align_agrees_all :
  forallb Spec.align_agrees (Spec.Zrange 256 1793) = true.
Proof. vm_compute. reflexivity. Qed.

(** On the integers of [256, 2048] the alignment step of [parseDim]
    computes [align8Z]: the division by 8 and the product by 8 are exact. *)
Lemma align_step (c : Z) :
  256 <= c <= 2048 ->
  max (of_Z 8) (mul (round (div (of_Z c) (of_Z 8))) (of_Z 8))
  = of_Z (Spec.align8Z c).
Proof.
  intros H. apply eqb_eq.
  pose proof align_agrees_all as A. rewrite forallb_forall in A.
  apply (A c). apply In_Zrange. lia.
Qed.

End NumberFacts.

(** ** The number model agrees with the machine on the samples *)
Module Binary64Facts.

Lemma div_matches_binary64 :
  forallb Binary64.div_agrees Binary64.sample_pairs = true.
Proof. vm_compute. reflexivity. Qed.

Lemma mul_matches_binary64 :
  forallb Binary64.mul_agrees Binary64.sample_pairs = true.
Proof. vm_compute. reflexivity. Qed.

Lemma literals_match_binary64 :
  forallb Spec.literal_agrees Binary64.literals = true.
Proof. vm_compute. reflexivity. Qed.

End Binary64Facts.

(** ** Strings: [trim], [split], [includes] *)
Module StringFacts.

Import JSNumber JSString StringToNumber JSBuiltin.

Lemma delim_not_white (d : N) : is_delim d = true -> is_white d = false.
Proof.
  unfold is_delim. intros H. apply orb_prop in H as [H | H];
    apply N.eqb_eq in H; subst; reflexivity.
Qed.

Lemma trim_start_app (c : N) (x y : jsstring) :
  is_white c = false -> trim_start (x ++ c :: y) = trim_start x ++ c :: y.
Proof.
  intros Hc. induction x as [| a x IH]; simpl.
  - now rewrite Hc.
  - destruct (is_white a); auto.
Qed.

Lemma trim_end_app (c : N) (x y : jsstring) :
  is_white c = false -> trim_end (x ++ c :: y) = x ++ c :: trim_end y.
Proof.
  intros Hc. unfold trim_end.
  rewrite rev_app_distr. simpl. rewrite <- app_assoc. simpl.
  rewrite trim_start_app by assumption.
  rewrite rev_app_distr. simpl. rewrite rev_involutive.
  now rewrite <- app_assoc.
Qed.

Lemma white_or_split (s : jsstring) :
  forallb is_white s = true \/
  exists x c y, s = x ++ c :: y /\ is_white c = false.
Proof.
  induction s as [| a s IH]; simpl; [now left|].
  destruct (is_white a) eqn:E.
  - destruct IH as [IH | (x & c & y & -> & Hc)]; [now left|].
    right. now exists (a :: x), c, y.
  - right. now exists [], a, s.
Qed.

Lemma trim_start_white (s : jsstring) :
  forallb is_white s = true -> trim_start s = [].
Proof.
  induction s as [| a s IH]; simpl; [reflexivity|].
  intros H. apply andb_prop in H as [-> H]. auto.
Qed.

Lemma forallb_rev (A : Type) (p : A -> bool) (l : list A) :
  forallb p (rev l) = forallb p l.
Proof.
  induction l as [| a l IH]; simpl; [reflexivity|].
  rewrite forallb_app, IH. simpl. rewrite andb_true_r. apply andb_comm.
Qed.

Lemma trim_end_white (s : jsstring) :
  forallb is_white s = true -> trim_end s = [].
Proof.
  intros H. unfold trim_end. rewrite trim_start_white; [reflexivity|].
  now rewrite forallb_rev.
Qed.

Lemma trim_start_idem (s : jsstring) : trim_start (trim_start s) = trim_start s.
Proof.
  induction s as [| a s IH]; simpl; [reflexivity|].
  destruct (is_white a) eqn:E; [assumption|]. simpl. now rewrite E.
Qed.

Lemma trim_end_idem (s : jsstring) : trim_end (trim_end s) = trim_end s.
Proof. unfold trim_end. now rewrite rev_involutive, trim_start_idem. Qed.

Lemma trim_start_end (s : jsstring) :
  trim_start (trim_end s) = trim_end (trim_start s).
Proof.
  destruct (white_or_split s) as [W | (x & c & y & -> & Hc)].
  - rewrite (trim_end_white _ W), (trim_start_white _ W). reflexivity.
  - rewrite trim_end_app, !trim_start_app, trim_end_app by assumption.
    reflexivity.
Qed.

Lemma trim_idem (s : jsstring) : trim (trim s) = trim s.
Proof.
  unfold trim. now rewrite trim_start_end, trim_start_idem, trim_end_idem.
Qed.

Lemma trim_of_trim_start (s : jsstring) : trim (trim_start s) = trim s.
Proof. unfold trim. now rewrite trim_start_idem. Qed.

Lemma trim_of_trim_end (s : jsstring) : trim (trim_end s) = trim s.
Proof. unfold trim. now rewrite trim_start_end, trim_end_idem. Qed.

(** [Number] strips white space itself: trimming first changes nothing. *)
Lemma number_of_trim (s : jsstring) :
  string_to_number (trim s) = string_to_number s.
Proof. unfold string_to_number. now rewrite trim_idem. Qed.

Lemma number_of_trim_start (s : jsstring) :
  string_to_number (trim_start s) = string_to_number s.
Proof. unfold string_to_number. now rewrite trim_of_trim_start. Qed.

Lemma number_of_trim_end (s : jsstring) :
  string_to_number (trim_end s) = string_to_number s.
Proof. unfold string_to_number. now rewrite trim_of_trim_end. Qed.

Lemma forallb_trim_start (p : N -> bool) (s : jsstring) :
  forallb p s = true -> forallb p (trim_start s) = true.
Proof.
  induction s as [| a s IH]; simpl; [reflexivity|].
  intros H. destruct (is_white a); [|assumption].
  apply andb_prop in H as [_ H]. auto.
Qed.

Lemma forallb_trim_end (p : N -> bool) (s : jsstring) :
  forallb p s = true -> forallb p (trim_end s) = true.
Proof.
  intros H. unfold trim_end. rewrite forallb_rev.
  apply forallb_trim_start. now rewrite forallb_rev.
Qed.

Lemma split_not_nil (d : N -> bool) (s : jsstring) : split d s <> [].
Proof.
  destruct s as [| c s]; simpl; [discriminate|].
  destruct (d c); [discriminate|]. destruct (split d s); discriminate.
Qed.

Lemma split_whole (d : N -> bool) (s : jsstring) :
  forallb (fun c => negb (d c)) s = true -> split d s = [s].
Proof.
  induction s as [| c s IH]; simpl; [reflexivity|].
  intros H. apply andb_prop in H as [Hc H].
  apply negb_true_iff in Hc. rewrite Hc, (IH H). reflexivity.
Qed.

Lemma split_app (d : N -> bool) (x : jsstring) (c : N) (y : jsstring) :
  forallb (fun c => negb (d c)) x = true -> d c = true ->
  split d (x ++ c :: y) = x :: split d y.
Proof.
  intros Hx Hc. induction x as [| a x IH]; simpl.
  - now rewrite Hc.
  - simpl in Hx. apply andb_prop in Hx as [Ha Hx].
    apply negb_true_iff in Ha. rewrite Ha, (IH Hx). reflexivity.
Qed.

Lemma includes_single (c : N) (s : jsstring) :
  includes [c] s = existsb (N.eqb c) s.
Proof.
  induction s as [| b s IH]; simpl; [reflexivity|].
  now rewrite andb_true_r, IH.
Qed.

(** The test [s.includes(":") || s.includes("/")]. *)
Lemma includes_delim (s : jsstring) :
  includes (lit ":") s || includes (lit "/") s = existsb is_delim s.
Proof.
  change (lit ":") with [58%N]. change (lit "/") with [47%N].
  rewrite !includes_single. induction s as [| b s IH]; [reflexivity|].
  cbn [existsb]. rewrite <- IH. unfold is_delim.
  rewrite (N.eqb_sym b 58), (N.eqb_sym b 47).
  generalize (58 =? b)%N (47 =? b)%N (existsb (N.eqb 58) s)
    (existsb (N.eqb 47) s).
  intros [] [] [] []; reflexivity.
Qed.

Lemma existsb_delim_app (x : jsstring) (d : N) (y : jsstring) :
  is_delim d = true -> existsb is_delim (x ++ d :: y) = true.
Proof.
  intros H. rewrite existsb_app. simpl. rewrite H. apply orb_true_r.
Qed.

Lemma existsb_no_delim (s : jsstring) :
  Spec.no_delim s = true -> existsb is_delim s = false.
Proof.
  unfold Spec.no_delim. induction s as [| c s IH]; simpl; [reflexivity|].
  intros H. apply andb_prop in H as [Hc H].
  apply negb_true_iff in Hc. now rewrite Hc, IH.
Qed.

End StringFacts.

(** ** [parseAspectRatio] *)
Module AspectRatio.

Import JSNumber JSString StringToNumber JSValue JSBuiltin Spec StringFacts.

Lemma variants_agree (v : value) :
  Variant2.parseAspectRatio2 v = Variant1.parseAspectRatio1 v.
Proof. reflexivity. Qed.

Lemma parse_unfold (ar : jsstring) :
  trim ar <> [] ->
  Variant1.parseAspectRatio1 (Str ar) =
  let s := trim ar in
  if existsb is_delim s then
    let parts := map string_to_number (split is_delim s) in
    let a := index parts 0 in
    let b := index parts 1 in
    if Number_isFinite a && Number_isFinite b
       && gt (to_number a) (of_Z 0) && gt (to_number b) (of_Z 0)
    then Some (div (to_number a) (to_number b))
    else None
  else
    let n := string_to_number s in
    if isFinite n && gt n (of_Z 0) then Some n else None.
Proof.
  intros H. unfold Variant1.parseAspectRatio1.
  rewrite includes_delim. destruct (trim ar); [contradiction | reflexivity].
Qed.

Lemma parse_blank (ar : jsstring) :
  trim ar = [] -> Variant1.parseAspectRatio1 (Str ar) = None.
Proof. intros H. unfold Variant1.parseAspectRatio1. now rewrite H. Qed.

(** A string with a delimiter after a delimiter-free first component [a]:
    the ratio is computed from [a] and from the first component [b] of what
    follows the delimiter. *)
Lemma parse_split (a : jsstring) (d : N) (t b : jsstring) (more : list jsstring) :
  no_delim a = true -> is_delim d = true ->
  split is_delim (trim_end t) = b :: more ->
  Variant1.parseAspectRatio1 (Str (a ++ d :: t)) =
  if positive_finite (string_to_number a) && positive_finite (string_to_number b)
  then Some (div (string_to_number a) (string_to_number b))
  else None.
Proof.
  intros Ha Hd Ht.
  assert (W : is_white d = false) by now apply delim_not_white.
  assert (T : trim (a ++ d :: t) = trim_start a ++ d :: trim_end t).
  { unfold trim. now rewrite trim_start_app, trim_end_app. }
  rewrite parse_unfold by (rewrite T; apply not_eq_sym, app_cons_not_nil).
  cbv zeta. rewrite T, existsb_delim_app by assumption.
  rewrite split_app by (try apply forallb_trim_start; assumption).
  rewrite Ht. cbn [map index nth_error to_number Number_isFinite].
  rewrite number_of_trim_start. unfold positive_finite.
  destruct (isFinite (string_to_number a)), (isFinite (string_to_number b)),
    (gt (string_to_number a) (of_Z 0)), (gt (string_to_number b) (of_Z 0));
    reflexivity.
Qed.

Lemma parse_two_parts (a : jsstring) (d : N) (b : jsstring) :
  no_delim a = true -> no_delim b = true -> is_delim d = true ->
  Variant1.parseAspectRatio1 (Str (a ++ d :: b)) =
  if positive_finite (string_to_number a) && positive_finite (string_to_number b)
  then Some (div (string_to_number a) (string_to_number b))
  else None.
Proof.
  intros Ha Hb Hd.
  rewrite (@parse_split a d b (trim_end b) []); auto.
  - now rewrite number_of_trim_end.
  - apply split_whole. now apply forallb_trim_end.
Qed.

Lemma parse_many_parts (a : jsstring) (d1 : N) (b : jsstring) (d2 : N)
    (rest : jsstring) :
  no_delim a = true -> no_delim b = true ->
  is_delim d1 = true -> is_delim d2 = true ->
  Variant1.parseAspectRatio1 (Str (a ++ d1 :: b ++ d2 :: rest)) =
  if positive_finite (string_to_number a) && positive_finite (string_to_number b)
  then Some (div (string_to_number a) (string_to_number b))
  else None.
Proof.
  intros Ha Hb Hd1 Hd2.
  apply (@parse_split a d1 (b ++ d2 :: rest) b
           (split is_delim (trim_end rest))); auto.
  rewrite trim_end_app by now apply delim_not_white.
  now apply split_app.
Qed.

Lemma parse_plain (s : jsstring) :
  no_delim s = true ->
  Variant1.parseAspectRatio1 (Str s) =
  if positive_finite (string_to_number s) then Some (string_to_number s)
  else None.
Proof.
  intros Hs. destruct (trim s) as [| c s'] eqn:E.
  - rewrite parse_blank by assumption.
    unfold string_to_number. now rewrite E.
  - rewrite parse_unfold by (rewrite E; discriminate). cbv zeta.
    rewrite existsb_no_delim
      by (unfold trim; apply forallb_trim_end, forallb_trim_start, Hs).
    now rewrite number_of_trim.
Qed.

Lemma parse_not_string (v : value) :
  (forall s, v <> Str s) -> Variant1.parseAspectRatio1 v = None.
Proof.
  intros H. destruct v as [| | | | s | |]; try reflexivity.
  exfalso. exact (H s eq_refl).
Qed.

Lemma ratio_fallback (v : value) :
  Variant1.parseAspectRatio1 v = None ->
  Variant1.ratio1 v = of_Z 1 /\ Variant2.ratio2 v = of_Z 1.
Proof.
  intros H. unfold Variant1.ratio1, Variant2.ratio2.
  change (Variant2.parseAspectRatio2 v) with (Variant1.parseAspectRatio1 v).
  rewrite H. now split.
Qed.

(** Whenever [parseAspectRatio] returns a ratio, its argument is a string
    whose whole (without delimiter) or whose first two components are finite
    numbers greater than 0. *)
Lemma parse_Some (v : value) (r : number) :
  Variant1.parseAspectRatio1 v = Some r ->
  exists s,
    v = Str s /\
    ((existsb is_delim (trim s) = false /\
      positive_finite (string_to_number s) = true /\
      r = string_to_number s) \/
     (exists a b more,
         split is_delim (trim s) = a :: b :: more /\
         positive_finite (string_to_number a) = true /\
         positive_finite (string_to_number b) = true /\
         r = div (string_to_number a) (string_to_number b))).
Proof.
  intros H. destruct v as [| | | | s | |]; try discriminate H.
  exists s. split; [reflexivity|].
  destruct (trim s) as [| c t] eqn:T.
  { rewrite parse_blank in H by assumption. discriminate H. }
  rewrite parse_unfold in H by (rewrite T; discriminate). cbv zeta in H.
  rewrite <- T. clear T.
  destruct (existsb is_delim (trim s)) eqn:D.
  - right. destruct (split is_delim (trim s)) as [| a [| b more]];
      cbn [map index nth_error to_number Number_isFinite andb] in H;
      try discriminate H.
    { destruct (isFinite (string_to_number a)); discriminate H. }
    exists a, b, more. split; [reflexivity|]. unfold positive_finite.
    destruct (isFinite (string_to_number a)), (isFinite (string_to_number b)),
      (gt (string_to_number a) (of_Z 0)), (gt (string_to_number b) (of_Z 0));
      cbn [andb] in H; try discriminate H.
    injection H as <-. repeat split.
  - left. rewrite number_of_trim in H. split; [reflexivity|].
    unfold positive_finite.
    destruct (isFinite (string_to_number s) && gt (string_to_number s) (of_Z 0));
      [|discriminate H].
    injection H as <-. split; reflexivity.
Qed.

(** C5. [parseAspectRatio] (the same function in both variants) returns
    [a / b] for a string "a:b" or "a/b" whose two parts convert to finite
    numbers greater than 0, and [null] when a part does not; it returns [n]
    for a string without delimiter that converts to a finite number
    [n > 0], and [null] when it does not; it returns [null] for a value
    that is not a string and for an empty or blank string; it returns a
    ratio for no other input than a string whose whole, or whose first two
    components, are finite numbers greater than 0.  Where it returns [null]
    both resolvers take the ratio 1. *)
Theorem C5_parseAspectRatio :
  (forall v, Variant2.parseAspectRatio2 v = Variant1.parseAspectRatio1 v) /\
  (forall a d b,
      no_delim a = true -> no_delim b = true -> is_delim d = true ->
      Variant1.parseAspectRatio1 (Str (a ++ d :: b)) =
      if positive_finite (string_to_number a)
         && positive_finite (string_to_number b)
      then Some (div (string_to_number a) (string_to_number b))
      else None) /\
  (forall s,
      no_delim s = true ->
      Variant1.parseAspectRatio1 (Str s) =
      if positive_finite (string_to_number s) then Some (string_to_number s)
      else None) /\
  (forall v, (forall s, v <> Str s) -> Variant1.parseAspectRatio1 v = None) /\
  (forall s, trim s = [] -> Variant1.parseAspectRatio1 (Str s) = None) /\
  (forall v r,
      Variant1.parseAspectRatio1 v = Some r ->
      exists s,
        v = Str s /\
        ((existsb is_delim (trim s) = false /\
          positive_finite (string_to_number s) = true /\
          r = string_to_number s) \/
         (exists a b more,
             split is_delim (trim s) = a :: b :: more /\
             positive_finite (string_to_number a) = true /\
             positive_finite (string_to_number b) = true /\
             r = div (string_to_number a) (string_to_number b)))) /\
  (forall v,
      Variant1.parseAspectRatio1 v = None ->
      Variant1.ratio1 v = of_Z 1 /\ Variant2.ratio2 v = of_Z 1).
Proof.
  split; [reflexivity|]. split; [exact parse_two_parts|].
  split; [exact parse_plain|]. split; [exact parse_not_string|].
  split; [exact parse_blank|]. split; [exact parse_Some|].
  exact ratio_fallback.
Qed.

(** C10. With more than one delimiter only the first two components count:
    for delimiter-free [a] and [b] and anything after the second delimiter,
    the result is [a / b] when both convert to finite numbers greater than
    0 (and [null] when one does not), in both variants; "16:9:4" is read as
    "16:9". *)
Theorem C10_first_two_components :
  (forall a d1 b d2 rest,
      no_delim a = true -> no_delim b = true ->
      is_delim d1 = true -> is_delim d2 = true ->
      let r := if positive_finite (string_to_number a)
                  && positive_finite (string_to_number b)
               then Some (div (string_to_number a) (string_to_number b))
               else None in
      Variant1.parseAspectRatio1 (Str (a ++ d1 :: b ++ d2 :: rest)) = r /\
      Variant2.parseAspectRatio2 (Str (a ++ d1 :: b ++ d2 :: rest)) = r) /\
  Variant1.parseAspectRatio1 (Str (lit "16:9:4"))
  = Some (div (of_Z 16) (of_Z 9)) /\
  Variant1.parseAspectRatio1 (Str (lit "16:9:4"))
  = Variant1.parseAspectRatio1 (Str (lit "16:9")).
Proof.
  split; [|split].
  - intros a d1 b d2 rest Ha Hb H1 H2 r.
    change (Variant2.parseAspectRatio2 ?x) with (Variant1.parseAspectRatio1 x).
    split; now apply parse_many_parts.
  - change (lit "16:9:4") with (lit "16" ++ 58%N :: lit "9" ++ 58%N :: lit "4").
    now rewrite parse_many_parts.
  - change (lit "16:9:4") with (lit "16" ++ 58%N :: lit "9" ++ 58%N :: lit "4").
    change (lit "16:9") with (lit "16" ++ 58%N :: lit "9").
    now rewrite parse_many_parts, parse_two_parts.
Qed.

End AspectRatio.

(** ** Conversions: when they raise, and what they return when they do not *)
Module Conversion.

Import JSNumber JSString StringToNumber JSValue JSBuiltin Spec StringFacts.

Lemma ToNumber_Ok (v : value) :
  unconvertible v = false -> ToNumber v = Ok (to_number v).
Proof. intros H. unfold ToNumber. now rewrite H. Qed.

Lemma ToNumber_raises (v : value) :
  unconvertible v = true -> ToNumber v = TypeError.
Proof. intros H. unfold ToNumber. now rewrite H. Qed.

(** What cannot be converted is an array or an object, hence truthy. *)
Lemma unconvertible_truthy (v : value) :
  unconvertible v = true -> to_boolean v = true.
Proof. destruct v; simpl; congruence. Qed.

Lemma unconvertible_or_else (v : value) (d : number) :
  unconvertible (or_else v (Num d)) = unconvertible v.
Proof.
  unfold or_else. destruct (to_boolean v) eqn:T; [reflexivity|].
  destruct (unconvertible v) eqn:U; [|reflexivity].
  apply unconvertible_truthy in U. congruence.
Qed.

Lemma unconvertible_longEdge_param (v : value) :
  unconvertible (Variant1.longEdge_param v) = unconvertible v.
Proof. now destruct v. Qed.

Lemma clamp_eq (n : value) (lo hi : number) :
  Variant1.clamp n lo hi =
  if unconvertible n then TypeError else Ok (Value.clamp_v n lo hi).
Proof. unfold Variant1.clamp, ToNumber. now destruct (unconvertible n). Qed.

Lemma finalize1_eq (v : value) (d : number) :
  Variant1.finalize1 v d =
  if unconvertible v then TypeError else Ok (Value.finalize1_v v d).
Proof.
  unfold Variant1.finalize1. rewrite clamp_eq, unconvertible_or_else.
  reflexivity.
Qed.

Lemma derive1_eq (w h ar : number) (longEdge : value) :
  unconvertible longEdge = false ->
  Variant1.derive1 w h ar longEdge = Ok (Value.derive1_v w h ar longEdge).
Proof.
  intros U. unfold Variant1.derive1, Value.derive1_v.
  rewrite (ToNumber_Ok _ U). cbn [bind].
  repeat match goal with
         | |- context [if ?c then _ else _] => destruct c
         end; reflexivity.
Qed.

(** In the branches that derive from width or from height, longEdge is not
    converted. *)
Lemma derive1_from_side (w h ar : number) (longEdge : value) :
  positive_integer w || positive_integer h = true ->
  Variant1.derive1 w h ar longEdge = Ok (Value.derive1_v w h ar longEdge) /\
  unconvertible (fst (Value.derive1_v w h ar longEdge)) = false /\
  unconvertible (snd (Value.derive1_v w h ar longEdge)) = false.
Proof.
  unfold Variant1.derive1, Value.derive1_v, positive_integer.
  destruct (isInteger w && gt w (of_Z 0)); [now repeat split|].
  destruct (isInteger h && gt h (of_Z 0)); [now repeat split|].
  discriminate.
Qed.

Lemma derive1_v_convertible (w h ar : number) (longEdge : value) :
  unconvertible longEdge = false ->
  unconvertible (fst (Value.derive1_v w h ar longEdge)) = false /\
  unconvertible (snd (Value.derive1_v w h ar longEdge)) = false.
Proof.
  intros U. unfold Value.derive1_v.
  repeat match goal with
         | |- context [if ?c then _ else _] => destruct c
         end; cbn [fst snd unconvertible]; now split.
Qed.

Lemma derive1_raises (w h ar : number) (longEdge : value) :
  positive_integer w || positive_integer h = false ->
  truthy ar = true ->
  unconvertible longEdge = true ->
  Variant1.derive1 w h ar longEdge = TypeError.
Proof.
  intros P T U. unfold Variant1.derive1.
  apply orb_false_elim in P as [Pw Ph]. unfold positive_integer in Pw, Ph.
  rewrite Pw, Ph, T, (ToNumber_raises _ U). now destruct (ge ar (of_Z 1)).
Qed.

Lemma ratio1_truthy (v : value) : truthy (Variant1.ratio1 v) = true.
Proof.
  unfold Variant1.ratio1. destruct (Variant1.parseAspectRatio1 v) as [r|].
  - destruct (truthy r) eqn:E; [assumption | reflexivity].
  - reflexivity.
Qed.

(** [pickDims] raises exactly when [pickDims_raises] says so, and otherwise
    returns [pickDims_v]. *)
Lemma pickDims_eq (a : sizing) :
  Variant1.pickDims a =
  if Value.pickDims_raises a then TypeError else Ok (Value.pickDims_v a).
Proof.
  unfold Variant1.pickDims, Value.pickDims_raises, Value.pickDims_v.
  cbv zeta. unfold ToNumber at 1 2.
  destruct (unconvertible (s_width a)); [reflexivity|].
  destruct (unconvertible (s_height a)); [reflexivity|].
  cbn [bind orb].
  set (w := to_number (s_width a)). set (h := to_number (s_height a)).
  fold (positive_integer w). fold (positive_integer h).
  assert (X : isInteger w && isInteger h && gt w (of_Z 0) && gt h (of_Z 0)
              = positive_integer w && positive_integer h).
  { unfold positive_integer.
    destruct (isInteger w), (isInteger h), (gt w (of_Z 0)), (gt h (of_Z 0));
      reflexivity. }
  rewrite X.
  destruct (positive_integer w) eqn:Pw; destruct (positive_integer h) eqn:Ph;
    cbn [andb negb].
  - rewrite !clamp_eq. reflexivity.
  - destruct (@derive1_from_side w h (Variant1.ratio1 (s_aspectRatio a))
                (Variant1.longEdge_param (s_longEdge a))) as (-> & U1 & U2);
      [now rewrite Pw|].
    cbn [bind]. rewrite !finalize1_eq, U1, U2. reflexivity.
  - destruct (@derive1_from_side w h (Variant1.ratio1 (s_aspectRatio a))
                (Variant1.longEdge_param (s_longEdge a))) as (-> & U1 & U2);
      [now rewrite Pw, Ph|].
    cbn [bind]. rewrite !finalize1_eq, U1, U2. reflexivity.
  - destruct (unconvertible (s_longEdge a)) eqn:U.
    + rewrite derive1_raises; try reflexivity.
      * now rewrite Pw, Ph.
      * apply ratio1_truthy.
      * now rewrite unconvertible_longEdge_param.
    + rewrite derive1_eq by now rewrite unconvertible_longEdge_param.
      cbn [bind].
      destruct (@derive1_v_convertible w h (Variant1.ratio1 (s_aspectRatio a))
                  (Variant1.longEdge_param (s_longEdge a))) as [U1 U2];
        [now rewrite unconvertible_longEdge_param|].
      rewrite !finalize1_eq, U1, U2. reflexivity.
Qed.

(** [parseDim] raises exactly on what cannot be converted, and otherwise
    returns [parseDim_v]. *)
Lemma parseDim_eq (v : value) :
  Variant2.parseDim v =
  if unconvertible v then TypeError else Ok (Value.parseDim_v v).
Proof.
  unfold Variant2.parseDim, Variant2.parseDim_with, Value.parseDim_v, ToNumber.
  destruct v as [| | b | n | s | l | f]; try reflexivity.
  - cbn [bind unconvertible to_number]. now rewrite number_of_trim.
  - now destruct (unconvertible (Arr l)).
  - now destruct (unconvertible (Obj f)).
Qed.

Lemma parseDim_Num (n : number) :
  Variant2.parseDim (Num n) = Ok (Value.parseDim_v (Num n)).
Proof. now rewrite parseDim_eq. Qed.

Lemma longEdge_of_eq (v : value) :
  Variant2.longEdge_of v =
  if unconvertible v then TypeError else Ok (Value.longEdge_v v).
Proof.
  unfold Variant2.longEdge_of, Value.longEdge_v. rewrite parseDim_eq.
  now destruct (unconvertible v).
Qed.

Lemma derive2_eq (w h : option number) (ar longEdge : number) :
  Variant2.derive2 w h ar longEdge = Ok (Value.derive2_v w h ar longEdge).
Proof.
  unfold Variant2.derive2, Value.derive2_v. rewrite !parseDim_Num.
  repeat match goal with
         | |- context [if ?c then _ else _] => destruct c
         end; reflexivity.
Qed.

(** The dimension block raises exactly when one of width, height and
    longEdge cannot be converted, and otherwise returns [resolveDims_v]. *)
Lemma resolveDims_eq (a : sizing) :
  Variant2.resolveDims a =
  if Value.resolveDims_raises a then TypeError else Ok (Value.resolveDims_v a).
Proof.
  unfold Variant2.resolveDims, Value.resolveDims_raises, Value.resolveDims_v.
  rewrite !parseDim_eq, longEdge_of_eq.
  destruct (unconvertible (s_width a)); [reflexivity|].
  destruct (unconvertible (s_height a)); [reflexivity|].
  destruct (unconvertible (s_longEdge a)); [reflexivity|].
  cbn [bind orb]. rewrite derive2_eq. reflexivity.
Qed.

End Conversion.

(** ** [parseDim] and the dimension block, when no conversion raises *)
Module DimFacts.

Import JSNumber JSString StringToNumber JSValue JSBuiltin Spec.
Import NumberFacts StringFacts.
Local Open Scope Z_scope.

Lemma dims_eq (d : dims) (w h : number) :
  eqb (width d) w = true -> eqb (height d) h = true ->
  d = {| width := w; height := h |}.
Proof.
  destruct d as [w' h']. simpl. intros Hw Hh.
  apply eqb_eq in Hw, Hh. now subst.
Qed.

Lemma clampZ_range (z : Z) : 256 <= clampZ z <= 2048.
Proof. unfold clampZ. lia. Qed.

Lemma clampZ_id (z : Z) : 256 <= z <= 2048 -> clampZ z = z.
Proof. unfold clampZ. lia. Qed.

Lemma align8Z_range (c : Z) :
  256 <= c <= 2048 -> 256 <= align8Z c <= 2048 /\ (8 | align8Z c).
Proof.
  intros H. unfold align8Z. split.
  - Z.div_mod_to_equations. lia.
  - exists ((c + 4) / 8). lia.
Qed.

Lemma align8Z_id (z : Z) : (8 | z) -> align8Z z = z.
Proof.
  intros [k ->]. unfold align8Z.
  replace (k * 8 + 4) with (4 + k * 8) by lia.
  rewrite Z.div_add by lia. change (4 / 8) with 0. lia.
Qed.

(** [parseDim_v] spelled out, on the number read from its argument. *)
Lemma parseDim_unfold (v : value) :
  v <> Undefined -> v <> Null ->
  Value.parseDim_v v =
  let n := match v with
           | Str s => string_to_number s
           | _ => to_number v
           end in
  if isFinite n && negb (le n (of_Z 0))
  then Some (max (of_Z 8)
               (mul (round (div (min (of_Z 2048) (max (of_Z 256) (round n)))
                             (of_Z 8))) (of_Z 8)))
  else None.
Proof.
  intros U N. unfold Value.parseDim_v, Variant2.dim_of_number.
  destruct v as [| | b | n | s | l | f]; try contradiction; cbv zeta;
    cbn [to_number];
    match goal with
    | |- context [isFinite ?n] =>
        destruct (isFinite n), (le n (of_Z 0)); reflexivity
    end.
Qed.

(** What [parseDim] computes from a finite positive number: round, clamp,
    align. *)
Lemma parseDim_steps (q : Qc) :
  (0 < q)%Q ->
  max (of_Z 8)
    (mul (round (div (min (of_Z 2048) (max (of_Z 256) (round (Fin q))))
                   (of_Z 8))) (of_Z 8))
  = of_Z (align8Z (clampZ (Qfloor (q + (1 # 2))))).
Proof.
  intros H. destruct (round_positive q H) as [-> _].
  rewrite max_of_Z, min_of_Z.
  change (Z.min 2048 (Z.max 256 ?z)) with (clampZ z).
  apply align_step, clampZ_range.
Qed.

Lemma parseDim_Some (v : value) (r : number) :
  Value.parseDim_v v = Some r ->
  exists q : Qc,
    (0 < q)%Q /\ r = of_Z (align8Z (clampZ (Qfloor (q + (1 # 2))))).
Proof.
  intros H.
  assert (U : v <> Undefined) by (intros ->; discriminate H).
  assert (N : v <> Null) by (intros ->; discriminate H).
  rewrite (parseDim_unfold U N) in H. cbv zeta in H.
  match type of H with
  | context [isFinite ?n] =>
      destruct (isFinite n) eqn:F; [|discriminate H];
      destruct (le n (of_Z 0)) eqn:L; [discriminate H|];
      destruct (finite_positive n F L) as (q & E & Q)
  end.
  exists q. split; [assumption|].
  cbn [andb negb] in H. rewrite E, (parseDim_steps q Q) in H.
  now injection H.
Qed.

Lemma parseDim_aligned (v : value) (r : number) :
  Value.parseDim_v v = Some r -> aligned_dim r.
Proof.
  intros H. apply parseDim_Some in H as (q & _ & ->).
  eexists. split; [reflexivity|].
  pose proof (align8Z_range (clampZ_range (Qfloor (q + (1 # 2))))). tauto.
Qed.

(** [parseDim_v] accepts every finite positive number ... *)
Lemma parseDim_positive (q : Qc) :
  (0 < q)%Q ->
  Value.parseDim_v (Num (Fin q))
  = Some (of_Z (align8Z (clampZ (Qfloor (q + (1 # 2)))))).
Proof.
  intros H. rewrite parseDim_unfold by discriminate. cbv zeta.
  cbn [to_number isFinite andb].
  assert (L : le (Fin q) (of_Z 0) = false).
  { unfold le. rewrite cmp_Fin_0. rewrite Qgt_alt in H. now rewrite H. }
  rewrite L. cbn [negb]. now rewrite parseDim_steps.
Qed.

(** ... and every string that converts to one. *)
Lemma parseDim_numeric_string (s : jsstring) (q : Qc) :
  string_to_number s = Fin q -> (0 < q)%Q ->
  Value.parseDim_v (Str s)
  = Some (of_Z (align8Z (clampZ (Qfloor (q + (1 # 2)))))).
Proof.
  intros E H. rewrite parseDim_unfold by discriminate. cbv zeta.
  rewrite E. cbn [isFinite andb].
  assert (L : le (Fin q) (of_Z 0) = false).
  { unfold le. rewrite cmp_Fin_0. rewrite Qgt_alt in H. now rewrite H. }
  rewrite L. cbn [negb]. now rewrite parseDim_steps.
Qed.

Lemma parseDim_of_Z (z : Z) :
  0 < z -> Value.parseDim_v (Num (of_Z z)) = Some (of_Z (align8Z (clampZ z))).
Proof.
  intros H. rewrite parseDim_unfold by discriminate. cbv zeta.
  cbn [to_number]. rewrite isFinite_of_Z, le_of_Z.
  destruct (Z.leb_spec z 0); [lia|]. cbn [andb negb].
  rewrite round_of_Z, max_of_Z, min_of_Z.
  change (Z.min 2048 (Z.max 256 z)) with (clampZ z).
  now rewrite align_step by apply clampZ_range.
Qed.

(** An aligned dimension goes through [parseDim_v] unchanged. *)
Lemma parseDim_idem (r : number) :
  aligned_dim r -> Value.parseDim_v (Num r) = Some r.
Proof.
  intros (z & -> & R & D). rewrite parseDim_of_Z by lia.
  now rewrite clampZ_id, align8Z_id.
Qed.

Lemma aligned_truthy (r : number) : aligned_dim r -> truthy r = true.
Proof.
  intros (z & -> & R & _). rewrite truthy_of_Z.
  destruct (Z.eqb_spec z 0); [lia | reflexivity].
Qed.

Lemma aligned_valid (r : number) : aligned_dim r -> valid_dim r.
Proof. intros (z & E & R & _). now exists z. Qed.

Lemma truthy_parseDim (v : value) :
  Variant2.truthy_dim (Value.parseDim_v v) = true <->
  exists r, Value.parseDim_v v = Some r.
Proof.
  split.
  - destruct (Value.parseDim_v v) as [r|]; [eauto | discriminate].
  - intros [r E]. rewrite E. simpl.
    eapply aligned_truthy, parseDim_aligned, E.
Qed.

Lemma finalize_parseDim (v : value) :
  aligned_dim (Variant2.finalize2 (Value.parseDim_v v)).
Proof.
  unfold Variant2.finalize2.
  destruct (Value.parseDim_v v) as [r|] eqn:E.
  - pose proof (parseDim_aligned _ E) as A.
    simpl. now rewrite (aligned_truthy A).
  - simpl. exists 1024. repeat split; try lia. now exists 128.
Qed.

(** Each side that [derive2_v] returns is a result of [parseDim_v]. *)
Lemma derive_components (vw vh : value) (ar longEdge : number) :
  (exists v, fst (Value.derive2_v (Value.parseDim_v vw) (Value.parseDim_v vh)
                    ar longEdge) = Value.parseDim_v v) /\
  (exists v, snd (Value.derive2_v (Value.parseDim_v vw) (Value.parseDim_v vh)
                    ar longEdge) = Value.parseDim_v v).
Proof.
  unfold Value.derive2_v.
  repeat match goal with
         | |- context [if ?c then _ else _] => destruct c
         end; cbn [fst snd]; split; eexists; reflexivity.
Qed.

(** Every dimension that [resolveDims_v] returns is a multiple of 8 in
    [256, 2048]. *)
Lemma resolveDims_aligned (a : sizing) :
  aligned_dim (width (Value.resolveDims_v a)) /\
  aligned_dim (height (Value.resolveDims_v a)).
Proof.
  unfold Value.resolveDims_v. cbv zeta. cbn [width height].
  destruct (derive_components (s_width a) (s_height a)
              (Variant2.ratio2 (s_aspectRatio a))
              (Value.longEdge_v (s_longEdge a))) as [[v1 ->] [v2 ->]].
  split; apply finalize_parseDim.
Qed.

End DimFacts.

(** ** The dimension resolvers against the specification *)
Module Resolver.

Import JSNumber JSString StringToNumber JSValue JSBuiltin Spec.
Import NumberFacts StringFacts DimFacts Conversion.
Local Open Scope Z_scope.

Lemma result_dims_eq (r : result dims) (w h : number) :
  match r with
  | Ok d => eqb (width d) w && eqb (height d) h
  | TypeError => false
  end = true ->
  r = Ok {| width := w; height := h |}.
Proof.
  destruct r as [d|]; [|discriminate]. intros E.
  apply andb_prop in E as [Ew Eh]. f_equal. now apply dims_eq.
Qed.

Lemma Ok_dims_inj (d1 d2 : dims) :
  Ok d1 = Ok d2 -> width d1 = width d2 /\ height d1 = height d2.
Proof. intros E. assert (d1 = d2) by congruence. now subst. Qed.

Lemma clamp_of_Z (z : Z) :
  Variant1.clamp (Num (of_Z z)) Variant1.MIN_DIM Variant1.MAX_DIM
  = Ok (of_Z (clampZ z)).
Proof.
  unfold Variant1.clamp, Variant1.MIN_DIM, Variant1.MAX_DIM.
  cbn [ToNumber unconvertible to_number bind].
  now rewrite max_of_Z, min_of_Z.
Qed.

Lemma parseDim_int (z : Z) :
  0 < z -> Variant2.parseDim (Num (of_Z z)) = Ok (Some (of_Z (align8Z (clampZ z)))).
Proof. intros H. now rewrite parseDim_Num, parseDim_of_Z. Qed.

Lemma longEdge_v_aligned (v : value) : aligned_dim (Value.longEdge_v v).
Proof.
  unfold Value.longEdge_v.
  destruct (Value.parseDim_v v) as [r|] eqn:E.
  - exact (parseDim_aligned _ E).
  - exists 1024. repeat split; try lia. now exists 128.
Qed.

Lemma finalize_aligned (r : number) :
  aligned_dim r -> Variant2.finalize2 (Some r) = r.
Proof.
  intros A. unfold Variant2.finalize2. cbn [Variant2.truthy_dim].
  now rewrite (aligned_truthy A).
Qed.

Lemma finalize1_falsy (v : value) :
  to_boolean v = false -> Variant1.finalize1 v (of_Z 1024) = Ok (of_Z 1024).
Proof.
  intros H. unfold Variant1.finalize1, or_else. rewrite H.
  now rewrite clamp_of_Z.
Qed.

Lemma finalize1_negative (q : Qc) :
  (q < 0)%Q -> Variant1.finalize1 (Num (Fin q)) (of_Z 1024) = Ok (of_Z 256).
Proof.
  intros H. unfold Variant1.finalize1, or_else. cbn [to_boolean truthy].
  assert (T : Qeq_bool q 0 = false).
  { apply not_true_is_false. intros E. apply Qeq_bool_iff in E. lra. }
  rewrite T. cbn [negb]. unfold Variant1.clamp.
  cbn [ToNumber unconvertible to_number bind].
  assert (C : cmp Variant1.MIN_DIM (Fin q) = Some Gt).
  { unfold cmp, Variant1.MIN_DIM, of_Z. f_equal. unfold Qccompare.
    rewrite this_of_Z. apply Qgt_alt. change (inject_Z 256) with (256 # 1)%Q. lra. }
  unfold max. rewrite C. reflexivity.
Qed.

(** The dimension block returns, and returns aligned dimensions, whenever
    width, height and longEdge can be converted. *)
Lemma resolveDims_total (a : sizing) :
  Value.resolveDims_raises a = false ->
  exists d,
    Variant2.resolveDims a = Ok d /\
    aligned_dim (width d) /\ aligned_dim (height d).
Proof.
  intros R. rewrite resolveDims_eq, R. eexists. split; [reflexivity|].
  apply resolveDims_aligned.
Qed.

Lemma resolveDims_Ok (a : sizing) (d : dims) :
  Variant2.resolveDims a = Ok d ->
  aligned_dim (width d) /\ aligned_dim (height d).
Proof.
  rewrite resolveDims_eq. destruct (Value.resolveDims_raises a); [discriminate|].
  intros E. injection E as <-. apply resolveDims_aligned.
Qed.

(** When width and height are both given as integers greater than 0,
    [pickDims] returns each clamped to [256, 2048], whatever the aspectRatio
    and longEdge fields are, and the resolver of the alignment variant
    returns each clamped and then aligned to 8, whatever aspectRatio is and
    for every longEdge that [Number] converts. *)
Lemma explicit_pair (zw zh : Z) (aspectRatio longEdge : value) :
  0 < zw -> 0 < zh ->
  let a := {| s_width := Num (of_Z zw); s_height := Num (of_Z zh);
              s_aspectRatio := aspectRatio; s_longEdge := longEdge |} in
  Variant1.pickDims a
  = Ok {| width := of_Z (clampZ zw); height := of_Z (clampZ zh) |} /\
  Variant2.resolveDims a
  = if unconvertible longEdge then TypeError
    else Ok {| width := of_Z (align8Z (clampZ zw));
               height := of_Z (align8Z (clampZ zh)) |}.
Proof.
  intros Hw Hh a. split.
  - unfold Variant1.pickDims, a.
    cbn [s_width s_height ToNumber unconvertible to_number bind].
    rewrite !isInteger_of_Z, !gt_of_Z.
    destruct (Z.ltb_spec 0 zw); [|lia]. destruct (Z.ltb_spec 0 zh); [|lia].
    cbn [andb]. now rewrite !clamp_of_Z.
  - unfold Variant2.resolveDims, a. cbn [s_width s_height s_longEdge].
    rewrite !parseDim_int by assumption. cbn [bind].
    rewrite longEdge_of_eq.
    destruct (unconvertible longEdge); [reflexivity|]. cbn [bind].
    assert (Tw : truthy (of_Z (align8Z (clampZ zw))) = true).
    { apply aligned_truthy. eexists. split; [reflexivity|].
      pose proof (align8Z_range (clampZ_range zw)). tauto. }
    assert (Th : truthy (of_Z (align8Z (clampZ zh))) = true).
    { apply aligned_truthy. eexists. split; [reflexivity|].
      pose proof (align8Z_range (clampZ_range zh)). tauto. }
    unfold Variant2.derive2, Variant2.finalize2. cbn [Variant2.truthy_dim].
    rewrite Tw, Th.
    cbn [andb bind fst snd Variant2.truthy_dim Variant2.number_of_dim].
    now rewrite Tw, Th.
Qed.

(** C6.  With width and height given as integers greater than 0,
    [pickDims] returns each clamped to [256, 2048], whatever the aspectRatio
    and longEdge fields are, and a pair already in [256, 2048] unchanged.
    The second variant does not: it converts longEdge before it looks at
    width and height, so it returns each side clamped and aligned to 8
    exactly when longEdge can be converted, and raises a TypeError when it
    cannot.  On width 512, height 512 and a longEdge that is an object
    with an own property "toString" it raises, where the two sides are
    valid and [pickDims] returns (512, 512). *)
Theorem C6_explicit_pair :
  (forall zw zh aspectRatio longEdge,
      0 < zw -> 0 < zh ->
      Variant1.pickDims (sized (Num (of_Z zw)) (Num (of_Z zh)) aspectRatio longEdge)
      = Ok {| width := of_Z (clampZ zw); height := of_Z (clampZ zh) |}) /\
  (forall zw zh aspectRatio longEdge,
      256 <= zw <= 2048 -> 256 <= zh <= 2048 ->
      Variant1.pickDims (sized (Num (of_Z zw)) (Num (of_Z zh)) aspectRatio longEdge)
      = Ok {| width := of_Z zw; height := of_Z zh |}) /\
  (forall zw zh aspectRatio longEdge,
      0 < zw -> 0 < zh ->
      Variant2.resolveDims (sized (Num (of_Z zw)) (Num (of_Z zh)) aspectRatio longEdge)
      = if unconvertible longEdge then TypeError
        else Ok {| width := of_Z (align8Z (clampZ zw));
                   height := of_Z (align8Z (clampZ zh)) |}) /\
  (forall zw zh aspectRatio longEdge,
      256 <= zw <= 2048 -> 256 <= zh <= 2048 ->
      unconvertible longEdge = false ->
      Variant2.resolveDims (sized (Num (of_Z zw)) (Num (of_Z zh)) aspectRatio longEdge)
      = Ok {| width := of_Z (align8Z zw); height := of_Z (align8Z zh) |}) /\
  Variant2.resolveDims
    (sized (Num (of_Z 512)) (Num (of_Z 512)) Undefined
       (Obj [(lit "toString", Num (of_Z 1))]))
  = TypeError /\
  Variant2.resolveDims
    (sized (Num (of_Z 512)) (Num (of_Z 512)) Undefined
       (Obj [(lit "toString", Num (of_Z 1))]))
  <> Ok {| width := of_Z 512; height := of_Z 512 |} /\
  Variant1.pickDims
    (sized (Num (of_Z 512)) (Num (of_Z 512)) Undefined
       (Obj [(lit "toString", Num (of_Z 1))]))
  = Ok {| width := of_Z 512; height := of_Z 512 |}.
Proof.
  split; [|split; [|split; [|split; [|split; [|split]]]]].
  - intros zw zh aspectRatio longEdge Hw Hh.
    exact (proj1 (@explicit_pair zw zh aspectRatio longEdge Hw Hh)).
  - intros zw zh aspectRatio longEdge Rw Rh.
    destruct (@explicit_pair zw zh aspectRatio longEdge) as [P _]; try lia.
    cbv zeta in P. unfold sized.
    now rewrite P, (clampZ_id Rw), (clampZ_id Rh).
  - intros zw zh aspectRatio longEdge Hw Hh.
    exact (proj2 (@explicit_pair zw zh aspectRatio longEdge Hw Hh)).
  - intros zw zh aspectRatio longEdge Rw Rh U.
    destruct (@explicit_pair zw zh aspectRatio longEdge) as [_ P]; try lia.
    cbv zeta in P. unfold sized.
    now rewrite P, U, (clampZ_id Rw), (clampZ_id Rh).
  - reflexivity.
  - discriminate.
  - apply result_dims_eq. vm_compute. reflexivity.
Qed.

(** At the level of the handlers' input: with valid width and height, a
    longEdge that cannot be converted fails the resolver of the second
    variant, where [pickDims] returns the two sides. *)
Lemma explicit_pair_unconvertible_longEdge :
  let a := sized (Num (of_Z 512)) (Num (of_Z 512)) Undefined
             (Obj [(lit "toString", Num (of_Z 1))]) in
  Variant2.resolveDims a = TypeError /\
  Variant1.pickDims a = Ok {| width := of_Z 512; height := of_Z 512 |}.
Proof.
  intros a. split; [reflexivity|].
  apply result_dims_eq. vm_compute. reflexivity.
Qed.

(** C9. In the alignment variant, whatever [parseDim] returns for an
    argument it accepts is a multiple of 8 in [256, 2048], hence not below
    the alignment unit 8; it accepts every finite positive number and every
    string that converts to one; both dimensions that the resolver of that
    variant returns are multiples of 8 in [256, 2048], and it returns
    whenever width, height and longEdge can be converted. *)
Theorem C9_alignment :
  (forall v r,
      Variant2.parseDim v = Ok (Some r) ->
      aligned_dim r /\ ge r (of_Z 8) = true) /\
  (forall q : Qc,
      (0 < q)%Q -> exists r, Variant2.parseDim (Num (Fin q)) = Ok (Some r)) /\
  (forall s (q : Qc),
      string_to_number s = Fin q -> (0 < q)%Q ->
      exists r, Variant2.parseDim (Str s) = Ok (Some r)) /\
  (forall a d,
      Variant2.resolveDims a = Ok d ->
      aligned_dim (width d) /\ aligned_dim (height d)) /\
  (forall a,
      unconvertible (s_width a) = false ->
      unconvertible (s_height a) = false ->
      unconvertible (s_longEdge a) = false ->
      exists d, Variant2.resolveDims a = Ok d).
Proof.
  split; [|split; [|split; [|split]]].
  - intros v r H. rewrite parseDim_eq in H.
    destruct (unconvertible v); [discriminate H|]. injection H as H.
    pose proof (parseDim_aligned _ H) as A. split; [exact A|].
    destruct A as (z & -> & R & _). rewrite ge_of_Z.
    destruct (Z.leb_spec 8 z); [reflexivity | lia].
  - intros q H. eexists. rewrite parseDim_Num. f_equal.
    exact (parseDim_positive q H).
  - intros s q E H. eexists. rewrite parseDim_eq. cbn [unconvertible].
    f_equal. exact (parseDim_numeric_string s E H).
  - apply resolveDims_Ok.
  - intros a Uw Uh Ul.
    destruct (@resolveDims_total a) as (d & E & _); [|now exists d].
    unfold Value.resolveDims_raises. now rewrite Uw, Uh, Ul.
Qed.

(** C1.  The resolver of the alignment variant returns two integers of
    [256, 2048] whenever width, height and longEdge can be converted to a
    primitive; [pickDims] does not: on a body whose longEdge is the string
    "abc" (and no width, height or aspectRatio) it returns NaN for the
    width, and on a longEdge of 300.5 it returns the width 300.5, which is
    not an integer.  Both raise a TypeError on a width that is an object
    with an own property "toString". *)
Theorem C1_pickDims_returns_NaN :
  (forall a,
      unconvertible (s_width a) = false ->
      unconvertible (s_height a) = false ->
      unconvertible (s_longEdge a) = false ->
      exists d,
        Variant2.resolveDims a = Ok d /\
        valid_dim (width d) /\ valid_dim (height d)) /\
  Variant1.pickDims (sized Undefined Undefined Undefined (Str (lit "abc")))
  = Ok {| width := NaN; height := of_Z 1024 |} /\
  ~ valid_dim NaN /\
  Variant1.pickDims
    (sized Undefined Undefined Undefined (Num (Fin (Q2Qc (601 # 2)))))
  = Ok {| width := Fin (Q2Qc (601 # 2)); height := of_Z 301 |} /\
  ~ valid_dim (Fin (Q2Qc (601 # 2))) /\
  Variant1.pickDims
    (sized (Obj [(lit "toString", Num (of_Z 1))]) Undefined Undefined Undefined)
  = TypeError /\
  Variant2.resolveDims
    (sized (Obj [(lit "toString", Num (of_Z 1))]) Undefined Undefined Undefined)
  = TypeError.
Proof.
  split; [|split; [|split; [|split; [|split; [|split]]]]].
  - intros a Uw Uh Ul.
    destruct (@resolveDims_total a) as (d & E & W & H).
    { unfold Value.resolveDims_raises. now rewrite Uw, Uh, Ul. }
    exists d. split; [exact E|]. split; now apply aligned_valid.
  - apply result_dims_eq; vm_compute; reflexivity.
  - intros (z & E & _). discriminate E.
  - apply result_dims_eq; vm_compute; reflexivity.
  - intros (z & E & _). unfold of_Z in E.
    assert (E' : this (Q2Qc (601 # 2)) = this (Q2Qc (inject_Z z))) by congruence.
    rewrite this_of_Z in E'. vm_compute in E'. discriminate E'.
  - reflexivity.
  - reflexivity.
Qed.

(** C7 (as amended).  In the first variant, when neither [Number(width)]
    nor [Number(height)] is a positive integer, both dimensions come from
    longEdge (1024 when absent) along the dominant axis of the ratio, then
    go through the fallback and the clamp.  In the alignment variant the
    rule applies when [parseDim] returns [null] for both width and height
    (neither is a finite positive number), on the longEdge that [parseDim]
    has already rounded, clamped and aligned (1024 when it returns [null]),
    and the derived side goes through [parseDim].  Both variants resolve
    aspectRatio "16:9" with longEdge 1920 to (1920, 1080) and aspectRatio
    "16:9" alone to (1024, 576). *)
Theorem C7_longEdge_rule :
  (forall a w h n,
      ToNumber (s_width a) = Ok w -> ToNumber (s_height a) = Ok h ->
      positive_integer w = false -> positive_integer h = false ->
      ToNumber (Variant1.longEdge_param (s_longEdge a)) = Ok n ->
      let le := Variant1.longEdge_param (s_longEdge a) in
      let r := Variant1.ratio1 (s_aspectRatio a) in
      Variant1.pickDims a =
      if ge r (of_Z 1)
      then (cw <- Variant1.finalize1 le Variant1.DEFAULT_W ;;
            ch <- Variant1.finalize1 (Num (round (div n r))) Variant1.DEFAULT_H ;;
            Ok {| width := cw; height := ch |})
      else (cw <- Variant1.finalize1 (Num (round (mul n r))) Variant1.DEFAULT_W ;;
            ch <- Variant1.finalize1 le Variant1.DEFAULT_H ;;
            Ok {| width := cw; height := ch |})) /\
  (forall a le,
      Variant2.parseDim (s_width a) = Ok None ->
      Variant2.parseDim (s_height a) = Ok None ->
      Variant2.longEdge_of (s_longEdge a) = Ok le ->
      let r := Variant2.ratio2 (s_aspectRatio a) in
      aligned_dim le /\
      Variant2.resolveDims a =
      if ge r (of_Z 1)
      then (h' <- Variant2.parseDim (Num (round (div le r))) ;;
            Ok {| width := le; height := Variant2.finalize2 h' |})
      else (w' <- Variant2.parseDim (Num (round (mul le r))) ;;
            Ok {| width := Variant2.finalize2 w'; height := le |})) /\
  Variant1.pickDims
    (sized Undefined Undefined (Str (lit "16:9")) (Num (of_Z 1920)))
  = Ok {| width := of_Z 1920; height := of_Z 1080 |} /\
  Variant2.resolveDims
    (sized Undefined Undefined (Str (lit "16:9")) (Num (of_Z 1920)))
  = Ok {| width := of_Z 1920; height := of_Z 1080 |} /\
  Variant1.pickDims (sized Undefined Undefined (Str (lit "16:9")) Undefined)
  = Ok {| width := of_Z 1024; height := of_Z 576 |} /\
  Variant2.resolveDims (sized Undefined Undefined (Str (lit "16:9")) Undefined)
  = Ok {| width := of_Z 1024; height := of_Z 576 |}.
Proof.
  split; [|split; [|repeat split; apply result_dims_eq; vm_compute; reflexivity]].
  - intros a w h n Ew Eh Pw Ph En. cbv zeta.
    unfold Variant1.pickDims. rewrite Ew, Eh. cbn [bind].
    replace (isInteger w && isInteger h && gt w (of_Z 0) && gt h (of_Z 0))
      with false.
    2:{ unfold positive_integer in Pw.
        destruct (isInteger w), (isInteger h), (gt w (of_Z 0));
          try reflexivity; discriminate Pw. }
    unfold Variant1.derive1. fold (positive_integer w).
    fold (positive_integer h). rewrite Pw, Ph, ratio1_truthy, En.
    now destruct (ge (Variant1.ratio1 (s_aspectRatio a)) (of_Z 1)).
  - intros a le Ew Eh El. cbv zeta.
    assert (A : aligned_dim le).
    { rewrite longEdge_of_eq in El.
      destruct (unconvertible (s_longEdge a)); [discriminate El|].
      injection El as <-. apply longEdge_v_aligned. }
    split; [exact A|].
    unfold Variant2.resolveDims. rewrite Ew, Eh, El. cbn [bind].
    unfold Variant2.derive2. cbn [Variant2.truthy_dim andb negb].
    rewrite (parseDim_Num le), (parseDim_idem A). cbn [bind].
    destruct (ge (Variant2.ratio2 (s_aspectRatio a)) (of_Z 1));
      rewrite !parseDim_Num; cbn [bind fst snd];
      now rewrite (finalize_aligned A).
Qed.

(** The claim C7 as stated fails in the alignment variant.  With
    aspectRatio "16:9", longEdge 3000 and neither width nor height, the rule
    of the claim gives 3000 by round(3000 / (16/9)) = 1688 before clamping,
    hence (2048, 1688); the code clamps longEdge to 2048 first and derives
    the height from that: (2048, 1152). *)
Lemma C7_counterexample_longEdge_3000 :
  let a := sized Undefined Undefined (Str (lit "16:9")) (Num (of_Z 3000)) in
  let norm := fun n =>
    Variant2.finalize2
      (Variant2.dim_of_number (of_Z 256) (of_Z 2048) (of_Z 8) n) in
  positive_integer (to_number (s_width a)) = false /\
  positive_integer (to_number (s_height a)) = false /\
  to_number (Num (fst (longEdge_rule (of_Z 3000) (Variant2.ratio2 (s_aspectRatio a)))))
  = of_Z 3000 /\
  to_number (Num (snd (longEdge_rule (of_Z 3000) (Variant2.ratio2 (s_aspectRatio a)))))
  = of_Z 1688 /\
  longEdge_dims norm (Variant2.ratio2 (s_aspectRatio a)) a
  = {| width := of_Z 2048; height := of_Z 1688 |} /\
  Variant2.resolveDims a = Ok {| width := of_Z 2048; height := of_Z 1152 |} /\
  Variant2.resolveDims a <>
  Ok (longEdge_dims norm (Variant2.ratio2 (s_aspectRatio a)) a).
Proof.
  intros a norm.
  assert (R : Variant2.resolveDims a
              = Ok {| width := of_Z 2048; height := of_Z 1152 |})
    by (apply result_dims_eq; vm_compute; reflexivity).
  assert (L : longEdge_dims norm (Variant2.ratio2 (s_aspectRatio a)) a
              = {| width := of_Z 2048; height := of_Z 1688 |})
    by (apply dims_eq; vm_compute; reflexivity).
  repeat split; try assumption; try (apply eqb_eq; vm_compute; reflexivity).
  rewrite R, L. intros E. apply Ok_dims_inj in E as [_ E]. cbn [height] in E.
  apply of_Z_inj in E. discriminate E.
Qed.

(** The premise of C7 also differs: a width of 512.5 is not a positive
    integer, yet [parseDim] accepts it (as 512) and the alignment variant
    derives the height from it instead of using longEdge. *)
Lemma resolveDims_fractional_width :
  let a := sized (Num (Fin (Q2Qc (1025 # 2)))) Undefined Undefined Undefined in
  positive_integer (to_number (s_width a)) = false /\
  Variant2.resolveDims a = Ok {| width := of_Z 512; height := of_Z 512 |} /\
  Variant1.pickDims a = Ok {| width := of_Z 1024; height := of_Z 1024 |}.
Proof.
  intros a. split; [reflexivity|].
  split; apply result_dims_eq; vm_compute; reflexivity.
Qed.

(** What the priority rules of the second variant return (lines 171-180)
    for the results of [parseDim] on width and height: each side is [null]
    or a multiple of 8 in [256, 2048]. *)
Lemma derive2_outputs (a : sizing) (w h : option number) (le : number)
    (d' : option number * option number) :
  Variant2.parseDim (s_width a) = Ok w ->
  Variant2.parseDim (s_height a) = Ok h ->
  Variant2.derive2 w h (Variant2.ratio2 (s_aspectRatio a)) le = Ok d' ->
  (forall r, fst d' = Some r -> aligned_dim r) /\
  (forall r, snd d' = Some r -> aligned_dim r).
Proof.
  rewrite !parseDim_eq, derive2_eq.
  destruct (unconvertible (s_width a)); [discriminate|].
  destruct (unconvertible (s_height a)); [discriminate|].
  intros Ew Eh Ed.
  assert (Ew' : Value.parseDim_v (s_width a) = w) by congruence.
  assert (Eh' : Value.parseDim_v (s_height a) = h) by congruence.
  assert (Ed' : Value.derive2_v w h (Variant2.ratio2 (s_aspectRatio a)) le = d')
    by congruence.
  subst w h d'.
  destruct (derive_components (s_width a) (s_height a)
              (Variant2.ratio2 (s_aspectRatio a)) le) as [[v1 ->] [v2 ->]].
  split; intros r E; exact (parseDim_aligned _ E).
Qed.

(** C8 (as amended).  In [pickDims] the fallback is [v || 1024]: a
    dimension that is falsy after the precedence rules (NaN, +0, -0) is
    replaced by 1024, which the clamp leaves at 1024; a negative number is
    truthy, is not replaced, and is clamped up to 256.  In the alignment
    variant the resolver returns, for each side, what the priority rules
    (lines 171-180) have left: 1024 for a side that is still [null], and
    otherwise the side itself, which is a multiple of 8 in [256, 2048].
    The fallback is reached: with aspectRatio "100000:1" and nothing else,
    the rules leave the height [null], and the result is (1024, 1024). *)
Theorem C8_fallback :
  (forall a w h,
      ToNumber (s_width a) = Ok w -> ToNumber (s_height a) = Ok h ->
      positive_integer w && positive_integer h = false ->
      Variant1.pickDims a =
      (d <- Variant1.derive1 w h (Variant1.ratio1 (s_aspectRatio a))
              (Variant1.longEdge_param (s_longEdge a)) ;;
       cw <- Variant1.finalize1 (fst d) (of_Z 1024) ;;
       ch <- Variant1.finalize1 (snd d) (of_Z 1024) ;;
       Ok {| width := cw; height := ch |})) /\
  (forall v, to_boolean v = false ->
             Variant1.finalize1 v (of_Z 1024) = Ok (of_Z 1024)) /\
  (forall q : Qc, (q < 0)%Q ->
                  Variant1.finalize1 (Num (Fin q)) (of_Z 1024) = Ok (of_Z 256)) /\
  (forall a d,
      Variant2.resolveDims a = Ok d ->
      exists w h le d',
        Variant2.parseDim (s_width a) = Ok w /\
        Variant2.parseDim (s_height a) = Ok h /\
        Variant2.longEdge_of (s_longEdge a) = Ok le /\
        Variant2.derive2 w h (Variant2.ratio2 (s_aspectRatio a)) le = Ok d' /\
        (fst d' = None -> width d = of_Z 1024) /\
        (forall r, fst d' = Some r -> aligned_dim r /\ width d = r) /\
        (snd d' = None -> height d = of_Z 1024) /\
        (forall r, snd d' = Some r -> aligned_dim r /\ height d = r)) /\
  (forall a w h le d',
      Variant2.parseDim (s_width a) = Ok w ->
      Variant2.parseDim (s_height a) = Ok h ->
      Variant2.longEdge_of (s_longEdge a) = Ok le ->
      Variant2.derive2 w h (Variant2.ratio2 (s_aspectRatio a)) le = Ok d' ->
      Variant2.resolveDims a
      = Ok {| width := Variant2.finalize2 (fst d');
              height := Variant2.finalize2 (snd d') |}) /\
  Variant2.finalize2 None = of_Z 1024 /\
  (forall r, aligned_dim r -> Variant2.finalize2 (Some r) = r) /\
  (let a := sized Undefined Undefined (Str (lit "100000:1")) Undefined in
   Variant2.parseDim (s_width a) = Ok None /\
   Variant2.parseDim (s_height a) = Ok None /\
   Variant2.longEdge_of (s_longEdge a) = Ok (of_Z 1024) /\
   Variant2.derive2 None None (Variant2.ratio2 (s_aspectRatio a)) (of_Z 1024)
   = Ok (Some (of_Z 1024), None) /\
   Variant2.resolveDims a = Ok {| width := of_Z 1024; height := of_Z 1024 |}).
Proof.
  split; [|split; [|split; [|split; [|split; [|split; [|split]]]]]].
  - intros a w h Ew Eh P. unfold Variant1.pickDims. rewrite Ew, Eh.
    cbn [bind].
    replace (isInteger w && isInteger h && gt w (of_Z 0) && gt h (of_Z 0))
      with false; [reflexivity|].
    rewrite <- P. unfold positive_integer.
    destruct (isInteger w), (isInteger h), (gt w (of_Z 0)), (gt h (of_Z 0));
      reflexivity.
  - apply finalize1_falsy.
  - apply finalize1_negative.
  - intros a d E. unfold Variant2.resolveDims in E.
    destruct (Variant2.parseDim (s_width a)) as [w|] eqn:Ew; [|discriminate E].
    destruct (Variant2.parseDim (s_height a)) as [h|] eqn:Eh; [|discriminate E].
    cbn [bind] in E.
    destruct (Variant2.longEdge_of (s_longEdge a)) as [le|] eqn:El;
      [|discriminate E].
    cbn [bind] in E.
    destruct (Variant2.derive2 w h (Variant2.ratio2 (s_aspectRatio a)) le)
      as [d'|] eqn:Ed; [|discriminate E].
    cbn [bind] in E.
    assert (Ew' : width d = Variant2.finalize2 (fst d'))
      by (apply Ok_dims_inj in E; now destruct E).
    assert (Eh' : height d = Variant2.finalize2 (snd d'))
      by (apply Ok_dims_inj in E; now destruct E).
    destruct (@derive2_outputs a w h le d' Ew Eh Ed) as [Aw Ah].
    exists w, h, le, d'.
    split; [reflexivity|]. split; [reflexivity|]. split; [reflexivity|].
    split; [exact Ed|]. split; [|split; [|split]].
    + intros N. now rewrite Ew', N.
    + intros r S. split; [exact (Aw r S)|].
      rewrite Ew', S. exact (finalize_aligned (Aw r S)).
    + intros N. now rewrite Eh', N.
    + intros r S. split; [exact (Ah r S)|].
      rewrite Eh', S. exact (finalize_aligned (Ah r S)).
  - intros a w h le d' Ew Eh El Ed. unfold Variant2.resolveDims.
    rewrite Ew, Eh. cbn [bind]. rewrite El. cbn [bind]. now rewrite Ed.
  - reflexivity.
  - apply finalize_aligned.
  - cbv zeta. split; [reflexivity|]. split; [reflexivity|].
    split; [reflexivity|].
    assert (D : Variant2.derive2 None None
                  (Variant2.ratio2 (Str (lit "100000:1"))) (of_Z 1024)
                = Ok (Some (of_Z 1024), None)).
    { unfold Variant2.derive2. cbn [Variant2.truthy_dim andb negb].
      assert (G : ge (Variant2.ratio2 (Str (lit "100000:1"))) (of_Z 1) = true)
        by (vm_compute; reflexivity).
      rewrite G, (@parseDim_int 1024) by lia.
      assert (N : Variant2.parseDim
                    (Num (round (div (of_Z 1024)
                                   (Variant2.ratio2 (Str (lit "100000:1"))))))
                  = Ok None) by (vm_compute; reflexivity).
      rewrite N. reflexivity. }
    split; [exact D|].
    unfold Variant2.resolveDims, sized. cbn [s_width s_height s_longEdge s_aspectRatio].
    change (Variant2.parseDim Undefined) with (@Ok (option number) None).
    cbn [bind].
    change (Variant2.longEdge_of Undefined) with (Ok (of_Z 1024)).
    cbn [bind]. rewrite D. reflexivity.
Qed.

(** The claim C8 as stated fails in [pickDims]: with longEdge -5 and
    nothing else, both dimensions are -5 after the precedence rules, not
    positive numbers, and the result is (256, 256), not (1024, 1024). *)
Lemma C8_counterexample_negative_longEdge :
  let a := sized Undefined Undefined Undefined (Num (of_Z (-5))) in
  ToNumber (s_width a) = Ok NaN /\ ToNumber (s_height a) = Ok NaN /\
  (exists d,
      Variant1.derive1 NaN NaN (Variant1.ratio1 (s_aspectRatio a))
        (Variant1.longEdge_param (s_longEdge a)) = Ok d /\
      to_number (fst d) = of_Z (-5) /\ to_number (snd d) = of_Z (-5)) /\
  gt (of_Z (-5)) (of_Z 0) = false /\
  Variant1.pickDims a = Ok {| width := of_Z 256; height := of_Z 256 |} /\
  Variant1.pickDims a <> Ok {| width := of_Z 1024; height := of_Z 1024 |}.
Proof.
  intros a.
  assert (P : Variant1.pickDims a
              = Ok {| width := of_Z 256; height := of_Z 256 |})
    by (apply result_dims_eq; vm_compute; reflexivity).
  split; [reflexivity|]. split; [reflexivity|]. split.
  { eexists. split; [vm_compute; reflexivity|].
    split; apply eqb_eq; vm_compute; reflexivity. }
  split; [vm_compute; reflexivity|]. split; [exact P|].
  rewrite P. intros E. apply Ok_dims_inj in E as [E _]. cbn [width] in E.
  apply of_Z_inj in E. discriminate E.
Qed.

End Resolver.

(** ** The handlers *)
Module Handler.

Import JSNumber JSString JSValue Http Gate.
Local Open Scope Z_scope.

Lemma str_eqb_true (s t : jsstring) : str_eqb s t = true <-> s = t.
Proof.
  unfold str_eqb. destruct (list_eq_dec N.eq_dec s t); split; congruence.
Qed.

Lemma str_eqb_false (s t : jsstring) : str_eqb s t = false <-> s <> t.
Proof.
  unfold str_eqb. destruct (list_eq_dec N.eq_dec s t); split; congruence.
Qed.

Lemma str_eqb_refl (s : jsstring) : str_eqb s s = true.
Proof. now apply str_eqb_true. Qed.

Lemma generate1_calls (H : helpers) (e : env) (c : ai_call) :
  snd (generate1 H e c) = [c].
Proof. unfold generate1. now destruct (AI_run e c). Qed.

Lemma generate1_status (H : helpers) (e : env) (c : ai_call) :
  status (fst (generate1 H e c)) =
  match AI_run e c with Some _ => 200 | None => 500 end.
Proof. unfold generate1. now destruct (AI_run e c). Qed.

(** Past the gate, [fetch1] is prompt validation, model selection,
    dimension resolution and the backend call. *)
Lemma fetch1_ready (H : helpers) (e : env) (r : request) (b : value) :
  ready1 H e r b ->
  fetch1 H e r =
  let fields := or_else b (Obj []) in
  match get fields (lit "prompt") with
  | Str prompt =>
      match trim prompt with
      | [] =>
          Ok (cors (json (lit "Prompt is required (non-empty string)") 400 []), [])
      | _ =>
          if 800 <? JSString.length (trim prompt) then
            Ok (cors (json (lit "Prompt too long (max 800 chars)") 413 []), [])
          else
            d <- Variant1.pickDims (sizing_of (get fields)) ;;
            Ok (generate1 H e
                  {| call_model := selected1 (get fields (lit "model"));
                     call_prompt := trim prompt;
                     call_width := width d;
                     call_height := height d |})
      end
  | _ => Ok (cors (json (lit "Prompt is required (non-empty string)") 400 []), [])
  end.
Proof.
  intros (Hm & Hp & Ht & Hs & Hc & Hb). unfold fetch1.
  rewrite Hm, Hp, Ht, Hs, Hc, Hb.
  change (str_eqb (lit "POST") (lit "OPTIONS")) with false.
  rewrite !str_eqb_refl. reflexivity.
Qed.

(** Past the gate, [fetch2] is the [try] block with its [catch]. *)
Lemma fetch2_ready (H : helpers) (e : env) (r : request) (b : value) :
  ready2 H e r b ->
  fetch2 H e r =
  match or_else (get_opt b (lit "prompt")) (Str []) with
  | Str prompt =>
      match trim prompt with
      | [] => (cors (json (lit "Prompt is required") 400 []), [])
      | _ =>
          match Variant2.resolveDims (sizing_of (get_opt b)) with
          | TypeError => (cors (json (lit "Failed to generate image") 500 []), [])
          | Ok d =>
              let c := {| call_model := selected2 (get_opt b (lit "model"));
                          call_prompt := trim prompt;
                          call_width := width d;
                          call_height := height d |} in
              match AI_run e c with
              | Some result =>
                  (cors {| status := 200;
                           resp_headers :=
                             [ (lit "Content-Type", lit "image/png");
                               (lit "Content-Disposition",
                                 content_disposition H (width d) (height d));
                               (lit "Cache-Control", lit "no-store") ];
                           resp_body := Image result |}, [c])
              | None => (cors (json (lit "Failed to generate image") 500 []), [c])
              end
          end
      end
  | _ => (cors (json (lit "Failed to generate image") 500 []), [])
  end.
Proof.
  intros (Hm & Hp & Ha & Hc & Hb). unfold fetch2, try_block2.
  rewrite Hm, Hp, Ha, Hc, Hb.
  change (str_eqb (lit "POST") (lit "OPTIONS")) with false.
  rewrite !str_eqb_refl. cbn [negb orb].
  assert (M : (if str_eqb (typeof (get_opt b (lit "model"))) (lit "string")
               then get_opt b (lit "model") else Str DEFAULT_MODEL)
              = selected2 (get_opt b (lit "model")))
    by now destruct (get_opt b (lit "model")).
  rewrite M.
  destruct (or_else (get_opt b (lit "prompt")) (Str [])); try reflexivity.
  destruct (trim s); [reflexivity|].
  destruct (Variant2.resolveDims (sizing_of (get_opt b))); [|reflexivity].
  cbv zeta. now destruct (AI_run e _).
Qed.

(** A backend call of [fetch1] carries the selected model, the trimmed
    prompt and the dimensions of [pickDims]. *)
Lemma fetch1_calls (H : helpers) (e : env) (r : request) (o : outcome)
    (c : ai_call) :
  fetch1 H e r = Ok o -> In c (snd o) ->
  exists b prompt d,
    json_body r = Some b /\
    get (or_else b (Obj [])) (lit "prompt") = Str prompt /\
    Variant1.pickDims (sizing_of (get (or_else b (Obj [])))) = Ok d /\
    c = {| call_model := selected1 (get (or_else b (Obj [])) (lit "model"));
           call_prompt := trim prompt;
           call_width := width d;
           call_height := height d |}.
Proof.
  unfold fetch1.
  destruct (str_eqb (method r) (lit "OPTIONS")); [intros [= <-] []|].
  destruct (negb (str_eqb (pathname r) (lit "/")) || _); [intros [= <-] []|].
  destruct (negb (to_boolean _) || _); [intros [= <-] []|].
  destruct (negb (is_json_type H (content_type r))); [intros [= <-] []|].
  destruct (json_body r) as [b|]; [|intros [= <-] []].
  destruct (get (or_else b (Obj [])) (lit "prompt")) eqn:P;
    try (intros [= <-] []).
  destruct (trim s) eqn:T; [intros [= <-] []|]. rewrite <- T.
  destruct (800 <? JSString.length (trim s)); [intros [= <-] []|].
  destruct (Variant1.pickDims (sizing_of (get (or_else b (Obj [])))))
    as [d|] eqn:D; [|discriminate].
  cbn [bind]. intros [= <-]. rewrite generate1_calls. intros [<- | []].
  now exists b, s, d.
Qed.

Lemma fetch2_calls (H : helpers) (e : env) (r : request) (c : ai_call) :
  In c (snd (fetch2 H e r)) ->
  exists b prompt d,
    json_body r = Some b /\
    or_else (get_opt b (lit "prompt")) (Str []) = Str prompt /\
    Variant2.resolveDims (sizing_of (get_opt b)) = Ok d /\
    c = {| call_model := selected2 (get_opt b (lit "model"));
           call_prompt := trim prompt;
           call_width := width d;
           call_height := height d |}.
Proof.
  unfold fetch2, try_block2.
  destruct (str_eqb (method r) (lit "OPTIONS")); [intros []|].
  destruct (negb (match authorization r with Some _ => _ | None => _ end));
    [intros []|].
  destruct (negb (str_eqb (method r) (lit "POST")) || _); [intros []|].
  destruct (negb (is_json_type H (content_type r))); [intros []|].
  destruct (json_body r) as [b|]; [|intros []].
  assert (M : (if str_eqb (typeof (get_opt b (lit "model"))) (lit "string")
               then get_opt b (lit "model") else Str DEFAULT_MODEL)
              = selected2 (get_opt b (lit "model")))
    by now destruct (get_opt b (lit "model")).
  rewrite M.
  destruct (or_else (get_opt b (lit "prompt")) (Str [])) eqn:P; try (intros []).
  destruct (trim s) eqn:T; [intros []|]. rewrite <- T.
  destruct (Variant2.resolveDims (sizing_of (get_opt b))) as [d|] eqn:D;
    [|intros []].
  cbv zeta. destruct (AI_run e _); cbn [snd]; intros [<- | []];
    now exists b, s, d.
Qed.

Lemma selected1_listed (model : value) :
  exists m, selected1 model = Str m /\ In m MODEL_WHITELIST.
Proof.
  unfold selected1. destruct (set_has MODEL_WHITELIST model) eqn:E.
  - destruct model; try discriminate E. cbn [set_has] in E.
    apply existsb_exists in E as (m & I & E). apply str_eqb_true in E.
    subst. now exists m.
  - exists DEFAULT_MODEL. split; [reflexivity|]. now left.
Qed.

Lemma fetch1_not_string (H : helpers) (e : env) (r : request) (b : value) :
  ready1 H e r b ->
  (forall s, get (or_else b (Obj [])) (lit "prompt") <> Str s) ->
  fetch1 H e r
  = Ok (cors (json (lit "Prompt is required (non-empty string)") 400 []), []).
Proof.
  intros R N. rewrite (fetch1_ready R). cbv zeta.
  destruct (get (or_else b (Obj [])) (lit "prompt")) as [| | | | s | |];
    try reflexivity.
  exfalso. exact (N s eq_refl).
Qed.

Lemma fetch1_blank (H : helpers) (e : env) (r : request) (b : value)
    (s : jsstring) :
  ready1 H e r b ->
  get (or_else b (Obj [])) (lit "prompt") = Str s -> trim s = [] ->
  fetch1 H e r
  = Ok (cors (json (lit "Prompt is required (non-empty string)") 400 []), []).
Proof.
  intros R P T. rewrite (fetch1_ready R). cbv zeta. now rewrite P, T.
Qed.

Lemma fetch1_too_long (H : helpers) (e : env) (r : request) (b : value)
    (s : jsstring) :
  ready1 H e r b ->
  get (or_else b (Obj [])) (lit "prompt") = Str s ->
  800 < JSString.length (trim s) ->
  fetch1 H e r
  = Ok (cors (json (lit "Prompt too long (max 800 chars)") 413 []), []).
Proof.
  intros R P L. rewrite (fetch1_ready R). cbv zeta. rewrite P.
  apply Z.ltb_lt in L. revert L.
  destruct (trim s) as [| c t]; intros L; [discriminate L|].
  now rewrite L.
Qed.

Lemma fetch1_accepts (H : helpers) (e : env) (r : request) (b : value)
    (s : jsstring) :
  ready1 H e r b ->
  get (or_else b (Obj [])) (lit "prompt") = Str s ->
  trim s <> [] -> JSString.length (trim s) <= 800 ->
  fetch1 H e r =
  (d <- Variant1.pickDims (sizing_of (get (or_else b (Obj [])))) ;;
   Ok (generate1 H e
         {| call_model := selected1 (get (or_else b (Obj [])) (lit "model"));
            call_prompt := trim s;
            call_width := width d;
            call_height := height d |})).
Proof.
  intros R P T L. rewrite (fetch1_ready R). cbv zeta. rewrite P.
  apply Z.ltb_ge in L. revert T L.
  destruct (trim s) as [| c t]; intros T L; [contradiction|].
  now rewrite L.
Qed.

Lemma fetch2_blank (H : helpers) (e : env) (r : request) (b : value)
    (s : jsstring) :
  ready2 H e r b ->
  or_else (get_opt b (lit "prompt")) (Str []) = Str s -> trim s = [] ->
  fetch2 H e r = (cors (json (lit "Prompt is required") 400 []), []).
Proof.
  intros R P T. rewrite (fetch2_ready R). now rewrite P, T.
Qed.

Lemma fetch2_accepts (H : helpers) (e : env) (r : request) (b : value)
    (s : jsstring) (d : dims) :
  ready2 H e r b ->
  get_opt b (lit "prompt") = Str s -> trim s <> [] ->
  Variant2.resolveDims (sizing_of (get_opt b)) = Ok d ->
  exists c,
    snd (fetch2 H e r) = [c] /\
    c = {| call_model := selected2 (get_opt b (lit "model"));
           call_prompt := trim s;
           call_width := width d;
           call_height := height d |} /\
    status (fst (fetch2 H e r)) =
    match AI_run e c with Some _ => 200 | None => 500 end.
Proof.
  intros R P T D. rewrite (fetch2_ready R).
  assert (O : or_else (get_opt b (lit "prompt")) (Str []) = Str s).
  { rewrite P. unfold or_else. cbn [to_boolean].
    destruct s; [now destruct T | reflexivity]. }
  rewrite O, D. revert T.
  destruct (trim s) as [| c t]; intros T; [contradiction|].
  cbv zeta. eexists. split; [|split; [reflexivity|]].
  - destruct (AI_run e _); reflexivity.
  - destruct (AI_run e _); reflexivity.
Qed.

(** C2 (as amended).  In the first variant every model identifier passed to
    the backend is a member of the allow-list: the request's model when the
    allow-list has it, the default otherwise, and a request with a valid
    prompt goes on to the backend whatever the model field is.  In the
    second variant there is no allow-list: a model field that is a string
    is passed as it is, and the default replaces only a model that is not a
    string. *)
Theorem C2_model_selection (H : helpers) (e : env) (r : request) :
  (forall o c,
      fetch1 H e r = Ok o -> In c (snd o) ->
      exists b,
        json_body r = Some b /\
        call_model c =
        (if set_has MODEL_WHITELIST (get (or_else b (Obj [])) (lit "model"))
         then get (or_else b (Obj [])) (lit "model")
         else Str DEFAULT_MODEL) /\
        exists m, call_model c = Str m /\ In m MODEL_WHITELIST) /\
  (forall b s d,
      ready1 H e r b ->
      get (or_else b (Obj [])) (lit "prompt") = Str s ->
      trim s <> [] -> JSString.length (trim s) <= 800 ->
      Variant1.pickDims (sizing_of (get (or_else b (Obj [])))) = Ok d ->
      exists o c,
        fetch1 H e r = Ok o /\ snd o = [c] /\
        status (fst o) =
        match AI_run e c with Some _ => 200 | None => 500 end) /\
  (forall c,
      In c (snd (fetch2 H e r)) ->
      exists b,
        json_body r = Some b /\
        call_model c =
        match get_opt b (lit "model") with
        | Str m => Str m
        | _ => Str DEFAULT_MODEL
        end).
Proof.
  split; [|split].
  - intros o c E I.
    destruct (@fetch1_calls H e r o c E I) as (b & p & d & B & _ & _ & ->).
    exists b. split; [assumption|]. split; [reflexivity|].
    apply selected1_listed.
  - intros b s d R P T L D. rewrite (fetch1_accepts R P T L), D. cbn [bind].
    eexists. eexists. split; [reflexivity|].
    split; [apply generate1_calls | apply generate1_status].
  - intros c I. apply fetch2_calls in I as (b & p & d & B & _ & _ & ->).
    exists b. split; [assumption|]. cbn [call_model]. unfold selected2.
    now destruct (get_opt b (lit "model")).
Qed.

(** The claim C2 as stated fails in the second variant: the model
    "not-a-real-model" is not in the allow-list and is passed to the
    backend. *)
Lemma C2_counterexample_unlisted_model :
  let b := Obj [ (lit "prompt", Str (lit "x"));
                 (lit "model", Str (lit "not-a-real-model")) ] in
  let o := fetch2 sample_helpers sample_env (sample_post b) in
  map call_model (snd o) = [Str (lit "not-a-real-model")] /\
  ~ In (lit "not-a-real-model") MODEL_WHITELIST /\
  status (fst o) = 200.
Proof.
  intros b o. split; [vm_compute; reflexivity|]. split; [|vm_compute; reflexivity].
  intros I. repeat (destruct I as [I | I]; [discriminate I|]). exact I.
Qed.

(** C3 (as amended).  Both variants answer OPTIONS with 204 and no body.
    The first variant answers any other request whose method is not POST or
    whose path is not "/" with 405 and an Allow header "POST, OPTIONS".  The
    second variant checks the bearer token first: a request other than
    OPTIONS whose Authorization header is not exactly "Bearer " followed by
    the key gets 401, and only with that header does a method other than
    POST or a path other than "/" get 405 with the Allow header. *)
Theorem C3_method_gate (H : helpers) (e : env) (r : request) :
  (method r = lit "OPTIONS" ->
   (exists o, fetch1 H e r = Ok o /\
              status (fst o) = 204 /\ resp_body (fst o) = NoBody) /\
   status (fst (fetch2 H e r)) = 204 /\ resp_body (fst (fetch2 H e r)) = NoBody) /\
  (method r <> lit "OPTIONS" ->
   method r <> lit "POST" \/ pathname r <> lit "/" ->
   exists o, fetch1 H e r = Ok o /\
             status (fst o) = 405 /\
             header_get (resp_headers (fst o)) (lit "Allow")
             = Some (lit "POST, OPTIONS")) /\
  (method r <> lit "OPTIONS" ->
   authorization r <> Some (lit "Bearer " ++ API_KEY e) ->
   status (fst (fetch2 H e r)) = 401) /\
  (method r <> lit "OPTIONS" ->
   authorization r = Some (lit "Bearer " ++ API_KEY e) ->
   method r <> lit "POST" \/ pathname r <> lit "/" ->
   status (fst (fetch2 H e r)) = 405 /\
   header_get (resp_headers (fst (fetch2 H e r))) (lit "Allow")
   = Some (lit "POST, OPTIONS")).
Proof.
  split; [|split; [|split]].
  - intros M. unfold fetch1, fetch2. rewrite M, str_eqb_refl.
    split; [|split; reflexivity]. eexists. split; [reflexivity|].
    split; reflexivity.
  - intros M G. unfold fetch1. apply str_eqb_false in M. rewrite M.
    assert (C : negb (str_eqb (pathname r) (lit "/"))
                || negb (str_eqb (method r) (lit "POST")) = true).
    { destruct G as [G | G]; apply str_eqb_false in G; rewrite G;
        [apply orb_true_r | reflexivity]. }
    rewrite C. eexists. split; [reflexivity|]. split; reflexivity.
  - intros M A. unfold fetch2. apply str_eqb_false in M. rewrite M.
    assert (C : match authorization r with
                | Some auth => str_eqb auth (lit "Bearer " ++ API_KEY e)
                | None => false
                end = false).
    { destruct (authorization r) as [a|]; [|reflexivity].
      apply str_eqb_false. intros E. apply A. now rewrite E. }
    rewrite C. reflexivity.
  - intros M A G. unfold fetch2. apply str_eqb_false in M.
    rewrite M, A, str_eqb_refl. cbn [negb].
    assert (C : negb (str_eqb (method r) (lit "POST"))
                || negb (str_eqb (pathname r) (lit "/")) = true).
    { destruct G as [G | G]; apply str_eqb_false in G; rewrite G;
        [reflexivity | apply orb_true_r]. }
    rewrite C. split; reflexivity.
Qed.

(** The claim C3 as stated fails in the second variant: a GET of "/"
    without an Authorization header gets 401, not 405, and no Allow
    header. *)
Lemma C3_counterexample_get_unauthorized :
  let r := {| method := lit "GET"; pathname := lit "/";
              authorization := None; content_type := None;
              json_body := None |} in
  let o := fetch2 sample_helpers sample_env r in
  method r <> lit "OPTIONS" /\ method r <> lit "POST" /\
  status (fst o) = 401 /\
  header_get (resp_headers (fst o)) (lit "Allow") = None.
Proof.
  intros r o. repeat split; try (vm_compute; reflexivity);
    intros E; discriminate E.
Qed.

(** C4 (as amended).  For an authenticated POST of "/" with a JSON content
    type and a parsed body, the first variant answers 400 when the prompt is
    not a string or is empty once trimmed, 413 when the trimmed prompt has
    more than 800 code units, and otherwise goes on to dimension resolution
    and calls the backend with the trimmed prompt.  The second variant
    answers 400 when the prompt is falsy or is a string that is empty once
    trimmed, and goes on with the trimmed prompt for every other string: it
    has no length limit. *)
Theorem C4_prompt_validation (H : helpers) (e : env) (r : request) (b : value) :
  (ready1 H e r b ->
   ((forall s, get (or_else b (Obj [])) (lit "prompt") <> Str s) ->
    exists o, fetch1 H e r = Ok o /\ status (fst o) = 400 /\ snd o = []) /\
   (forall s,
       get (or_else b (Obj [])) (lit "prompt") = Str s ->
       (trim s = [] ->
        exists o, fetch1 H e r = Ok o /\ status (fst o) = 400 /\ snd o = []) /\
       (800 < JSString.length (trim s) ->
        exists o, fetch1 H e r = Ok o /\ status (fst o) = 413 /\ snd o = []) /\
       (trim s <> [] -> JSString.length (trim s) <= 800 ->
        forall d,
          Variant1.pickDims (sizing_of (get (or_else b (Obj [])))) = Ok d ->
          exists o c,
            fetch1 H e r = Ok o /\ snd o = [c] /\ call_prompt c = trim s))) /\
  (ready2 H e r b ->
   (to_boolean (get_opt b (lit "prompt")) = false ->
    status (fst (fetch2 H e r)) = 400 /\ snd (fetch2 H e r) = []) /\
   (forall s,
       get_opt b (lit "prompt") = Str s ->
       (trim s = [] ->
        status (fst (fetch2 H e r)) = 400 /\ snd (fetch2 H e r) = []) /\
       (trim s <> [] ->
        forall d,
          Variant2.resolveDims (sizing_of (get_opt b)) = Ok d ->
          exists c, snd (fetch2 H e r) = [c] /\ call_prompt c = trim s))).
Proof.
  split.
  - intros R. split.
    + intros N. rewrite (fetch1_not_string R N). eexists.
      split; [reflexivity|]. now split.
    + intros s P. split; [|split].
      * intros T. rewrite (fetch1_blank R P T). eexists.
        split; [reflexivity|]. now split.
      * intros L. rewrite (fetch1_too_long R P L). eexists.
        split; [reflexivity|]. now split.
      * intros T L d D. rewrite (fetch1_accepts R P T L), D. cbn [bind].
        eexists. eexists. split; [reflexivity|].
        split; [apply generate1_calls | reflexivity].
  - intros R. split.
    + intros F.
      assert (O : or_else (get_opt b (lit "prompt")) (Str []) = Str [])
        by (unfold or_else; now rewrite F).
      now rewrite (fetch2_blank R O eq_refl).
    + intros s P. split.
      * intros T.
        assert (O : or_else (get_opt b (lit "prompt")) (Str []) = Str s).
        { rewrite P. unfold or_else. cbn [to_boolean].
          destruct s; reflexivity. }
        now rewrite (fetch2_blank R O T).
      * intros T d D. destruct (fetch2_accepts R P T D) as (c & S & -> & _).
        eexists. split; [exact S | reflexivity].
Qed.

(** In the second variant a prompt that is truthy and not a string makes
    [.trim()] throw; the [catch] answers 500. *)
Lemma fetch2_non_string_prompt (H : helpers) (e : env) (r : request)
    (b : value) :
  ready2 H e r b ->
  to_boolean (get_opt b (lit "prompt")) = true ->
  (forall s, get_opt b (lit "prompt") <> Str s) ->
  fetch2 H e r = (cors (json (lit "Failed to generate image") 500 []), []).
Proof.
  intros R T N. rewrite (fetch2_ready R). unfold or_else. rewrite T.
  destruct (get_opt b (lit "prompt")) as [| | | | s | |]; try reflexivity.
  exfalso. exact (N s eq_refl).
Qed.

(** A width that cannot be converted fails the request in both variants:
    the first handler ends with the TypeError, the second answers 500. *)
Lemma fetch_unconvertible_width :
  let b := Obj [ (lit "prompt", Str (lit "x"));
                 (lit "width", Obj [(lit "toString", Num (of_Z 1))]) ] in
  fetch1 sample_helpers sample_env (sample_post b) = TypeError /\
  status (fst (fetch2 sample_helpers sample_env (sample_post b))) = 500.
Proof. intros b. split; vm_compute; reflexivity. Qed.

(** With an explicit width and height and a longEdge that cannot be
    converted, the first variant answers with the image and the second
    answers 500. *)
Lemma fetch_unconvertible_longEdge :
  let b := Obj [ (lit "prompt", Str (lit "x"));
                 (lit "width", Num (of_Z 512)); (lit "height", Num (of_Z 512));
                 (lit "longEdge", Obj [(lit "toString", Num (of_Z 1))]) ] in
  (exists o, fetch1 sample_helpers sample_env (sample_post b) = Ok o /\
             status (fst o) = 200) /\
  status (fst (fetch2 sample_helpers sample_env (sample_post b))) = 500.
Proof.
  intros b. split; [|vm_compute; reflexivity].
  destruct (fetch1 sample_helpers sample_env (sample_post b)) as [o|] eqn:E.
  - exists o. split; [reflexivity|]. revert E. vm_compute. now intros [= <-].
  - revert E. vm_compute. discriminate.
Qed.

(** The claim C4 as stated fails in the second variant: a prompt of 801
    code units is not answered with 413, it is sent to the backend. *)
Lemma C4_counterexample_long_prompt :
  let p := repeat 97%N 801 in
  let o := fetch2 sample_helpers sample_env
             (sample_post (Obj [(lit "prompt", Str p)])) in
  JSString.length (trim p) = 801 /\
  status (fst o) = 200 /\
  map call_prompt (snd o) = [p].
Proof. intros p o. repeat split; vm_compute; reflexivity. Qed.

End Handler.

(** ** Header lists *)
Module HeaderFacts.

Import JSNumber JSString JSValue Http Contract.
Import Handler.
Local Open Scope Z_scope.

Lemma header_get_set_same (h : headers) (k v : jsstring) :
  header_get (header_set h k v) k = Some v.
Proof.
  induction h as [| [k0 v0] rest IH]; cbn [header_set header_get].
  - now rewrite str_eqb_refl.
  - destruct (str_eqb k0 k) eqn:E; cbn [header_get]; rewrite E;
      [reflexivity | exact IH].
Qed.

Lemma header_get_set_other (h : headers) (k k' v : jsstring) :
  k <> k' -> header_get (header_set h k v) k' = header_get h k'.
Proof.
  intros N. induction h as [| [k0 v0] rest IH]; cbn [header_set header_get].
  - apply str_eqb_false in N. now rewrite N.
  - destruct (str_eqb k0 k) eqn:E; cbn [header_get].
    + apply str_eqb_true in E. subst k0.
      apply str_eqb_false in N. now rewrite N.
    + now rewrite IH.
Qed.


(** Looking a header up after a spread: the last binding of the spread
    object wins over the base. *)
Lemma header_get_spread (extra base : headers) (k : jsstring) :
  header_get (spread base extra) k =
  match last_binding extra k with
  | Some v => Some v
  | None => header_get base k
  end.
Proof.
  unfold spread, last_binding. revert base.
  induction extra as [| [k1 v1] ex IH]; intros base; [reflexivity|].
  cbn [fold_left fst snd rev]. rewrite IH.
  assert (A : forall l, header_get (l ++ [(k1, v1)]) k =
                        match header_get l k with
                        | Some v => Some v
                        | None => if str_eqb k1 k then Some v1 else None
                        end).
  { induction l as [| [k2 v2] l IHl]; cbn [app header_get]; [reflexivity|].
    now destruct (str_eqb k2 k). }
  rewrite A. destruct (header_get (rev ex) k); [reflexivity|].
  destruct (str_eqb k1 k) eqn:E.
  - apply str_eqb_true in E. subst. apply header_get_set_same.
  - apply str_eqb_false in E. now apply header_get_set_other.
Qed.

Lemma has_cors_cors (r : response) : has_cors (cors r).
Proof.
  intros k v I. unfold cors. cbn [resp_headers].
  destruct I as [[= <- <-] | [[= <- <-] | [[= <- <-] | [[= <- <-] | []]]]].
  - rewrite !header_get_set_other by discriminate. apply header_get_set_same.
  - rewrite !header_get_set_other by discriminate. apply header_get_set_same.
  - rewrite !header_get_set_other by discriminate. apply header_get_set_same.
  - apply header_get_set_same.
Qed.

Lemma cors_keeps (r : response) (k : jsstring) :
  ~ In k (map fst CORS_HEADERS) ->
  header_get (resp_headers (cors r)) k = header_get (resp_headers r) k.
Proof.
  intros N. unfold cors. cbn [resp_headers].
  rewrite !header_get_set_other; [reflexivity | | | |];
    intros <-; apply N; cbn; tauto.
Qed.

End HeaderFacts.

(** ** Arithmetic that does not give NaN *)
Module ShapeFacts.

Import JSNumber JSValue Contract NumberFacts.
Local Open Scope Z_scope.

Lemma to_double_not_NaN (neg : bool) (mag : Q) : to_double neg mag <> NaN.
Proof.
  unfold to_double, zero.
  repeat match goal with
         | |- context [if ?c then _ else _] => destruct c
         end; discriminate.
Qed.

Lemma Qabs_eq_0 (q : Q) : Qeq_bool (Qabs q) 0 = Qeq_bool q 0.
Proof.
  apply eq_true_iff_eq. rewrite !Qeq_bool_iff.
  apply Qabs_case; intros; split; intros; lra.
Qed.

Lemma shape_finite (x : number) :
  isFinite x = true -> exists s m, shape_of x = SFin s m.
Proof. destruct x; try discriminate; intros _; simpl; eauto. Qed.

Lemma shape_truthy (y : number) :
  truthy y = true ->
  (exists b, y = Inf b) \/
  (exists q, y = Fin q /\ Qeq_bool (Qabs q) 0 = false).
Proof.
  destruct y as [| b | | q]; try discriminate; intros T; [left; eauto|].
  right. exists q. split; [reflexivity|]. rewrite Qabs_eq_0.
  simpl in T. now destruct (Qeq_bool q 0).
Qed.

(** A finite number divided by a truthy one is not NaN. *)
Lemma div_not_NaN (x y : number) :
  isFinite x = true -> truthy y = true -> div x y <> NaN.
Proof.
  intros F T. destruct (shape_finite x F) as (s & m & Sx). unfold div.
  rewrite Sx. destruct (shape_truthy y T) as [[b ->] | (q & -> & Z)].
  - simpl. unfold zero. destruct (xorb s b); discriminate.
  - cbn [shape_of]. rewrite Z. apply to_double_not_NaN.
Qed.

(** The product of two finite numbers is not NaN. *)
Lemma mul_finite_not_NaN (x y : number) :
  isFinite x = true -> isFinite y = true -> mul x y <> NaN.
Proof.
  intros Fx Fy. destruct (shape_finite x Fx) as (s & m & Sx).
  destruct (shape_finite y Fy) as (s' & m' & Sy). unfold mul.
  rewrite Sx, Sy. apply to_double_not_NaN.
Qed.

(** Neither is the product of a truthy finite number and a truthy one. *)
Lemma mul_truthy_not_NaN (x y : number) :
  isFinite x = true -> truthy x = true -> truthy y = true -> mul x y <> NaN.
Proof.
  intros F Tx Ty. destruct (shape_truthy x Tx) as [[b ->] | (p & -> & Zp)];
    [discriminate F|].
  destruct (shape_truthy y Ty) as [[b ->] | (q & -> & Zq)].
  - unfold mul. cbn [shape_of]. rewrite Zp. discriminate.
  - apply mul_finite_not_NaN; reflexivity.
Qed.

Lemma round_integral (x : number) : x <> NaN -> integral (round x).
Proof.
  destruct x as [| b | | q]; intros N; [contradiction | | |].
  - right. left. now exists b.
  - now left.
  - unfold round.
    destruct ((Qfloor (q + (1 # 2)) =? 0) && Qltb q 0); [now left|].
    right. right. now eexists.
Qed.

Lemma round_half_even_nonneg (q : Q) : (0 <= q)%Q -> 0 <= round_half_even q.
Proof.
  intros H. unfold round_half_even.
  assert (F : 0 <= Qfloor q).
  { change 0 with (Qfloor (inject_Z 0)). now apply Qfloor_resp_le. }
  destruct (Qcompare _ _); [destruct (Z.even _)| |]; lia.
Qed.

(** Rounding a magnitude to binary64 gives +0, +Infinity or a positive
    number. *)
Lemma to_double_nonnegative (mag : Q) :
  (0 <= mag)%Q -> nonnegative (to_double false mag).
Proof.
  intros H. unfold to_double.
  destruct (Qle_bool mag 0) eqn:Z; [now left|].
  set (e := Z.max (ilog2 mag - 52) (-1074)).
  set (m := round_half_even (mag / 2 ^ e)).
  destruct (Qle_bool (2 ^ 1024) _); [right; now left|].
  destruct (Z.eqb_spec m 0) as [|M]; [now left|].
  right. right. eexists. split; [reflexivity|].
  assert (P : (0 < 2 ^ e)%Q) by (apply Qpower.Qpower_0_lt; reflexivity).
  assert (M' : 0 <= m).
  { apply round_half_even_nonneg. apply Qle_shift_div_l; [exact P|]. lra. }
  cbn [this Q2Qc]. rewrite Qred_correct.
  apply Qmult_lt_0_compat; [|exact P].
  change 0%Q with (inject_Z 0). rewrite <- Zlt_Qlt. lia.
Qed.

Lemma positive_finite_Fin (n : number) :
  Spec.positive_finite n = true -> exists q : Qc, n = Fin q /\ (0 < q)%Q.
Proof.
  unfold Spec.positive_finite. intros H. apply andb_prop in H as [F G].
  destruct n as [| b | | q]; try discriminate.
  exists q. split; [reflexivity|]. now apply gt_0_positive.
Qed.

Lemma div_positive (a b : Qc) :
  (0 < a)%Q -> (0 < b)%Q -> nonnegative (div (Fin a) (Fin b)).
Proof.
  intros A B. unfold div. cbn [shape_of].
  rewrite !Qltb_false_nonneg by lra. rewrite Qabs_eq_0.
  assert (Z : Qeq_bool b 0 = false).
  { apply not_true_is_false. intros E. apply Qeq_bool_iff in E. lra. }
  rewrite Z. cbn [xorb]. apply to_double_nonnegative.
  apply Qle_shift_div_l; [rewrite Qabs_pos; lra|].
  rewrite Qmult_0_l. apply Qabs_nonneg.
Qed.

End ShapeFacts.

(** ** Integers that a number holds exactly *)
Module ExactFacts.

Import JSNumber JSValue Contract NumberFacts ShapeFacts.
Local Open Scope Z_scope.

Lemma ilog2_of_Z (z : Z) : 0 < z -> ilog2 (inject_Z z) = Z.log2 z.
Proof.
  intros H. unfold ilog2. cbn [Qnum Qden inject_Z].
  change (Z.log2 (Z.pos 1)) with 0. rewrite Z.sub_0_r.
  pose proof (Z.log2_nonneg z) as L.
  assert (E : Qle_bool (2 ^ Z.log2 z) (inject_Z z) = true).
  { apply Qle_bool_iff. change 2%Q with (inject_Z 2).
    rewrite <- Qpower.Zpower_Qpower by lia. rewrite <- Zle_Qle.
    apply Z.log2_spec. lia. }
  now rewrite E.
Qed.

Lemma round_half_even_Z (q : Q) (m : Z) :
  (q == inject_Z m)%Q -> round_half_even q = m.
Proof.
  intros E. unfold round_half_even. rewrite (Qfloor_comp _ _ E), Qfloor_Z.
  assert (C : Qcompare (q - inject_Z m) (1 # 2) = Lt).
  { apply Qlt_alt. rewrite E. unfold Qminus. now rewrite Qplus_opp_r. }
  now rewrite C.
Qed.

(** An integer below 2^53 is a binary64 value: rounding leaves it. *)
Lemma to_double_of_Z (neg : bool) (z : Z) :
  0 < z < 2 ^ 53 ->
  to_double neg (inject_Z z) = of_Z (if neg then - z else z).
Proof.
  intros [Hp Hb]. unfold to_double. cbv zeta.
  assert (Z0 : Qle_bool (inject_Z z) 0 = false).
  { apply not_true_is_false. intros E. apply Qle_bool_iff in E.
    change 0%Q with (inject_Z 0) in E. rewrite <- Zle_Qle in E. lia. }
  rewrite Z0, ilog2_of_Z by lia.
  pose proof (Z.log2_nonneg z) as L0.
  assert (L1 : Z.log2 z < 53) by (apply Z.log2_lt_pow2; lia).
  rewrite Z.max_l by lia.
  set (k := 52 - Z.log2 z).
  assert (K : 0 < 2 ^ k) by (apply Z.pow_pos_nonneg; unfold k; lia).
  assert (K' : ~ (inject_Z (2 ^ k) == 0)%Q).
  { change 0%Q with (inject_Z 0). rewrite inject_Z_injective. lia. }
  assert (E2 : (2 ^ (Z.log2 z - 52) == / inject_Z (2 ^ k))%Q).
  { replace (Z.log2 z - 52) with (- k) by (unfold k; lia).
    rewrite Qpower.Qpower_opp. change 2%Q with (inject_Z 2).
    rewrite <- Qpower.Zpower_Qpower by (unfold k; lia). reflexivity. }
  assert (M : (inject_Z z / 2 ^ (Z.log2 z - 52) == inject_Z (z * 2 ^ k))%Q).
  { rewrite E2, inject_Z_mult. now field. }
  rewrite (round_half_even_Z M).
  assert (V : (inject_Z (z * 2 ^ k) * 2 ^ (Z.log2 z - 52) == inject_Z z)%Q).
  { rewrite E2, inject_Z_mult. now field. }
  assert (O : Qle_bool (2 ^ 1024) (inject_Z (z * 2 ^ k) * 2 ^ (Z.log2 z - 52))
              = false).
  { apply not_true_is_false. intros E. apply Qle_bool_iff in E.
    rewrite V in E. change 2%Q with (inject_Z 2) in E.
    rewrite <- Qpower.Zpower_Qpower in E by lia. rewrite <- Zle_Qle in E.
    assert (2 ^ 53 < 2 ^ 1024) by (apply Z.pow_lt_mono_r; lia). lia. }
  rewrite O.
  destruct (Z.eqb_spec (z * 2 ^ k) 0) as [N|_]; [nia|].
  unfold of_Z. f_equal. apply Q2Qc_eq_iff.
  destruct neg; rewrite V; [now rewrite inject_Z_opp | reflexivity].
Qed.

Lemma Qabs_of_Z (z : Z) : 0 <= z -> Qabs (inject_Z z) = inject_Z z.
Proof. intros H. unfold Qabs, inject_Z. now rewrite Z.abs_eq. Qed.

Lemma shape_of_Z (z : Z) : 0 <= z -> shape_of (of_Z z) = SFin false (inject_Z z).
Proof.
  intros H. unfold shape_of, of_Z. rewrite this_of_Z, Qabs_of_Z by assumption.
  rewrite Qltb_false_nonneg; [reflexivity|].
  change 0%Q with (inject_Z 0). now rewrite <- Zle_Qle.
Qed.

(** Division and multiplication by 1 are exact on such an integer. *)
Lemma div_1 (z : Z) : 0 < z < 2 ^ 53 -> div (of_Z z) (of_Z 1) = of_Z z.
Proof.
  intros H. unfold div. rewrite !shape_of_Z by lia.
  change (Qeq_bool (inject_Z 1) 0) with false. cbn [xorb].
  replace (inject_Z z / inject_Z 1)%Q with (inject_Z z).
  - now rewrite to_double_of_Z.
  - unfold Qdiv, Qmult, Qinv, inject_Z. cbn [Qnum Qden]. now rewrite Z.mul_1_r.
Qed.

Lemma mul_1 (z : Z) : 0 < z < 2 ^ 53 -> mul (of_Z z) (of_Z 1) = of_Z z.
Proof.
  intros H. unfold mul. rewrite !shape_of_Z by lia. cbn [xorb].
  replace (inject_Z z * inject_Z 1)%Q with (inject_Z z).
  - now rewrite to_double_of_Z.
  - unfold Qmult, inject_Z. cbn [Qnum Qden]. now rewrite Z.mul_1_r.
Qed.

End ExactFacts.

(** ** The clamp, the fallback and [parseDim] on numbers *)
Module ClampFacts.

Import JSNumber JSString StringToNumber JSValue JSBuiltin Spec Contract.
Import NumberFacts StringFacts Conversion DimFacts ShapeFacts ExactFacts.
Local Open Scope Z_scope.

Lemma clamp_Fin (lo hi q : Qc) :
  (lo <= hi)%Q ->
  exists r : Qc,
    min (Fin hi) (max (Fin lo) (Fin q)) = Fin r /\
    (lo <= r)%Q /\ (r <= hi)%Q /\
    ((q <= lo)%Q -> r = lo) /\ ((hi <= q)%Q -> r = hi) /\
    ((lo <= q)%Q -> (q <= hi)%Q -> r = q).
Proof.
  intros H. unfold max. cbn [cmp is_neg_zero]. unfold Qccompare.
  destruct (Qcompare_spec lo q) as [E | L | G]; unfold min; cbn [cmp is_neg_zero];
    unfold Qccompare.
  - destruct (Qcompare_spec hi lo) as [E' | L' | G'].
    + exists lo. repeat split; intros; try lra; try (apply Qc_is_canon; lra).
    + exists hi. repeat split; intros; try lra; try (apply Qc_is_canon; lra).
    + exists lo. repeat split; intros; try lra; try (apply Qc_is_canon; lra).
  - destruct (Qcompare_spec hi q) as [E' | L' | G'].
    + exists q. repeat split; intros; try lra; try (apply Qc_is_canon; lra).
    + exists hi. repeat split; intros; try lra; try (apply Qc_is_canon; lra).
    + exists q. repeat split; intros; try lra; try (apply Qc_is_canon; lra).
  - destruct (Qcompare_spec hi lo) as [E' | L' | G'].
    + exists lo. repeat split; intros; try lra; try (apply Qc_is_canon; lra).
    + exists hi. repeat split; intros; try lra; try (apply Qc_is_canon; lra).
    + exists lo. repeat split; intros; try lra; try (apply Qc_is_canon; lra).
Qed.

Lemma of_Z_clamped (z : Z) : 256 <= z <= 2048 -> clamped (of_Z z).
Proof.
  intros H. right. eexists. split; [reflexivity|].
  rewrite this_of_Z, <- !Zle_Qle. lia.
Qed.

Lemma clamp_v_clamped (v : value) :
  clamped (Value.clamp_v v Variant1.MIN_DIM Variant1.MAX_DIM).
Proof.
  unfold Value.clamp_v, Variant1.MIN_DIM, Variant1.MAX_DIM.
  destruct (to_number v) as [| b | | q].
  - now left.
  - destruct b; [apply (@of_Z_clamped 256) | apply (@of_Z_clamped 2048)]; lia.
  - apply (@of_Z_clamped 256). lia.
  - unfold of_Z.
    destruct (@clamp_Fin (Q2Qc (inject_Z 256)) (Q2Qc (inject_Z 2048)) q)
      as (r & -> & L & U & _).
    { rewrite !this_of_Z, <- Zle_Qle. lia. }
    right. exists r. rewrite !this_of_Z in L, U. now repeat split.
Qed.

Lemma pickDims_v_clamped (a : sizing) :
  clamped (width (Value.pickDims_v a)) /\ clamped (height (Value.pickDims_v a)).
Proof.
  unfold Value.pickDims_v. cbv zeta.
  destruct (_ && _); cbn [width height]; unfold Value.finalize1_v;
    split; apply clamp_v_clamped.
Qed.

Lemma parse_nonnegative (v : value) (r : number) :
  Variant1.parseAspectRatio1 v = Some r -> nonnegative r.
Proof.
  intros H.
  apply AspectRatio.parse_Some in H
    as (s & -> & [(_ & P & ->) | (a & b & more & _ & Pa & Pb & ->)]).
  - apply positive_finite_Fin in P as (q & -> & Q). right. right. eauto.
  - apply positive_finite_Fin in Pa as (qa & -> & Qa).
    apply positive_finite_Fin in Pb as (qb & -> & Qb).
    now apply div_positive.
Qed.

(** The ratio of [pickDims] is +Infinity or a positive rational. *)
Lemma ratio1_positive (v : value) :
  Variant1.ratio1 v = Inf false \/
  exists q : Qc, Variant1.ratio1 v = Fin q /\ (0 < q)%Q.
Proof.
  assert (One : exists q : Qc, of_Z 1 = Fin q /\ (0 < q)%Q).
  { eexists. split; [reflexivity|]. rewrite this_of_Z. reflexivity. }
  unfold Variant1.ratio1.
  destruct (Variant1.parseAspectRatio1 v) as [r|] eqn:P; [|now right].
  apply parse_nonnegative in P as [-> | [-> | (q & -> & Q)]].
  - now right.
  - now left.
  - destruct (truthy (Fin q)); right; eauto.
Qed.

Lemma isInteger_integral (n : number) :
  isInteger n = true -> integral n /\ isFinite n = true.
Proof.
  destruct n as [| b | | q]; try discriminate; intros I.
  - split; [now left | reflexivity].
  - split; [|reflexivity]. right. right. exists (Qfloor q).
    apply Qeq_bool_iff in I. unfold of_Z. f_equal. apply Qc_is_canon.
    rewrite this_of_Z. now symmetry.
Qed.

Lemma clamp_v_of_Z (z : Z) :
  Value.clamp_v (Num (of_Z z)) Variant1.MIN_DIM Variant1.MAX_DIM
  = of_Z (clampZ z).
Proof.
  unfold Value.clamp_v, Variant1.MIN_DIM, Variant1.MAX_DIM.
  cbn [to_number]. now rewrite max_of_Z, min_of_Z.
Qed.

Lemma of_Z_valid (z : Z) : valid_dim (of_Z (clampZ z)).
Proof. exists (clampZ z). split; [reflexivity | apply clampZ_range]. Qed.

(** The fallback and the clamp make a valid dimension of an integer, an
    infinity and -0. *)
Lemma finalize1_integral (x : number) :
  integral x -> valid_dim (Value.finalize1_v (Num x) (of_Z 1024)).
Proof.
  unfold Value.finalize1_v, or_else. cbn [to_boolean].
  intros [-> | [[b ->] | [z ->]]].
  - cbn [truthy]. rewrite clamp_v_of_Z. apply of_Z_valid.
  - cbn [truthy]. destruct b; [exists 256 | exists 2048]; split;
      try reflexivity; lia.
  - rewrite truthy_of_Z. destruct (z =? 0); cbn [negb];
      rewrite clamp_v_of_Z; apply of_Z_valid.
Qed.

Lemma pickDims_v_unfold (a : sizing) :
  Value.pickDims_v a =
  let w := to_number (s_width a) in
  let h := to_number (s_height a) in
  if positive_integer w && positive_integer h then
    {| width := Value.clamp_v (Num w) Variant1.MIN_DIM Variant1.MAX_DIM;
       height := Value.clamp_v (Num h) Variant1.MIN_DIM Variant1.MAX_DIM |}
  else
    let d := Value.derive1_v w h (Variant1.ratio1 (s_aspectRatio a))
               (Variant1.longEdge_param (s_longEdge a)) in
    {| width := Value.finalize1_v (fst d) (of_Z 1024);
       height := Value.finalize1_v (snd d) (of_Z 1024) |}.
Proof.
  unfold Value.pickDims_v, positive_integer. cbv zeta.
  destruct (isInteger (to_number (s_width a))),
    (isInteger (to_number (s_height a))),
    (gt (to_number (s_width a)) (of_Z 0)),
    (gt (to_number (s_height a)) (of_Z 0)); reflexivity.
Qed.

Lemma derive1_v_unfold (w h ar : number) (longEdge : value) :
  Value.derive1_v w h ar longEdge =
  if positive_integer w then (Num w, Num (round (div w ar)))
  else if positive_integer h then (Num (round (mul h ar)), Num h)
  else if truthy ar then
    if ge ar (of_Z 1)
    then (longEdge, Num (round (div (to_number longEdge) ar)))
    else (Num (round (mul (to_number longEdge) ar)), longEdge)
  else (Num w, Num h).
Proof. reflexivity. Qed.

Lemma positive_integer_facts (n : number) :
  positive_integer n = true ->
  integral n /\ isFinite n = true /\ truthy n = true.
Proof.
  intros P. apply positive_integer_of_Z in P as (z & -> & Z).
  split; [right; right; now exists z|]. split; [reflexivity|].
  rewrite truthy_of_Z. destruct (Z.eqb_spec z 0); [lia | reflexivity].
Qed.

Lemma pickDims_v_valid (a : sizing) :
  Number_isInteger (Variant1.longEdge_param (s_longEdge a)) = true ->
  valid_dim (width (Value.pickDims_v a)) /\
  valid_dim (height (Value.pickDims_v a)).
Proof.
  intros L. rewrite pickDims_v_unfold. cbv zeta.
  set (w := to_number (s_width a)). set (h := to_number (s_height a)).
  set (ar := Variant1.ratio1 (s_aspectRatio a)).
  pose proof (ratio1_truthy (s_aspectRatio a)) as T. fold ar in T.
  destruct (positive_integer w) eqn:Pw.
  - destruct (positive_integer_facts _ Pw) as (Iw & Fw & Tw).
    destruct (positive_integer h) eqn:Ph; cbn [andb].
    + apply positive_integer_of_Z in Pw as (zw & -> & _).
      apply positive_integer_of_Z in Ph as (zh & -> & _).
      cbn [width height]. rewrite !clamp_v_of_Z. split; apply of_Z_valid.
    + rewrite derive1_v_unfold, Pw. cbn [width height fst snd].
      split; apply finalize1_integral; [exact Iw|].
      apply round_integral. now apply div_not_NaN.
  - cbn [andb]. rewrite derive1_v_unfold, Pw.
    destruct (positive_integer h) eqn:Ph.
    + destruct (positive_integer_facts _ Ph) as (Ih & Fh & Th).
      cbn [width height fst snd].
      split; apply finalize1_integral; [|exact Ih].
      apply round_integral. now apply mul_truthy_not_NaN.
    + rewrite T.
      destruct (Variant1.longEdge_param (s_longEdge a)) as [| | | n | | |];
        try discriminate L.
      cbn [Number_isInteger] in L.
      destruct (isInteger_integral _ L) as [In Fn]. cbn [to_number].
      destruct (ge ar (of_Z 1)) eqn:G; cbn [width height fst snd].
      * split; apply finalize1_integral; [exact In|].
        apply round_integral. now apply div_not_NaN.
      * split; apply finalize1_integral; [|exact In].
        apply round_integral.
        destruct (ratio1_positive (s_aspectRatio a)) as [E | (q & E & _)];
          fold ar in E; rewrite E in *; [discriminate G|].
        now apply mul_finite_not_NaN.
Qed.

Lemma le_0_not_gt (n : number) :
  isFinite n = true -> le n (of_Z 0) = negb (gt n (of_Z 0)).
Proof.
  destruct n as [| b | | q]; try discriminate; intros _; [reflexivity|].
  unfold le, gt. rewrite cmp_Fin_0. now destruct (Qcompare q 0).
Qed.

Lemma dim_of_number_None (n : number) :
  Variant2.dim_of_number (of_Z 256) (of_Z 2048) (of_Z 8) n = None <->
  positive_finite n = false.
Proof.
  unfold Variant2.dim_of_number, positive_finite.
  destruct (isFinite n) eqn:F; cbn [negb orb andb]; [|tauto].
  rewrite (le_0_not_gt _ F). destruct (gt n (of_Z 0)); cbn [negb];
    split; congruence.
Qed.

(** [parseDim_v] depends on the number that its argument converts to
    only. *)
Lemma parseDim_v_number (v : value) :
  Value.parseDim_v v = Value.parseDim_v (Num (to_number v)).
Proof. destruct v; reflexivity. Qed.

Lemma parseDim_v_None (v : value) :
  Value.parseDim_v v = None <-> positive_finite (to_number v) = false.
Proof.
  rewrite parseDim_v_number. unfold Value.parseDim_v.
  apply dim_of_number_None.
Qed.

Lemma align_clamp_facts (z : Z) :
  let r := align8Z (clampZ z) in
  (8 | r) /\ 256 <= r <= 2048 /\
  (z <= 256 -> r = 256) /\ (2048 <= z -> r = 2048) /\
  (256 <= z <= 2048 -> Z.abs (r - z) <= 4 /\ ((8 | z) -> r = z)).
Proof.
  cbv zeta. pose proof (align8Z_range (clampZ_range z)) as [R D].
  split; [exact D|]. split; [exact R|]. split; [|split].
  - intros H. unfold clampZ. rewrite Z.max_l, Z.min_r by lia. reflexivity.
  - intros H. unfold clampZ. rewrite Z.max_r, Z.min_l by lia. reflexivity.
  - intros H. rewrite (clampZ_id H). split; [|apply align8Z_id].
    unfold align8Z. Z.div_mod_to_equations. lia.
Qed.

Lemma align_clamp_mono (a b : Z) :
  a <= b -> align8Z (clampZ a) <= align8Z (clampZ b).
Proof.
  intros H. unfold align8Z. apply Z.mul_le_mono_nonneg_l; [lia|].
  apply Z.div_le_mono; [lia|]. unfold clampZ. lia.
Qed.

Lemma clamp_v_NaN (v : value) :
  Value.clamp_v v Variant1.MIN_DIM Variant1.MAX_DIM = NaN <-> to_number v = NaN.
Proof.
  unfold Value.clamp_v, Variant1.MIN_DIM, Variant1.MAX_DIM.
  destruct (to_number v) as [| b | | q].
  - split; reflexivity.
  - destruct b; split; discriminate.
  - split; discriminate.
  - unfold of_Z.
    destruct (@clamp_Fin (Q2Qc (inject_Z 256)) (Q2Qc (inject_Z 2048)) q)
      as (r & -> & _).
    { rewrite !this_of_Z, <- Zle_Qle. lia. }
    split; discriminate.
Qed.

(** The fallback lets NaN through exactly for a truthy value that converts
    to NaN. *)
Lemma finalize1_v_NaN (x : value) :
  Value.finalize1_v x (of_Z 1024) = NaN <->
  to_boolean x = true /\ to_number x = NaN.
Proof.
  unfold Value.finalize1_v, or_else. rewrite clamp_v_NaN.
  destruct (to_boolean x); cbn [to_number]; split.
  - now split.
  - now intros [_ E].
  - discriminate.
  - intros [E _]. discriminate E.
Qed.

Lemma finalize1_v_Num (n : number) :
  Value.finalize1_v (Num n) (of_Z 1024) <> NaN.
Proof.
  intros E. apply finalize1_v_NaN in E as [T E]. cbn in T, E. subst n.
  discriminate T.
Qed.

Lemma clamp_v_Num (n : number) :
  positive_integer n = true ->
  Value.clamp_v (Num n) Variant1.MIN_DIM Variant1.MAX_DIM <> NaN.
Proof.
  intros P E. apply clamp_v_NaN in E. cbn in E. subst n. discriminate P.
Qed.

End ClampFacts.

(** ** The handlers as tables *)
Module HandlerFacts.

Import JSNumber JSString JSValue Http Gate Contract.
Import Handler HeaderFacts.
Local Open Scope Z_scope.

Lemma selected2_eq (v : value) :
  (if str_eqb (typeof v) (lit "string") then v else Str DEFAULT_MODEL)
  = selected2 v.
Proof. now destruct v. Qed.

(** [fetch1] as a table: the answer of each check that fails, in the order
    of the checks. *)
Lemma fetch1_table (H : helpers) (e : env) (r : request) :
  fetch1 H e r =
  if is_options r then
    Ok (cors {| status := 204; resp_headers := []; resp_body := NoBody |}, [])
  else if negb (is_post_root r) then
    Ok (cors (json (lit "Method not allowed") 405
                [(lit "Allow", lit "POST, OPTIONS")]), [])
  else if negb (bearer_ok1 H e r) then
    Ok (cors (json (lit "Unauthorized") 401
                [(lit "WWW-Authenticate", bearer_challenge)]), [])
  else if negb (is_json_type H (content_type r)) then
    Ok (cors (json (lit "Unsupported Media Type, expected application/json")
                415 []), [])
  else
    match json_body r with
    | None => Ok (cors (json (lit "Invalid JSON body") 400 []), [])
    | Some b =>
        match prompt_of1 b with
        | None | Some [] =>
            Ok (cors (json (lit "Prompt is required (non-empty string)")
                        400 []), [])
        | Some p =>
            if 800 <? JSString.length p then
              Ok (cors (json (lit "Prompt too long (max 800 chars)") 413 []), [])
            else
              match Variant1.pickDims (sizing_of (get (or_else b (Obj [])))) with
              | TypeError => TypeError
              | Ok d => Ok (generate1 H e (call_of1 b p d))
              end
        end
    end.
Proof.
  unfold fetch1, is_options, is_post_root, bearer_ok1, prompt_of1, call_of1,
    selected1.
  destruct (str_eqb (method r) (lit "OPTIONS")); [reflexivity|].
  destruct (str_eqb (method r) (lit "POST")), (str_eqb (pathname r) (lit "/"));
    try reflexivity.
  cbn [negb orb andb]. cbv zeta.
  destruct (to_boolean _); [|reflexivity].
  destruct (safeEqual H _ _); [|reflexivity]. cbn [negb orb andb].
  destruct (negb (is_json_type H (content_type r))); [reflexivity|].
  destruct (json_body r) as [b|]; [|reflexivity].
  destruct (get (or_else b (Obj [])) (lit "prompt")); reflexivity.
Qed.

(** [fetch2] as a table. *)
Lemma fetch2_table (H : helpers) (e : env) (r : request) :
  fetch2 H e r =
  if is_options r then
    (cors {| status := 204; resp_headers := []; resp_body := NoBody |}, [])
  else if negb (bearer_ok2 e r) then
    (cors (json (lit "Unauthorized") 401 []), [])
  else if negb (is_post_root r) then
    (cors (json (lit "Not allowed") 405 [(lit "Allow", lit "POST, OPTIONS")]), [])
  else if negb (is_json_type H (content_type r)) then
    (cors (json (lit "Unsupported Media Type, expected application/json")
             415 []), [])
  else
    match json_body r with
    | None => (cors (json (lit "Failed to generate image") 500 []), [])
    | Some b =>
        match prompt_of2 b with
        | None => (cors (json (lit "Failed to generate image") 500 []), [])
        | Some [] => (cors (json (lit "Prompt is required") 400 []), [])
        | Some p =>
            match Variant2.resolveDims (sizing_of (get_opt b)) with
            | TypeError => (cors (json (lit "Failed to generate image") 500 []), [])
            | Ok d =>
                match AI_run e (call_of2 b p d) with
                | None =>
                    (cors (json (lit "Failed to generate image") 500 []),
                     [call_of2 b p d])
                | Some img =>
                    (cors {| status := 200;
                             resp_headers :=
                               [ (lit "Content-Type", lit "image/png");
                                 (lit "Content-Disposition",
                                   content_disposition H (width d) (height d));
                                 (lit "Cache-Control", lit "no-store") ];
                             resp_body := Image img |}, [call_of2 b p d])
                end
            end
        end
    end.
Proof.
  unfold fetch2, try_block2, is_options, is_post_root, bearer_ok2, prompt_of2,
    call_of2.
  destruct (str_eqb (method r) (lit "OPTIONS")); [reflexivity|].
  destruct (negb (match authorization r with Some _ => _ | None => _ end));
    [reflexivity|].
  destruct (str_eqb (method r) (lit "POST")), (str_eqb (pathname r) (lit "/"));
    try reflexivity.
  cbn [negb orb andb].
  destruct (negb (is_json_type H (content_type r))); [reflexivity|].
  destruct (json_body r) as [b|]; [|reflexivity].
  rewrite selected2_eq.
  destruct (or_else (get_opt b (lit "prompt")) (Str [])); try reflexivity.
  destruct (trim s); [reflexivity|].
  destruct (Variant2.resolveDims _); [|reflexivity].
  cbv zeta. now destruct (AI_run e _).
Qed.

End HandlerFacts.

(** ** The helper [cors] *)
Module Helpers.

Import JSNumber JSString JSValue Http Gate Contract.
Import Handler HeaderFacts.
Local Open Scope Z_scope.



End Helpers.

(** ** The resolvers beyond the specification *)
Module Dimensions.

Import JSNumber JSString StringToNumber JSValue JSBuiltin Spec Contract.
Import NumberFacts StringFacts Conversion DimFacts ShapeFacts ExactFacts
  ClampFacts.
Local Open Scope Z_scope.


(** X11.  When longEdge is absent or is an integer number, and width and height
    can be converted, [pickDims] returns two integers of [256, 2048],
    whatever width, height and aspectRatio are. *)
Theorem pickDims_integer_longEdge (a : sizing) :
  unconvertible (s_width a) = false ->
  unconvertible (s_height a) = false ->
  Number_isInteger (Variant1.longEdge_param (s_longEdge a)) = true ->
  exists d,
    Variant1.pickDims a = Ok d /\ valid_dim (width d) /\ valid_dim (height d).
Proof.
  intros Uw Uh L. rewrite pickDims_eq.
  assert (Ul : unconvertible (s_longEdge a) = false).
  { destruct (s_longEdge a); try reflexivity; discriminate L. }
  unfold Value.pickDims_raises. rewrite Uw, Uh, Ul, andb_false_r. cbn [orb].
  eexists. split; [reflexivity|]. now apply pickDims_v_valid.
Qed.

(** X12.  A ratio that [parseAspectRatio] returns (lines 10-22 and 237-247) is
    +0, +Infinity or a positive number, never NaN and never negative; +0
    and +Infinity are the quotients that underflow and overflow.  The
    ratio that [pickDims] uses ([|| 1]) is never 0; the ratio of the second
    variant ([?? 1]) can be 0. *)
Theorem aspect_ratio_nonnegative :
  (forall v r, Variant1.parseAspectRatio1 v = Some r -> nonnegative r) /\
  (forall v r, Variant2.parseAspectRatio2 v = Some r -> nonnegative r) /\
  (forall v, Variant1.ratio1 v = Inf false \/
             exists q : Qc, Variant1.ratio1 v = Fin q /\ (0 < q)%Q) /\
  (forall v, nonnegative (Variant2.ratio2 v)) /\
  Variant2.parseAspectRatio2 (Str (lit "1e-200:1e200")) = Some (of_Z 0) /\
  Variant1.ratio1 (Str (lit "1e-200:1e200")) = of_Z 1 /\
  Variant2.ratio2 (Str (lit "1e-200:1e200")) = of_Z 0 /\
  Variant2.parseAspectRatio2 (Str (lit "1e200:1e-200")) = Some (Inf false).
Proof.
  split; [|split; [|split; [|split; [|repeat split; vm_compute; reflexivity]]]].
  - apply parse_nonnegative.
  - intros v r.
    change (Variant2.parseAspectRatio2 v) with (Variant1.parseAspectRatio1 v).
    apply parse_nonnegative.
  - apply ratio1_positive.
  - intros v. unfold Variant2.ratio2.
    change (Variant2.parseAspectRatio2 v) with (Variant1.parseAspectRatio1 v).
    destruct (Variant1.parseAspectRatio1 v) as [r|] eqn:P.
    + exact (parse_nonnegative _ P).
    + right. right. eexists. split; [reflexivity|]. rewrite this_of_Z.
      reflexivity.
Qed.

(** X10.  Every dimension that [pickDims] returns (lines 24-57) is NaN or a
    number of [256, 2048], never a number outside the range.  It is NaN in
    one case only: neither [Number(width)] nor [Number(height)] is a
    positive integer, and longEdge is truthy and converts to NaN (a string
    that is not numeric, a plain object); NaN is then the width when the
    ratio is at least 1 and the height otherwise, and never both. *)
Theorem pickDims_NaN_iff (a : sizing) (d : dims) :
  Variant1.pickDims a = Ok d ->
  let le := Variant1.longEdge_param (s_longEdge a) in
  let none_given :=
    negb (positive_integer (to_number (s_width a)))
    && negb (positive_integer (to_number (s_height a))) in
  let landscape := ge (Variant1.ratio1 (s_aspectRatio a)) (of_Z 1) in
  clamped (width d) /\ clamped (height d) /\
  (width d = NaN <->
   none_given = true /\ landscape = true /\
   to_boolean le = true /\ to_number le = NaN) /\
  (height d = NaN <->
   none_given = true /\ landscape = false /\
   to_boolean le = true /\ to_number le = NaN).
Proof.
  rewrite pickDims_eq. destruct (Value.pickDims_raises a); [discriminate|].
  intros [= <-]. cbv zeta.
  split; [apply pickDims_v_clamped|]. split; [apply pickDims_v_clamped|].
  rewrite pickDims_v_unfold. cbv zeta. rewrite derive1_v_unfold.
  rewrite (ratio1_truthy (s_aspectRatio a)).
  destruct (positive_integer (to_number (s_width a))) eqn:Pw;
    destruct (positive_integer (to_number (s_height a))) eqn:Ph;
    cbn [andb negb width height fst snd].
  - split; split; try (intros (E & _); discriminate E);
      intros E; exfalso; revert E; now apply clamp_v_Num.
  - split; split; try (intros (E & _); discriminate E);
      intros E; exfalso; revert E; apply finalize1_v_Num.
  - split; split; try (intros (E & _); discriminate E);
      intros E; exfalso; revert E; apply finalize1_v_Num.
  - pose proof (finalize1_v_NaN (Variant1.longEdge_param (s_longEdge a))) as L.
    destruct (ge (Variant1.ratio1 (s_aspectRatio a)) (of_Z 1));
      cbn [width height fst snd]; split; split; intros E;
      try (exfalso; eapply finalize1_v_Num; eassumption);
      try (destruct E as (_ & E & _); discriminate E); tauto.
Qed.

(** X13.  [parseDim(v)] (lines 227-234) raises exactly when [v] cannot be
    converted, and returns [null] exactly when [Number(v)] is not a finite
    number greater than 0: for [undefined], [null], the empty string, a
    string that is not numeric, [false], 0, a negative number and an
    infinity. *)
Theorem parseDim_null_iff (v : value) :
  (Variant2.parseDim v = TypeError <-> unconvertible v = true) /\
  (Variant2.parseDim v = Ok None <->
   unconvertible v = false /\ positive_finite (to_number v) = false).
Proof.
  rewrite parseDim_eq. destruct (unconvertible v).
  - split; split; try reflexivity; try discriminate. intros [E _]. discriminate E.
  - split; [split; discriminate|]. rewrite <- parseDim_v_None.
    split; [intros [= ->]; now split | intros [_ ->]; reflexivity].
Qed.

(** X14.  [parseDim] looks at its argument through [Number] only: a string, a
    boolean or an array gives what the number it converts to gives; and a
    dimension that [parseDim] has returned goes through [parseDim]
    unchanged. *)
Theorem parseDim_through_Number (v : value) :
  unconvertible v = false ->
  Variant2.parseDim v = Variant2.parseDim (Num (to_number v)) /\
  (forall r, Variant2.parseDim v = Ok (Some r) ->
             Variant2.parseDim (Num r) = Ok (Some r)).
Proof.
  intros U. rewrite !parseDim_eq, U. cbn [unconvertible]. split.
  - f_equal. apply parseDim_v_number.
  - intros r [= E]. rewrite parseDim_eq. cbn [unconvertible]. f_equal.
    apply parseDim_idem. exact (parseDim_aligned _ E).
Qed.

(** X15.  On an integer [z > 0], [parseDim] returns the multiple of 8 nearest to
    [z] clamped to [256, 2048]: 256 up to 256, 2048 from 2048 on, and in
    between a multiple of 8 at most 4 away from [z], which is [z] itself
    when [z] is a multiple of 8.  It is monotone. *)
Theorem parseDim_nearest_multiple :
  (forall z, 0 < z ->
     exists r,
       Variant2.parseDim (Num (of_Z z)) = Ok (Some (of_Z r)) /\
       (8 | r) /\ 256 <= r <= 2048 /\
       (z <= 256 -> r = 256) /\ (2048 <= z -> r = 2048) /\
       (256 <= z <= 2048 -> Z.abs (r - z) <= 4 /\ ((8 | z) -> r = z))) /\
  (forall z1 z2 r1 r2,
     0 < z1 -> z1 <= z2 ->
     Variant2.parseDim (Num (of_Z z1)) = Ok (Some (of_Z r1)) ->
     Variant2.parseDim (Num (of_Z z2)) = Ok (Some (of_Z r2)) ->
     r1 <= r2).
Proof.
  split.
  - intros z H. exists (align8Z (clampZ z)).
    split; [now apply Resolver.parseDim_int | apply align_clamp_facts].
  - intros z1 z2 r1 r2 H1 H2.
    rewrite !Resolver.parseDim_int by lia.
    intros E1 E2.
    assert (A1 : of_Z (align8Z (clampZ z1)) = of_Z r1) by congruence.
    assert (A2 : of_Z (align8Z (clampZ z2)) = of_Z r2) by congruence.
    apply of_Z_inj in A1, A2. subst. now apply align_clamp_mono.
Qed.

Lemma truthy_Some_parseDim (v : value) (r : number) :
  Value.parseDim_v v = Some r -> Variant2.truthy_dim (Value.parseDim_v v) = true.
Proof. intros E. apply truthy_parseDim. eauto. Qed.

(** X16.  When a side is given, longEdge is not consulted.  In [pickDims]: when
    [Number(width)] or [Number(height)] is a positive integer, the result
    (and whether the call raises) is the same for any two values of
    longEdge.  In the second variant: when [parseDim] accepts width or
    height, the result is the same for any two values of longEdge that can
    be converted. *)
Theorem side_given_ignores_longEdge (w h aspectRatio le1 le2 : value) :
  (positive_integer (to_number w) || positive_integer (to_number h) = true ->
   Variant1.pickDims (sized w h aspectRatio le1)
   = Variant1.pickDims (sized w h aspectRatio le2)) /\
  (unconvertible le1 = false -> unconvertible le2 = false ->
   (exists r, Variant2.parseDim w = Ok (Some r)) \/
   (exists r, Variant2.parseDim h = Ok (Some r)) ->
   Variant2.resolveDims (sized w h aspectRatio le1)
   = Variant2.resolveDims (sized w h aspectRatio le2)).
Proof.
  split.
  - intros P. rewrite !pickDims_eq. unfold Value.pickDims_raises, sized.
    cbn [s_width s_height s_longEdge].
    fold (positive_integer (to_number w)). fold (positive_integer (to_number h)).
    rewrite <- !negb_orb, P. cbn [negb andb]. rewrite !orb_false_r.
    destruct (unconvertible w || unconvertible h); [reflexivity|]. f_equal.
    rewrite !pickDims_v_unfold. cbv zeta.
    cbn [s_width s_height s_longEdge s_aspectRatio].
    rewrite !derive1_v_unfold.
    destruct (positive_integer (to_number w)); [reflexivity|].
    cbn [orb] in P. now rewrite P.
  - intros U1 U2 S. rewrite !resolveDims_eq. unfold Value.resolveDims_raises, sized.
    cbn [s_width s_height s_longEdge]. rewrite U1, U2.
    destruct (unconvertible w || unconvertible h) eqn:U; [reflexivity|].
    cbn [orb]. f_equal. apply orb_false_elim in U as [Uw Uh].
    rewrite !parseDim_eq, Uw, Uh in S.
    unfold Value.resolveDims_v. cbv zeta.
    cbn [s_width s_height s_longEdge s_aspectRatio]. unfold Value.derive2_v.
    destruct S as [[r [= E]] | [r [= E]]];
      rewrite (truthy_Some_parseDim _ E);
      destruct (Variant2.truthy_dim _); reflexivity.
Qed.

Lemma finalize1_v_of_Z (z : Z) (d : number) :
  z <> 0 -> Value.finalize1_v (Num (of_Z z)) d = of_Z (clampZ z).
Proof.
  intros H. unfold Value.finalize1_v, or_else. cbn [to_boolean].
  rewrite truthy_of_Z. destruct (Z.eqb_spec z 0); [contradiction|].
  apply clamp_v_of_Z.
Qed.

Lemma aligned_align_clamp (z : Z) : aligned_dim (of_Z (align8Z (clampZ z))).
Proof.
  eexists. split; [reflexivity|].
  pose proof (align8Z_range (clampZ_range z)). tauto.
Qed.

Lemma pickDims_raises_unfold (a : sizing) :
  Value.pickDims_raises a =
  unconvertible (s_width a) || unconvertible (s_height a)
  || (negb (positive_integer (to_number (s_width a)))
      && negb (positive_integer (to_number (s_height a)))
      && unconvertible (s_longEdge a)).
Proof. reflexivity. Qed.

Lemma pow_2_53 : 2 ^ 53 = 9007199254740992.
Proof. reflexivity. Qed.

(** X17.  A single side and no usable aspect ratio give a square.  With width
    (or height) an integer [z] that a JavaScript number holds exactly
    ([0 < z < 2^53]), the other side absent or unusable, and an aspectRatio
    that [parseAspectRatio] refuses, [pickDims] returns [z] clamped to
    [256, 2048] for both sides, and the second variant returns [z] clamped
    and aligned for both sides. *)
Theorem single_side_square (z : Z) (other aspectRatio longEdge : value) :
  0 < z < 2 ^ 53 ->
  Variant1.parseAspectRatio1 aspectRatio = None ->
  (unconvertible other = false ->
   positive_integer (to_number other) = false ->
   Variant1.pickDims (sized (Num (of_Z z)) other aspectRatio longEdge)
   = Ok {| width := of_Z (clampZ z); height := of_Z (clampZ z) |} /\
   Variant1.pickDims (sized other (Num (of_Z z)) aspectRatio longEdge)
   = Ok {| width := of_Z (clampZ z); height := of_Z (clampZ z) |}) /\
  (Variant2.parseDim other = Ok None ->
   unconvertible longEdge = false ->
   Variant2.resolveDims (sized (Num (of_Z z)) other aspectRatio longEdge)
   = Ok {| width := of_Z (align8Z (clampZ z));
           height := of_Z (align8Z (clampZ z)) |} /\
   Variant2.resolveDims (sized other (Num (of_Z z)) aspectRatio longEdge)
   = Ok {| width := of_Z (align8Z (clampZ z));
           height := of_Z (align8Z (clampZ z)) |}).
Proof.
  intros Hz A. destruct (AspectRatio.ratio_fallback _ A) as [R1 R2].
  assert (Pz : positive_integer (of_Z z) = true).
  { rewrite positive_integer_of_Z_iff. apply Z.ltb_lt. lia. }
  split.
  - intros U P. split; rewrite pickDims_eq, pickDims_raises_unfold; unfold sized;
      cbn [s_width s_height s_longEdge unconvertible to_number];
      rewrite U, Pz, ?P; cbn [negb andb orb]; rewrite ?andb_false_r;
      cbn [orb]; f_equal; rewrite pickDims_v_unfold; cbv zeta;
      cbn [s_width s_height s_longEdge s_aspectRatio to_number];
      rewrite Pz, P, ?andb_false_r; cbn [andb];
      rewrite derive1_v_unfold, Pz, ?P, R1, ?div_1, ?mul_1, round_of_Z by exact Hz;
      cbn [fst snd]; rewrite !finalize1_v_of_Z by lia; reflexivity.
  - intros N Ul. pose proof (aligned_align_clamp z) as Al.
    pose proof (aligned_truthy Al) as Tr.
    assert (Hc : 0 < align8Z (clampZ z) < 2 ^ 53).
    { pose proof (align8Z_range (clampZ_range z)). rewrite pow_2_53. lia. }
    rewrite parseDim_eq in N.
    destruct (unconvertible other) eqn:U; [discriminate N|].
    assert (N' : Value.parseDim_v other = None) by congruence.
    split; rewrite resolveDims_eq; unfold Value.resolveDims_raises, sized;
      cbn [s_width s_height s_longEdge unconvertible];
      rewrite U, Ul; cbn [orb]; f_equal; unfold Value.resolveDims_v; cbv zeta;
      cbn [s_width s_height s_longEdge s_aspectRatio];
      rewrite N', parseDim_of_Z by lia; unfold Value.derive2_v;
      cbn [Variant2.truthy_dim Variant2.number_of_dim]; rewrite Tr;
      cbn [andb negb]; rewrite R2, ?div_1, ?mul_1, round_of_Z by exact Hc;
      rewrite (parseDim_idem Al); cbn [fst snd];
      rewrite (Resolver.finalize_aligned Al); reflexivity.
Qed.

End Dimensions.

(** ** The answers of the handlers *)
Module Answers.

Import JSNumber JSString JSValue Http Gate Spec Contract.
Import StringFacts Conversion Handler HeaderFacts HandlerFacts ClampFacts.
Local Open Scope Z_scope.

Ltac table_cases :=
  repeat match goal with
         | |- context [if ?c then _ else _] => destruct c eqn:?
         | |- context [match json_body ?r with _ => _ end] =>
             destruct (json_body r) as [?b|] eqn:?
         | |- context [match prompt_of1 ?b with _ => _ end] =>
             destruct (prompt_of1 b) as [[|? ?]|] eqn:?
         | |- context [match prompt_of2 ?b with _ => _ end] =>
             destruct (prompt_of2 b) as [[|? ?]|] eqn:?
         | |- context [match Variant1.pickDims ?a with _ => _ end] =>
             destruct (Variant1.pickDims a) as [?d|] eqn:?
         | |- context [match Variant2.resolveDims ?a with _ => _ end] =>
             destruct (Variant2.resolveDims a) as [?d|] eqn:?
         | |- context [match AI_run ?e ?c with _ => _ end] =>
             destruct (AI_run e c) as [?img|] eqn:?
         | |- context [generate1 ?H ?e ?c] =>
             unfold generate1
         end.

Lemma json_error_cors (m : jsstring) (s : Z) (extra : headers) :
  last_binding extra (lit "Content-Type") = None ->
  json_error s (cors (json m s extra)).
Proof.
  intros L. split; [reflexivity|]. split; [now exists m|].
  rewrite cors_keeps.
  - cbn [json resp_headers]. now rewrite header_get_spread, L.
  - cbn. intros [E | [E | [E | [E | []]]]]; discriminate E.
Qed.

Lemma json_answer (e : env) (m : jsstring) (s : Z) (extra : headers) :
  In s [400; 401; 405; 413; 415] ->
  last_binding extra (lit "Content-Type") = None ->
  answer_kind e (cors (json m s extra), []).
Proof.
  intros I L. right. left. split; [|reflexivity]. exists s.
  split; [exact I | now apply json_error_cors].
Qed.

Ltac solve_kind :=
  first
    [ apply json_answer; [cbn; tauto | reflexivity]
    | left; now repeat split
    | right; right; right; cbn [fst snd]; split; [reflexivity|]; eauto
    | right; right; left; cbn [fst snd]; split; [now apply json_error_cors|];
      first [now left | right; eauto] ].

(** X2.  Every answer of both handlers carries the four CORS headers, whatever
    the request is and whether it is accepted or refused. *)
Theorem every_answer_has_cors (H : helpers) (e : env) (r : request) :
  (forall o, fetch1 H e r = Ok o -> has_cors (fst o)) /\
  has_cors (fst (fetch2 H e r)).
Proof.
  split.
  - intros o. rewrite fetch1_table. table_cases; intros [= <-];
      apply has_cors_cors.
  - rewrite fetch2_table. table_cases; apply has_cors_cors.
Qed.

(** X3.  The status of an answer tells what it is, in both handlers: 204 has no
    body; 400, 401, 405, 413 and 415 are JSON errors given before any
    backend call; 500 is a JSON error given after at most one backend call,
    which then failed; 200 carries the image that the one backend call
    returned.  The first handler answers 500 only after a backend call; the
    second handler never answers 413. *)
Theorem answer_kinds (H : helpers) (e : env) (r : request) :
  (forall o, fetch1 H e r = Ok o ->
             answer_kind e o /\ (status (fst o) = 500 -> snd o <> [])) /\
  answer_kind e (fetch2 H e r) /\
  status (fst (fetch2 H e r)) <> 413.
Proof.
  split; [|split].
  - intros o. rewrite fetch1_table.
    table_cases; intros [= <-];
      (split; [solve_kind | intros S; try discriminate S; discriminate]).
  - rewrite fetch2_table. table_cases; solve_kind.
  - rewrite fetch2_table. table_cases; discriminate.
Qed.

Ltac norm_hyps :=
  repeat match goal with
         | H : negb _ = true |- _ => apply negb_true_iff in H
         | H : negb _ = false |- _ => apply negb_false_iff in H
         end.

(** X4.  The checks come in a fixed order, and the status tells which one
    failed.  First handler: OPTIONS, then method and path (405), then the
    bearer token (401), then the content type (415).  Second handler:
    OPTIONS, then the bearer token (401), then method and path (405), then
    the content type (415). *)
Theorem gate_order (H : helpers) (e : env) (r : request) :
  (forall o, fetch1 H e r = Ok o ->
     (status (fst o) = 204 <-> is_options r = true) /\
     (status (fst o) = 405 <->
      is_options r = false /\ is_post_root r = false) /\
     (status (fst o) = 401 <->
      is_options r = false /\ is_post_root r = true /\
      bearer_ok1 H e r = false) /\
     (status (fst o) = 415 <->
      is_options r = false /\ is_post_root r = true /\
      bearer_ok1 H e r = true /\ is_json_type H (content_type r) = false)) /\
  (status (fst (fetch2 H e r)) = 204 <-> is_options r = true) /\
  (status (fst (fetch2 H e r)) = 401 <->
   is_options r = false /\ bearer_ok2 e r = false) /\
  (status (fst (fetch2 H e r)) = 405 <->
   is_options r = false /\ bearer_ok2 e r = true /\ is_post_root r = false) /\
  (status (fst (fetch2 H e r)) = 415 <->
   is_options r = false /\ bearer_ok2 e r = true /\ is_post_root r = true /\
   is_json_type H (content_type r) = false).
Proof.
  split.
  - intros o. rewrite fetch1_table.
    table_cases; intros [= <-]; norm_hyps; cbn [fst status cors json];
      repeat split; intros; try discriminate;
      repeat match goal with
             | H : _ /\ _ |- _ => destruct H
             end; congruence.
  - rewrite fetch2_table.
    table_cases; norm_hyps; cbn [fst status cors json];
      repeat split; intros; try discriminate;
      repeat match goal with
             | H : _ /\ _ |- _ => destruct H
             end; congruence.
Qed.

Lemma accepted1_true (H : helpers) (e : env) (r : request) :
  accepted1 H e r = true <->
  is_options r = false /\ is_post_root r = true /\ bearer_ok1 H e r = true /\
  is_json_type H (content_type r) = true.
Proof.
  unfold accepted1.
  destruct (is_options r), (is_post_root r), (bearer_ok1 H e r),
    (is_json_type H (content_type r)); cbn; intuition congruence.
Qed.

Lemma accepted2_true (H : helpers) (e : env) (r : request) :
  accepted2 H e r = true <->
  is_options r = false /\ bearer_ok2 e r = true /\ is_post_root r = true /\
  is_json_type H (content_type r) = true.
Proof.
  unfold accepted2.
  destruct (is_options r), (is_post_root r), (bearer_ok2 e r),
    (is_json_type H (content_type r)); cbn; intuition congruence.
Qed.

Lemma pickDims_TypeError (a : sizing) :
  Variant1.pickDims a = TypeError <-> Value.pickDims_raises a = true.
Proof.
  rewrite pickDims_eq. destruct (Value.pickDims_raises a); split; congruence.
Qed.

Lemma resolveDims_TypeError (a : sizing) :
  Variant2.resolveDims a = TypeError <-> Value.resolveDims_raises a = true.
Proof.
  rewrite resolveDims_eq. destruct (Value.resolveDims_raises a); split; congruence.
Qed.

Ltac same_body :=
  repeat match goal with
         | H : _ /\ _ |- _ => destruct H
         | H : exists _, _ |- _ => destruct H
         | H : Some ?a = Some ?b |- _ =>
             assert (a = b) by congruence; clear H; subst
         | H1 : ?x = Some ?a, H2 : ?x = Some ?b |- _ =>
             assert (a = b) by congruence; clear H2; subst
         | H1 : ?x = Ok ?a, H2 : ?x = Ok ?b |- _ =>
             assert (a = b) by congruence; clear H2; subst
         | H : (_ <? _) = true |- _ => apply Z.ltb_lt in H
         | H : (_ <? _) = false |- _ => apply Z.ltb_ge in H
         | H : Value.pickDims_raises _ = true |- _ =>
             apply pickDims_TypeError in H
         | H : Value.resolveDims_raises _ = true |- _ =>
             apply resolveDims_TypeError in H
         end.

Ltac close_case := same_body; try congruence; try discriminate; try lia.

Ltac fin :=
  first [ reflexivity | eassumption | discriminate | lia
        | apply pickDims_TypeError; eassumption
        | apply resolveDims_TypeError; eassumption ].

Ltac build :=
  repeat match goal with
         | |- _ /\ _ => split
         | |- exists _, _ => eexists
         end; try fin.

(** X5.  How a request fails after the checks.  The first handler lets an
    exception escape exactly when an accepted request with a valid prompt
    has a width, height or longEdge whose conversion raises in [pickDims];
    it answers 500 exactly when the backend call fails, and "Invalid JSON
    body" exactly when an accepted request has a body that does not parse.
    The second handler, whose [try] covers the whole body, answers 500
    exactly when an accepted request has a body that does not parse, a
    prompt that has no [trim], a width, height or longEdge whose conversion
    raises, or a backend call that fails. *)
Theorem failure_modes (H : helpers) (e : env) (r : request) :
  (fetch1 H e r = TypeError <->
   accepted1 H e r = true /\
   exists b p,
     json_body r = Some b /\ prompt_of1 b = Some p /\ p <> [] /\
     JSString.length p <= 800 /\
     Value.pickDims_raises (sizing_of (get (or_else b (Obj [])))) = true) /\
  (forall o, fetch1 H e r = Ok o ->
     (status (fst o) = 500 <-> exists c, snd o = [c] /\ AI_run e c = None) /\
     (resp_body (fst o) = JsonError (lit "Invalid JSON body") <->
      accepted1 H e r = true /\ json_body r = None)) /\
  (status (fst (fetch2 H e r)) = 500 <->
   accepted2 H e r = true /\
   (json_body r = None \/
    exists b,
      json_body r = Some b /\
      (prompt_of2 b = None \/
       exists p,
         prompt_of2 b = Some p /\ p <> [] /\
         (Value.resolveDims_raises (sizing_of (get_opt b)) = true \/
          exists d,
            Variant2.resolveDims (sizing_of (get_opt b)) = Ok d /\
            AI_run e (call_of2 b p d) = None)))).
Proof.
  split; [|split].
  - rewrite fetch1_table, accepted1_true.
    table_cases; norm_hyps; (split; [intros E | intros (A & b' & p' & E)]);
      try discriminate E; close_case. build.
  - intros o. rewrite fetch1_table, accepted1_true.
    table_cases; intros [= <-]; norm_hyps; cbn [fst snd status resp_body cors json];
      (split; split; [intros E | intros E | intros E | intros E]);
      try discriminate E; close_case; build.
  - rewrite fetch2_table, accepted2_true.
    table_cases; norm_hyps; cbn [fst status cors json];
      (split; [intros E | intros (A & E)]); try discriminate E.
    all: try (destruct E as [E | (b' & E1 & [E | (p' & E2 & E3 & [E | E])])];
              close_case).
    all: split; [now repeat split|];
      first [ now left
            | right; eexists; split; [reflexivity|];
              first [ now left
                    | right; eexists; split; [eassumption|];
                      split; [discriminate|];
                      first [ left; now apply resolveDims_TypeError
                            | right; eauto ] ] ].
Qed.

Lemma prompt_of1_trimmed (b : value) (p : jsstring) :
  prompt_of1 b = Some p -> trim p = p.
Proof.
  unfold prompt_of1. destruct (get _ _); try discriminate.
  intros [= <-]. apply trim_idem.
Qed.

Lemma prompt_of2_trimmed (b : value) (p : jsstring) :
  prompt_of2 b = Some p -> trim p = p.
Proof.
  unfold prompt_of2. destruct (or_else _ _); try discriminate.
  intros [= <-]. apply trim_idem.
Qed.

Lemma pickDims_bounds (a : sizing) (d : dims) :
  Variant1.pickDims a = Ok d -> clamped (width d) /\ clamped (height d).
Proof.
  rewrite pickDims_eq. destruct (Value.pickDims_raises a); [discriminate|].
  intros [= <-]. apply pickDims_v_clamped.
Qed.

Lemma selected2_string (v : value) : exists m, selected2 v = Str m.
Proof. destruct v; cbn; eauto. Qed.

(** X6.  The first handler calls the backend at most once, and only for an
    accepted request (a POST of "/" with a valid bearer token and a JSON
    content type): the prompt it passes is trimmed, not empty and of at
    most 800 code units, the model is a member of the allow-list, and each
    dimension is NaN or a number of [256, 2048].  The answer is then 200
    or 500. *)
Theorem fetch1_call_validated (H : helpers) (e : env) (r : request)
    (o : outcome) (c : ai_call) :
  fetch1 H e r = Ok o -> In c (snd o) ->
  snd o = [c] /\ accepted1 H e r = true /\
  call_prompt c <> [] /\ trim (call_prompt c) = call_prompt c /\
  JSString.length (call_prompt c) <= 800 /\
  (exists m, call_model c = Str m /\ In m MODEL_WHITELIST) /\
  clamped (call_width c) /\ clamped (call_height c) /\
  (status (fst o) = 200 \/ status (fst o) = 500).
Proof.
  rewrite fetch1_table, accepted1_true.
  table_cases; intros [= <-]; norm_hyps; cbn [fst snd]; intros I;
    try contradiction; destruct I as [<- | []];
    (split; [reflexivity|]); (split; [now repeat split|]);
    cbn [call_of1 call_prompt call_model call_width call_height];
    (split; [discriminate|]);
    (split; [eapply prompt_of1_trimmed; eassumption|]);
    (split; [now apply Z.ltb_ge|]);
    (split; [apply selected1_listed|]);
    match goal with
    | D : Variant1.pickDims _ = Ok _ |- _ =>
        destruct (pickDims_bounds _ D) as [Cw Ch]
    end;
    (split; [exact Cw|]); (split; [exact Ch|]); cbn; tauto.
Qed.

(** X7.  The second handler calls the backend at most once, and only for an
    accepted request (the exact bearer header, a POST of "/", a JSON
    content type): the prompt it passes is trimmed and not empty, the model
    is a string, and both dimensions are multiples of 8 in [256, 2048]. *)
Theorem fetch2_call_validated (H : helpers) (e : env) (r : request)
    (c : ai_call) :
  In c (snd (fetch2 H e r)) ->
  snd (fetch2 H e r) = [c] /\ accepted2 H e r = true /\
  call_prompt c <> [] /\ trim (call_prompt c) = call_prompt c /\
  (exists m, call_model c = Str m) /\
  aligned_dim (call_width c) /\ aligned_dim (call_height c) /\
  (status (fst (fetch2 H e r)) = 200 \/ status (fst (fetch2 H e r)) = 500).
Proof.
  rewrite fetch2_table, accepted2_true.
  table_cases; norm_hyps; cbn [fst snd]; intros I;
    try contradiction; destruct I as [<- | []];
    (split; [reflexivity|]); (split; [now repeat split|]);
    cbn [call_of2 call_prompt call_model call_width call_height];
    (split; [discriminate|]);
    (split; [eapply prompt_of2_trimmed; eassumption|]);
    (split; [apply selected2_string|]);
    match goal with
    | D : Variant2.resolveDims _ = Ok _ |- _ =>
        destruct (Resolver.resolveDims_Ok _ D) as [Cw Ch]
    end;
    (split; [exact Cw|]); (split; [exact Ch|]); cbn; tauto.
Qed.

(** X8.  The headers of three answers.  The 401 of the first handler carries
    the challenge [WWW-Authenticate: Bearer realm="service"]; the 401 of
    the second carries none.  The image answer of the second handler has
    the content type image/png, is not to be stored, and names the file
    after the dimensions that were passed to the backend. *)
Theorem answer_headers (H : helpers) (e : env) (r : request) :
  (forall o, fetch1 H e r = Ok o -> status (fst o) = 401 ->
     header_get (resp_headers (fst o)) (lit "WWW-Authenticate")
     = Some bearer_challenge) /\
  (status (fst (fetch2 H e r)) = 401 ->
   header_get (resp_headers (fst (fetch2 H e r))) (lit "WWW-Authenticate")
   = None) /\
  (status (fst (fetch2 H e r)) = 200 ->
   exists c,
     snd (fetch2 H e r) = [c] /\
     header_get (resp_headers (fst (fetch2 H e r))) (lit "Content-Type")
     = Some (lit "image/png") /\
     header_get (resp_headers (fst (fetch2 H e r))) (lit "Cache-Control")
     = Some (lit "no-store") /\
     header_get (resp_headers (fst (fetch2 H e r))) (lit "Content-Disposition")
     = Some (lit "inline; filename=" ++ [34%N] ++ lit "image-"
               ++ number_toString H (call_width c) ++ lit "x"
               ++ number_toString H (call_height c) ++ lit ".png" ++ [34%N])).
Proof.
  split; [|split].
  - intros o. rewrite fetch1_table.
    table_cases; intros [= <-]; cbn [fst status cors json]; intros S;
      try discriminate S; reflexivity.
  - rewrite fetch2_table.
    table_cases; cbn [fst status cors json]; intros S;
      try discriminate S; reflexivity.
  - rewrite fetch2_table.
    table_cases; cbn [fst snd status cors json]; intros S;
      try discriminate S.
    eexists. split; [reflexivity|]. repeat split.
Qed.

End Answers.

(** ** The theorems at concrete inputs *)
Module Witnesses.

Import JSNumber JSString StringToNumber JSValue JSBuiltin Spec Http Gate.
Local Open Scope Z_scope.

(** The model "bogus" is replaced without an error: the request reaches the
    backend. *)
Lemma C2_witness :
  let b := Obj [(lit "prompt", Str (lit "x")); (lit "model", Str (lit "bogus"))] in
  ready1 sample_helpers sample_env (sample_post b) b /\
  exists o c,
    fetch1 sample_helpers sample_env (sample_post b) = Ok o /\
    snd o = [c] /\
    status (fst o) =
    match AI_run sample_env c with Some _ => 200 | None => 500 end.
Proof.
  intros b.
  assert (R : ready1 sample_helpers sample_env (sample_post b) b)
    by (repeat split; reflexivity).
  split; [exact R|].
  apply (proj1 (proj2 (Handler.C2_model_selection sample_helpers sample_env
                         (sample_post b)))
           b (lit "x") {| width := of_Z 1024; height := of_Z 1024 |} R).
  - reflexivity.
  - intros E. vm_compute in E. discriminate E.
  - vm_compute. intros E. discriminate E.
  - apply Resolver.result_dims_eq. vm_compute. reflexivity.
Defined.

Lemma C3_witness :
  let r := {| method := lit "OPTIONS"; pathname := lit "/";
              authorization := None; content_type := None;
              json_body := None |} in
  method r = lit "OPTIONS" /\
  exists o,
    fetch1 sample_helpers sample_env r = Ok o /\
    status (fst o) = 204 /\ resp_body (fst o) = NoBody.
Proof.
  intros r. split; [reflexivity|].
  apply (proj1 (Handler.C3_method_gate sample_helpers sample_env r)).
  reflexivity.
Defined.

Lemma C4_witness :
  let b := Obj [(lit "prompt", Str (lit "   "))] in
  ready1 sample_helpers sample_env (sample_post b) b /\
  trim (lit "   ") = [] /\
  exists o,
    fetch1 sample_helpers sample_env (sample_post b) = Ok o /\
    status (fst o) = 400 /\ snd o = [].
Proof.
  intros b.
  assert (R : ready1 sample_helpers sample_env (sample_post b) b)
    by (repeat split; reflexivity).
  split; [exact R|]. split; [reflexivity|].
  apply (proj1 (proj2 (proj1 (Handler.C4_prompt_validation sample_helpers
                                sample_env (sample_post b) b) R)
                 (lit "   ") eq_refl)).
  reflexivity.
Defined.

Lemma C5_witness :
  no_delim (lit "16") = true /\ no_delim (lit "9") = true /\
  is_delim 58 = true /\
  Variant1.parseAspectRatio1 (Str (lit "16:9")) = Some (div (of_Z 16) (of_Z 9)).
Proof.
  split; [reflexivity|]. split; [reflexivity|]. split; [reflexivity|].
  apply (proj1 (proj2 AspectRatio.C5_parseAspectRatio) (lit "16") 58%N (lit "9"));
    reflexivity.
Defined.

Lemma C6_witness :
  0 < 1920 /\ 0 < 1080 /\ unconvertible (Num (of_Z 300)) = false /\
  Variant1.pickDims (sized (Num (of_Z 1920)) (Num (of_Z 1080))
                       (Str (lit "1:1")) (Num (of_Z 300)))
  = Ok {| width := of_Z 1920; height := of_Z 1080 |} /\
  Variant2.resolveDims (sized (Num (of_Z 1920)) (Num (of_Z 1080))
                          (Str (lit "1:1")) (Num (of_Z 300)))
  = Ok {| width := of_Z 1920; height := of_Z 1080 |}.
Proof.
  split; [reflexivity|]. split; [reflexivity|]. split; [reflexivity|]. split.
  - apply (proj1 Resolver.C6_explicit_pair 1920 1080 (Str (lit "1:1"))
             (Num (of_Z 300)) eq_refl eq_refl).
  - apply (proj1 (proj2 (proj2 Resolver.C6_explicit_pair)) 1920 1080
             (Str (lit "1:1")) (Num (of_Z 300)) eq_refl eq_refl).
Defined.

Lemma C7_witness :
  let a := sized Undefined Undefined (Str (lit "16:9")) (Num (of_Z 1920)) in
  ToNumber (s_width a) = Ok NaN /\ ToNumber (s_height a) = Ok NaN /\
  positive_integer NaN = false /\
  ToNumber (Variant1.longEdge_param (s_longEdge a)) = Ok (of_Z 1920) /\
  Variant1.pickDims a =
  (cw <- Variant1.finalize1 (Num (of_Z 1920)) Variant1.DEFAULT_W ;;
   ch <- Variant1.finalize1
           (Num (round (div (of_Z 1920) (Variant1.ratio1 (s_aspectRatio a)))))
           Variant1.DEFAULT_H ;;
   Ok {| width := cw; height := ch |}).
Proof.
  intros a. split; [reflexivity|]. split; [reflexivity|].
  split; [reflexivity|]. split; [reflexivity|].
  rewrite (proj1 Resolver.C7_longEdge_rule a NaN NaN (of_Z 1920)
             eq_refl eq_refl eq_refl eq_refl eq_refl).
  reflexivity.
Defined.

Lemma C8_witness :
  to_boolean (Num NaN) = false /\
  Variant1.finalize1 (Num NaN) (of_Z 1024) = Ok (of_Z 1024).
Proof.
  split; [reflexivity|].
  apply (proj1 (proj2 Resolver.C8_fallback)). reflexivity.
Defined.

Lemma C9_witness :
  Variant2.parseDim (Num (of_Z 1001)) = Ok (Some (of_Z 1000)) /\
  aligned_dim (of_Z 1000) /\ ge (of_Z 1000) (of_Z 8) = true.
Proof.
  assert (P : Variant2.parseDim (Num (of_Z 1001)) = Ok (Some (of_Z 1000)))
    by exact (@Resolver.parseDim_int 1001 eq_refl).
  split; [exact P|].
  exact (proj1 Resolver.C9_alignment (Num (of_Z 1001)) (of_Z 1000) P).
Defined.

Lemma C10_witness :
  no_delim (lit "16") = true /\ no_delim (lit "9") = true /\
  Variant2.parseAspectRatio2 (Str (lit "16:9:4"))
  = Some (div (of_Z 16) (of_Z 9)).
Proof.
  split; [reflexivity|]. split; [reflexivity|].
  apply (proj2 (proj1 AspectRatio.C10_first_two_components
                  (lit "16") 58%N (lit "9") 58%N (lit "4")
                  eq_refl eq_refl eq_refl eq_refl)).
Defined.

End Witnesses.

(** ** The properties above at concrete inputs *)
Module Instances.

Import JSNumber JSString StringToNumber JSValue JSBuiltin Spec Http Gate.
Import Contract.
Local Open Scope Z_scope.

(** A prompt with surrounding blanks reaches the backend trimmed, with the
    default dimensions. *)
Lemma fetch1_call_validated_witness :
  let b := Obj [(lit "prompt", Str (lit " a cat "))] in
  let c := call_of1 b (lit "a cat") {| width := of_Z 1024; height := of_Z 1024 |} in
  let o := generate1 sample_helpers sample_env c in
  fetch1 sample_helpers sample_env (sample_post b) = Ok o /\
  In c (snd o) /\
  snd o = [c] /\ accepted1 sample_helpers sample_env (sample_post b) = true /\
  JSString.length (call_prompt c) <= 800 /\
  clamped (call_width c) /\ clamped (call_height c).
Proof.
  intros b c o.
  assert (E : fetch1 sample_helpers sample_env (sample_post b) = Ok o).
  { rewrite HandlerFacts.fetch1_table.
    change (is_options (sample_post b)) with false.
    change (is_post_root (sample_post b)) with true.
    change (bearer_ok1 sample_helpers sample_env (sample_post b)) with true.
    change (is_json_type sample_helpers (content_type (sample_post b))) with true.
    cbn [negb json_body sample_post].
    change (prompt_of1 b) with (Some (lit "a cat")).
    change (800 <? JSString.length (lit "a cat")) with false.
    assert (D : Variant1.pickDims (sizing_of (get (or_else b (Obj []))))
                = Ok {| width := of_Z 1024; height := of_Z 1024 |})
      by (apply Resolver.result_dims_eq; vm_compute; reflexivity).
    now rewrite D. }
  assert (I : In c (snd o)) by (left; reflexivity).
  split; [exact E|]. split; [exact I|].
  destruct (@Answers.fetch1_call_validated _ _ _ _ _ E I)
    as (S & A & _ & _ & L & _ & Cw & Ch & _).
  split; [exact S|]. split; [exact A|]. split; [exact L|].
  split; [exact Cw | exact Ch].
Defined.

Lemma fetch2_call_validated_witness :
  let b := Obj [ (lit "prompt", Str (lit " a cat "));
                 (lit "width", Num (of_Z 1001)) ] in
  let c := call_of2 b (lit "a cat") {| width := of_Z 1000; height := of_Z 1000 |} in
  In c (snd (fetch2 sample_helpers sample_env (sample_post b))) /\
  trim (call_prompt c) = call_prompt c /\
  aligned_dim (call_width c) /\ aligned_dim (call_height c).
Proof.
  intros b c.
  assert (I : In c (snd (fetch2 sample_helpers sample_env (sample_post b)))).
  { rewrite HandlerFacts.fetch2_table.
    assert (B1 : is_options (sample_post b) = false) by (vm_compute; reflexivity).
    assert (B2 : is_post_root (sample_post b) = true) by (vm_compute; reflexivity).
    assert (B3 : bearer_ok2 sample_env (sample_post b) = true)
      by (vm_compute; reflexivity).
    assert (B4 : is_json_type sample_helpers (content_type (sample_post b)) = true)
      by (vm_compute; reflexivity).
    rewrite B1, B2, B3, B4.
    cbn [negb json_body sample_post].
    assert (P : prompt_of2 b = Some (lit "a cat")) by (vm_compute; reflexivity).
    rewrite P.
    assert (D : Variant2.resolveDims (sizing_of (get_opt b))
                = Ok {| width := of_Z 1000; height := of_Z 1000 |})
      by (apply Resolver.result_dims_eq; vm_compute; reflexivity).
    rewrite D. destruct (AI_run sample_env _); left; reflexivity. }
  split; [exact I|].
  destruct (@Answers.fetch2_call_validated _ _ _ _ I)
    as (_ & _ & _ & T & _ & Cw & Ch & _).
  split; [exact T|]. split; [exact Cw | exact Ch].
Defined.


Lemma pickDims_NaN_iff_witness :
  let a := sized Undefined Undefined Undefined (Str (lit "abc")) in
  let d := {| width := NaN; height := of_Z 1024 |} in
  Variant1.pickDims a = Ok d /\
  to_boolean (Variant1.longEdge_param (s_longEdge a)) = true /\
  to_number (Variant1.longEdge_param (s_longEdge a)) = NaN /\
  (width d = NaN <->
   negb (positive_integer (to_number (s_width a)))
   && negb (positive_integer (to_number (s_height a))) = true /\
   ge (Variant1.ratio1 (s_aspectRatio a)) (of_Z 1) = true /\
   to_boolean (Variant1.longEdge_param (s_longEdge a)) = true /\
   to_number (Variant1.longEdge_param (s_longEdge a)) = NaN) /\
  clamped (height d).
Proof.
  intros a d.
  assert (E : Variant1.pickDims a = Ok d)
    by (apply Resolver.result_dims_eq; vm_compute; reflexivity).
  split; [exact E|]. split; [reflexivity|]. split; [reflexivity|].
  destruct (@Dimensions.pickDims_NaN_iff _ _ E) as (_ & Ch & W & _).
  split; [exact W | exact Ch].
Defined.

Lemma pickDims_integer_longEdge_witness :
  let a := sized (Str (lit "abc")) Undefined (Str (lit "16:9")) (Num (of_Z 1920)) in
  unconvertible (s_width a) = false /\
  Number_isInteger (Variant1.longEdge_param (s_longEdge a)) = true /\
  exists d,
    Variant1.pickDims a = Ok d /\ valid_dim (width d) /\ valid_dim (height d).
Proof.
  intros a. split; [reflexivity|]. split; [reflexivity|].
  apply (@Dimensions.pickDims_integer_longEdge a); reflexivity.
Defined.

Lemma parseDim_through_Number_witness :
  unconvertible (Str (lit " 640 ")) = false /\
  to_number (Str (lit " 640 ")) = of_Z 640 /\
  Variant2.parseDim (Str (lit " 640 "))
  = Variant2.parseDim (Num (to_number (Str (lit " 640 ")))).
Proof.
  split; [reflexivity|]. split; [apply NumberFacts.eqb_eq; vm_compute; reflexivity|].
  apply (proj1 (@Dimensions.parseDim_through_Number (Str (lit " 640 ")) eq_refl)).
Defined.

Lemma single_side_square_witness :
  0 < 512 < 2 ^ 53 /\
  Variant1.parseAspectRatio1 Undefined = None /\
  Variant1.pickDims (sized (Num (of_Z 512)) Undefined Undefined Undefined)
  = Ok {| width := of_Z 512; height := of_Z 512 |} /\
  Variant2.resolveDims (sized Undefined (Num (of_Z 516)) Undefined Undefined)
  = Ok {| width := of_Z 520; height := of_Z 520 |}.
Proof.
  assert (B : 0 < 512 < 2 ^ 53) by (split; reflexivity).
  assert (B' : 0 < 516 < 2 ^ 53) by (split; reflexivity).
  split; [exact B|]. split; [reflexivity|]. split.
  - apply (proj1 (proj1 (@Dimensions.single_side_square 512 Undefined Undefined
                           Undefined B eq_refl) eq_refl eq_refl)).
  - apply (proj2 (proj2 (@Dimensions.single_side_square 516 Undefined Undefined
                           Undefined B' eq_refl) eq_refl eq_refl)).
Defined.

End Instances.
